(** * code-reviewer-mcp: the diff parser, the repository locator and the
      paginated comment export, embedded and verified

    The development follows [src/server.py] ([run_git_command],
    [get_repo_root], [get_current_branch], [parse_diff_to_files]) and
    [src/utils/export_comments_to_csv.py] ([create_session], [fetch_paginated],
    [export_comments_to_csv]).

    Python text is modelled by [string]: one [ascii] per code point, so the
    model covers the texts whose code points are below 256.  On that range
    the white space of [str.split()] and [str.strip()] and the digits of
    [int()] are exactly the ones given below. *)

From Stdlib Require Import String Ascii ZArith List Lia Bool Arith.
From Stdlib Require Import DecimalString DecimalPos.
From stdpp Require Import list.
Import ListNotations.

Local Open Scope string_scope.
Local Open Scope list_scope.

(** ** Python strings *)

Module PyStr.

(** [s.startswith(p)] *)
Definition startswith (p s : string) : bool := String.prefix p s.

(** [str.isspace] on one character: the code points below 256 that Python
    treats as white space. *)
Definition isspace (c : ascii) : bool :=
  let n := nat_of_ascii c in
  (((9 <=? n) && (n <=? 13)) || ((28 <=? n) && (n <=? 32))
   || (n =? 133) || (n =? 160))%nat.

Definition isdigit (c : ascii) : bool :=
  let n := nat_of_ascii c in ((48 <=? n) && (n <=? 57))%nat.

Definition is_empty (s : string) : bool :=
  match s with EmptyString => true | String _ _ => false end.

(** [s.split(sep)] for a non-empty separator: the occurrences of [sep] are
    found from the left and do not overlap.  [skip] counts the characters of
    a separator just matched that are still to be passed over, [cur] is the
    piece being collected. *)
Fixpoint split_from (sep : string) (skip : nat) (cur : string) (s : string)
  : list string :=
  match s with
  | EmptyString => [cur]
  | String c s' =>
      match skip with
      | S k => split_from sep k cur s'
      | O =>
          if String.prefix sep s
          then cur :: split_from sep (String.length sep - 1) "" s'
          else split_from sep 0 (cur ++ String c "") s'
      end
  end.

Definition split (sep s : string) : list string := split_from sep 0 "" s.

(** [sep.join(pieces)] *)
Fixpoint join (sep : string) (pieces : list string) : string :=
  match pieces with
  | [] => ""
  | [p] => p
  | p :: rest => p ++ sep ++ join sep rest
  end.

(** [s.replace(old, new)] for a non-empty [old]. *)
Definition replace (old new s : string) : string := join new (split old s).

(** [s.split()]: pieces between runs of white space, no empty piece. *)
Fixpoint split_ws_from (cur : string) (s : string) : list string :=
  match s with
  | EmptyString => if is_empty cur then [] else [cur]
  | String c s' =>
      if isspace c
      then (if is_empty cur then split_ws_from "" s'
            else cur :: split_ws_from "" s')
      else split_ws_from (cur ++ String c "") s'
  end.

Definition split_ws (s : string) : list string := split_ws_from "" s.

Fixpoint lstrip (s : string) : string :=
  match s with
  | EmptyString => ""
  | String c s' => if isspace c then lstrip s' else s
  end.

Fixpoint rstrip (s : string) : string :=
  match s with
  | EmptyString => ""
  | String c s' =>
      let r := rstrip s' in
      if is_empty r && isspace c then "" else String c r
  end.

(** [s.strip()] *)
Definition strip (s : string) : string := rstrip (lstrip s).

(** [s[1:]] *)
Definition tail (s : string) : string :=
  match s with EmptyString => "" | String _ s' => s' end.

(** [str(n)] for an integer. *)
Definition of_Z (n : Z) : string := NilZero.string_of_int (Z.to_int n).

(** *** [int(s)] in base 10

    After white space is trimmed: an optional sign, then decimal digits in
    groups separated by single underscores.  CPython refuses (with the same
    [ValueError]) a literal of more than [int_max_str_digits] digits. *)

Definition int_max_str_digits : nat := 4300.

Definition digit_value (c : ascii) : Z := Z.of_nat (nat_of_ascii c) - 48.

(** [digits_ok prev_us s]: [s] is made of digits and underscores, no
    underscore follows another or starts or ends the literal
    ([prev_us] tells that the previous character was an underscore, or that
    the literal starts here). *)
Fixpoint digits_ok (prev_us : bool) (s : string) : bool :=
  match s with
  | EmptyString => negb prev_us
  | String c s' =>
      if isdigit c then digits_ok false s'
      else if Ascii.eqb c "_" then negb prev_us && digits_ok true s'
      else false
  end.

Fixpoint count_digits (s : string) : nat :=
  match s with
  | EmptyString => 0
  | String c s' => (if isdigit c then 1 else 0) + count_digits s'
  end.

Fixpoint digits_value (acc : Z) (s : string) : Z :=
  match s with
  | EmptyString => acc
  | String c s' =>
      digits_value (if isdigit c then 10 * acc + digit_value c else acc) s'
  end.

Definition int_unsigned (s : string) : option Z :=
  if digits_ok true s && (count_digits s <=? int_max_str_digits)%nat
  then Some (digits_value 0 s) else None.

Definition py_int (s : string) : option Z :=
  match strip s with
  | String "-" d => option_map Z.opp (int_unsigned d)
  | String "+" d => int_unsigned d
  | d => int_unsigned d
  end.

End PyStr.

Import PyStr.

(** The line feed, written [\n] in the source. *)
Definition LF : string := String "010" "".

(** ** Exceptions

    The exceptions the modelled code can raise; a computation that may
    raise returns [exn + A]. *)

Inductive exn : Type :=
| ValueError
| IndexError
| KeyError
| TypeError
| AttributeError
| InvalidHeader
| HTTPError (status : Z)
| RetryError (status : Z).

Definition raises (A : Type) : Type := (exn + A)%type.

Definition bind {A B : Type} (m : raises A) (k : A -> raises B) : raises B :=
  match m with
  | inl e => inl e
  | inr a => k a
  end.

Notation "'let*' x ':=' m 'in' k" := (bind m (fun x => k))
  (at level 10, x name, m at level 100, k at level 200).

(** [l[i]] for [0 <= i]: [IndexError] out of range. *)
Definition index {A : Type} (l : list A) (i : nat) : raises A :=
  match l !! i with
  | Some x => inr x
  | None => inl IndexError
  end.

(** [l[-1]] *)
Definition index_last {A : Type} (l : list A) : raises A :=
  match last l with
  | Some x => inr x
  | None => inl IndexError
  end.

(** [int(s)], raising [ValueError]. *)
Definition int (s : string) : raises Z :=
  match py_int s with
  | Some n => inr n
  | None => inl ValueError
  end.

(** ** Insertion-ordered dictionaries

    A Python [dict] keeps its keys in the order of their first insertion;
    assigning to a key that is present replaces the value where it stands. *)

Module Dict.

Section WithValue.
Context {V : Type}.

Definition t : Type := list (string * V).

Fixpoint get (k : string) (d : t) : option V :=
  match d with
  | [] => None
  | (k', v) :: d' => if String.eqb k k' then Some v else get k d'
  end.

(** [d[k] = v] *)
Fixpoint set (k : string) (v : V) (d : t) : t :=
  match d with
  | [] => [(k, v)]
  | (k', v') :: d' =>
      if String.eqb k k' then (k', v) :: d' else (k', v') :: set k v d'
  end.

Definition keys (d : t) : list string := map fst d.

(** [d[k]], raising [KeyError]. *)
Definition item (k : string) (d : t) : raises V :=
  match get k d with
  | Some v => inr v
  | None => inl KeyError
  end.

End WithValue.

Arguments t V : clear implicits.

End Dict.

(** ** The diff parser ([parse_diff_to_files], src/server.py)

    A hunk is a Python dict that the scan keeps mutating through
    [current_hunk] after it has been appended to its file's list.  The
    hunks therefore live in a store ([hunks], indexed by creation order);
    the file lists and [current_hunk] hold references into it. *)

Record Hunk : Type := mkHunk {
  start_line : Z;
  header : string;
  additions : list string;
  deletions : list string;
  context : list string
}.

Definition FileDiff : Type := Dict.t (list Hunk).

Record scan : Type := mkScan {
  files : Dict.t (list nat);
  hunks : list Hunk;
  current_file : option string;
  current_hunk : option nat
}.

Definition scan_init : scan :=
  {| files := []; hunks := []; current_file := None; current_hunk := None |}.

(** Truth value of [current_file]: neither [None] nor the empty text. *)
Definition truthy (o : option string) : bool :=
  match o with
  | Some s => negb (is_empty s)
  | None => false
  end.

(** The body of the [try] block up to [new_start]. *)
Definition hunk_new_start (line : string) : raises Z :=
  let* raw := index (split "@@" line) 1 in
  let hunk_info := strip raw in
  let parts := split_ws hunk_info in
  let* old_range := match parts with [] => inr "-0" | _ => index parts 0 end in
  let* new_range := if (1 <? length parts)%nat then index parts 1 else inr "+0" in
  let* first := index (split "," new_range) 0 in
  int (replace "+" "" first).

(** The three appends of the last branch. *)
Definition add_addition (x : string) (h : Hunk) : Hunk :=
  mkHunk (start_line h) (header h) (additions h ++ [x]) (deletions h) (context h).
Definition add_deletion (x : string) (h : Hunk) : Hunk :=
  mkHunk (start_line h) (header h) (additions h) (deletions h ++ [x]) (context h).
Definition add_context (x : string) (h : Hunk) : Hunk :=
  mkHunk (start_line h) (header h) (additions h) (deletions h) (context h ++ [x]).

(** What a body line does to the hunk [current_hunk] refers to. *)
Definition classify (line : string) (h : Hunk) : Hunk :=
  if startswith "+" line && negb (startswith "+++" line)
  then add_addition (tail line) h
  else if startswith "-" line && negb (startswith "---" line)
  then add_deletion (tail line) h
  else if negb (startswith "\" line)
  then add_context line h
  else h.

(** One turn of the [for] loop.  In the [try] block nothing is assigned
    before the last operation that can raise [ValueError] or
    [IndexError], so the handler resumes from the state the block began
    with; a [KeyError] is not handled there.  In the second branch
    [current_file] is set, by the test of the branch. *)
Definition step (st : scan) (line : string) : raises scan :=
  if startswith "diff --git" line then
    let parts := split " b/" line in
    if (2 <=? length parts)%nat then
      let* path := index_last parts in
      inr {| files := Dict.set path [] (files st);
             hunks := hunks st;
             current_file := Some path;
             current_hunk := current_hunk st |}
    else inr st
  else if startswith "@@" line && truthy (current_file st) then
    match hunk_new_start line with
    | inr new_start =>
        let ref := length (hunks st) in
        let new_hunk := mkHunk new_start line [] [] [] in
        let path := default "" (current_file st) in
        let* listed := Dict.item path (files st) in
        inr {| files := Dict.set path (listed ++ [ref]) (files st);
               hunks := hunks st ++ [new_hunk];
               current_file := current_file st;
               current_hunk := Some ref |}
    | inl ValueError | inl IndexError => inr st
    | inl e => inl e
    end
  else
    match current_hunk st with
    | Some ref =>
        inr {| files := files st;
               hunks := alter (classify line) ref (hunks st);
               current_file := current_file st;
               current_hunk := current_hunk st |}
    | None => inr st
    end.

(** The loop over a list of lines, from a given state. *)
Fixpoint scan_lines (st : scan) (lines : list string) : raises scan :=
  match lines with
  | [] => inr st
  | line :: rest => let* st' := step st line in scan_lines st' rest
  end.

(** The hunk objects a file's list refers to. *)
Definition resolve (store : list Hunk) (refs : list nat) : list Hunk :=
  omap (fun r => store !! r) refs.

(** The returned [files], with the references followed. *)
Definition file_diff (st : scan) : FileDiff :=
  map (fun '(path, refs) => (path, resolve (hunks st) refs)) (files st).

Definition parse_lines (lines : list string) : raises FileDiff :=
  let* st := scan_lines scan_init lines in inr (file_diff st).

Definition parse_diff_to_files (diff_output : string) : raises FileDiff :=
  parse_lines (split LF diff_output).

(** ** The repository locator ([run_git_command], [get_repo_root],
      [get_current_branch], src/server.py) *)

Module Locator.

(** What [subprocess.run] does with a command line: the process ends, or
    the 60 second limit is passed, or the launch fails with a message. *)
Inductive run_outcome : Type :=
| Completed (stdout stderr : string) (returncode : Z)
| TimeoutExpired
| LaunchFailure (message : string).

(** The tuple [(stdout, stderr, return_code)]. *)
Record ProcessResult : Type := mkResult {
  stdout : string;
  stderr : string;
  exitCode : Z
}.

Section Runner.

(** The operating system: the outcome of running [git] with the given
    arguments in the given directory. *)
Variable subprocess_run : list string -> option string -> run_outcome.

Definition run_git_command (args : list string) (cwd : option string)
  : ProcessResult :=
  match subprocess_run ("git" :: args) cwd with
  | Completed out err code => mkResult out err code
  | TimeoutExpired => mkResult "" "Command timed out" 1
  | LaunchFailure message => mkResult "" message 1
  end.

Definition get_repo_root (cwd : option string) : option string :=
  let r := run_git_command ["rev-parse"; "--show-toplevel"] cwd in
  if (exitCode r =? 0)%Z then Some (strip (stdout r)) else None.

Definition get_current_branch (cwd : option string) : option string :=
  let r := run_git_command ["branch"; "--show-current"] cwd in
  if (exitCode r =? 0)%Z then Some (strip (stdout r)) else None.

End Runner.

(** *** What git answers

    The two commands as git documents them, for three situations of the
    directory they run in: outside any repository, in a work tree whose
    HEAD is detached, and in a work tree on a branch.  Outside a repository
    both fail with status 128; [branch --show-current] prints nothing, and
    succeeds, when HEAD is detached.  [w] is the situation of the directory
    [cwd]; other situations (the [.git] directory, a bare repository) are
    not among the three. *)
Inductive worktree : Type :=
| Outside
| Detached (root : string)
| OnBranch (root branch : string).

Definition not_a_repository : string :=
  "fatal: not a git repository (or any of the parent directories): .git" ++ LF.

Definition git (w : worktree) (argv : list string) (cwd : option string)
  : run_outcome :=
  match argv, w with
  | ["git"; "rev-parse"; "--show-toplevel"], Outside =>
      Completed "" not_a_repository 128
  | ["git"; "rev-parse"; "--show-toplevel"], Detached root =>
      Completed (root ++ LF) "" 0
  | ["git"; "rev-parse"; "--show-toplevel"], OnBranch root _ =>
      Completed (root ++ LF) "" 0
  | ["git"; "branch"; "--show-current"], Outside =>
      Completed "" not_a_repository 128
  | ["git"; "branch"; "--show-current"], Detached _ =>
      Completed "" "" 0
  | ["git"; "branch"; "--show-current"], OnBranch _ branch =>
      Completed (branch ++ LF) "" 0
  | _, _ => Completed "" "" 1
  end.

(** What git answers inside the [.git] directory of a repository on the
    branch [branch]: there is no work tree to name, and the branch is told
    all the same. *)
Definition git_in_git_dir (branch : string) (argv : list string)
    (cwd : option string) : run_outcome :=
  match argv with
  | ["git"; "rev-parse"; "--show-toplevel"] =>
      Completed "" ("fatal: this operation must be run in a work tree" ++ LF) 128
  | ["git"; "branch"; "--show-current"] => Completed (branch ++ LF) "" 0
  | _ => Completed "" "" 1
  end.

(** The locator as the specification words it: none when HEAD is detached
    or the directory is outside a repository, the trimmed branch name
    otherwise. *)
Definition currentBranch_spec (w : worktree) : option string :=
  match w with
  | Outside => None
  | Detached _ => None
  | OnBranch _ branch => Some (strip branch)
  end.

End Locator.

(** ** The paginated export ([create_session], [fetch_paginated],
      [get_all_prs], [get_pr_comments], [export_comments_to_csv],
      src/utils/export_comments.py) *)

Module ExportComments.

(** *** JSON values

    What [response.json()] gives for an item of a listing: any JSON value
    as Python decodes it.  A number written with a fraction or an exponent
    is a [Float], kept as the text it was written with.  An object is the
    dict of its entries; the first entry of a key counts. *)
#[local] Set Warnings "-register-all".
Inductive JSON : Type :=
| Null
| Boolean (b : bool)
| Int (n : Z)
| Float (literal : string)
| Str (s : string)
| Arr (items : list JSON)
| Obj (fields : list (string * JSON)).

(** An item of a listing.  The export expects an object; nothing in the
    code checks it. *)
Definition PaginatedRecord : Type := JSON.

(** One page: the keys ["values"] and ["next"] of the response body, which
    a response carries already decoded.  The envelope is typed: when
    present, ["values"] holds a list and ["next"] a text; a missing key and
    a null are both [None]. *)
Record Page : Type := mkPage {
  values : option (list PaginatedRecord);
  next : option string
}.

(** The [Retry-After] header of a response, as urllib3 reads it: absent,
    empty, a delay in seconds (the integer given or, for a date, the time
    left until it, never negative), or a text that is neither. *)
Inductive RetryAfter : Type :=
| NoHeader
| EmptyHeader
| Seconds (n : Z)
| Unparsable.

Record Response : Type := mkResponse {
  status_code : Z;
  retry_after : RetryAfter;
  json : Page
}.

(** *** The session and its retry policy *)

Record Retry : Type := mkRetry {
  total : nat;
  backoff_factor : Z;
  status_forcelist : list Z;
  allowed_methods : list string
}.

Record Session : Type := mkSession {
  auth : string * string;
  max_retries : Retry
}.

Definition retry_strategy : Retry :=
  {| total := 3;
     backoff_factor := 1;
     status_forcelist := [429; 500; 502; 503; 504]%Z;
     allowed_methods := ["GET"] |}.

Definition create_session (email token : string) : Session :=
  {| auth := (email, token); max_retries := retry_strategy |}.

(** *** The world: a remote server, and what the client has done to it

    [server] is the state of the remote side; [slept] lists, in order and in
    milliseconds, the pauses the client has taken; [requests] counts the
    requests sent. *)
Section Remote.

Context {S : Type}.

(** The remote side: the response to a [GET] of a URL, final in that no
    redirect is left to follow, and the state it leaves. *)
Variable respond : S -> string -> Response * S.

(** The text Python prints for a float, a list or a dict. *)
Variable repr : JSON -> string.

(** The exception [d[:50]] raises on a dict [d]: [TypeError] (a slice
    cannot be hashed) up to Python 3.11, [KeyError] from Python 3.12. *)
Variable unhashable_slice : exn.

Record world : Type := mkWorld {
  server : S;
  slept : list Z;
  requests : nat
}.

Inductive outcome (A : Type) : Type :=
| Done (a : A)
| Raised (e : exn)
| OutOfFuel.
Arguments Done {A} a.
Arguments Raised {A} e.
Arguments OutOfFuel {A}.

Definition mem (x : Z) (l : list Z) : bool := existsb (Z.eqb x) l.

(** urllib3's [Retry.RETRY_AFTER_STATUS_CODES]. *)
Definition RETRY_AFTER_STATUS_CODES : list Z := [413; 429; 503]%Z.

(** The pause urllib3's [Retry.get_backoff_time] computes before a retry,
    in milliseconds: none after a first error, then
    [backoff_factor * 2 ^ (errors - 1)] seconds, at most 120 seconds. *)
Definition get_backoff_time (r : Retry) (consecutive_errors : nat) : Z :=
  if (consecutive_errors <=? 1)%nat then 0%Z
  else Z.min 120000
         (1000 * backoff_factor r * 2 ^ (Z.of_nat consecutive_errors - 1))%Z.

(** [bool(response.headers.get("Retry-After"))] *)
Definition has_retry_after (resp : Response) : bool :=
  match retry_after resp with
  | Seconds _ | Unparsable => true
  | NoHeader | EmptyHeader => false
  end.

(** urllib3's [Retry._is_method_retryable], for the method [GET]: the
    method is among [allowed_methods], or none are named. *)
Definition method_retryable (r : Retry) : bool :=
  match allowed_methods r with
  | [] => true
  | methods => existsb (String.eqb "GET") methods
  end.

(** urllib3's [Retry.is_retry], with [budget] for what is left of [total]:
    a status of [status_forcelist] is retried; so is, while the budget is
    not zero, a status of [RETRY_AFTER_STATUS_CODES] that comes with a
    [Retry-After] header. *)
Definition is_retry (r : Retry) (budget : nat) (resp : Response) : bool :=
  method_retryable r
  && (mem (status_code resp) (status_forcelist r)
      || (negb (budget =? 0)%nat && has_retry_after resp
          && mem (status_code resp) RETRY_AFTER_STATUS_CODES)).

(** urllib3's [Retry.sleep]: the pause taken before a retry, in
    milliseconds.  A [Retry-After] header that asks for a delay is obeyed;
    without one, or with a delay of zero, the backoff applies; a header
    that cannot be read raises. *)
Definition sleep (r : Retry) (consecutive_errors : nat) (resp : Response)
  : raises Z :=
  match retry_after resp with
  | NoHeader => inr (get_backoff_time r consecutive_errors)
  | Seconds n =>
      inr (if (0 <? n)%Z then (1000 * n)%Z
           else get_backoff_time r consecutive_errors)
  | EmptyHeader | Unparsable => inl InvalidHeader
  end.

(** One [GET] through the mounted adapter: the retry loop of urllib3's
    [urlopen] (version 1.26) as requests calls it, for the responses of a
    server.  A response that [is_retry] accepts uses up one unit of the
    budget, and raises the retry error when none is left; otherwise the
    client pauses and sends the request again.  [budget] is what remains
    of [total], [errors] the number of consecutive errors so far.
    Connection errors and time-outs of the request are outside the
    model. *)
Fixpoint send (r : Retry) (budget errors : nat) (w : world) (url : string)
  : raises Response * world :=
  let '(resp, srv) := respond (server w) url in
  let w1 := mkWorld srv (slept w) (Datatypes.S (requests w)) in
  if is_retry r budget resp
  then
    match budget with
    | O => (inl (RetryError (status_code resp)), w1)
    | Datatypes.S budget' =>
        match sleep r (Datatypes.S errors) resp with
        | inl e => (inl e, w1)
        | inr pause =>
            send r budget' (Datatypes.S errors)
              (mkWorld srv (slept w ++ [pause]) (Datatypes.S (requests w))) url
        end
    end
  else (inr resp, w1).

(** [session.get(url, timeout=30)] *)
Definition session_get (s : Session) (w : world) (url : string)
  : raises Response * world :=
  send (max_retries s) (total (max_retries s)) 0 w url.

(** [response.raise_for_status()] *)
Definition raise_for_status (resp : Response) : raises unit :=
  if ((400 <=? status_code resp) && (status_code resp <? 600))%Z
  then inl (HTTPError (status_code resp)) else inr tt.

(** The [while url:] loop; [fuel] bounds the number of pages fetched. *)
Fixpoint fetch_loop (fuel : nat) (s : Session) (w : world)
    (url : option string) (results : list PaginatedRecord)
  : outcome (list PaginatedRecord) * world :=
  if truthy url then
    match fuel with
    | O => (OutOfFuel, w)
    | Datatypes.S fuel' =>
        match session_get s w (default "" url) with
        | (inl e, w') => (Raised e, w')
        | (inr resp, w') =>
            match raise_for_status resp with
            | inl e => (Raised e, w')
            | inr _ =>
                let data := json resp in
                fetch_loop fuel' s w' (next data)
                  (results ++ default [] (values data))
            end
        end
    end
  else (Done results, w).

Definition fetch_paginated (fuel : nat) (s : Session) (w : world)
    (url : string) : outcome (list PaginatedRecord) * world :=
  fetch_loop fuel s w (Some url) [].

Definition base_url (workspace repo_slug : string) : string :=
  "https://api.bitbucket.org/2.0/repositories/" ++ workspace ++ "/" ++ repo_slug.

(** [str(v)], as an f-string formats a value. *)
Definition str (v : JSON) : string :=
  match v with
  | Null => "None"
  | Boolean true => "True"
  | Boolean false => "False"
  | Int n => of_Z n
  | Str s => s
  | Float _ | Arr _ | Obj _ => repr v
  end.

Definition get_all_prs (fuel : nat) (s : Session) (w : world)
    (workspace repo_slug : string) : outcome (list PaginatedRecord) * world :=
  fetch_paginated fuel s w
    (base_url workspace repo_slug
     ++ "/pullrequests?state=MERGED&state=OPEN&state=DECLINED").

Definition get_pr_comments (fuel : nat) (s : Session) (w : world)
    (workspace repo_slug : string) (pr_id : JSON)
  : outcome (list PaginatedRecord) * world :=
  fetch_paginated fuel s w
    (base_url workspace repo_slug ++ "/pullrequests/" ++ str pr_id ++ "/comments").

(** *** The export *)

(** One row of the output, by the names of [CSV_FIELDS]. *)
Record CommentRecord : Type := mkComment {
  pr_id : JSON;
  pr_title : JSON;
  pr_url : string;
  comment_id : JSON;
  content_raw : JSON;
  file_path : JSON;
  line : JSON;
  created : JSON;
  updated : JSON
}.

(** [v.get(key, fallback)]: only a dict has the method. *)
Definition get (key : string) (fallback : JSON) (v : JSON) : raises JSON :=
  match v with
  | Obj fields => inr (default fallback (Dict.get key fields))
  | _ => inl AttributeError
  end.

(** [v[key]] for a text [key]: a dict without the key raises [KeyError],
    and no other value can be indexed by a text. *)
Definition item (key : string) (v : JSON) : raises JSON :=
  match v with
  | Obj fields => Dict.item key fields
  | _ => inl TypeError
  end.

(** The dictionary appended for a comment that is kept; its values are
    computed in the order of the keys. *)
Definition flatten (pr_web_url : string) (pr_id pr_title : JSON)
    (comment : PaginatedRecord) : raises CommentRecord :=
  let* comment_id := get "id" Null comment in
  let* content := get "content" (Obj []) comment in
  let* raw := get "raw" (Str "") content in
  let* inline := get "inline" (Obj []) comment in
  let* path := get "path" (Str "General comment") inline in
  let* inline' := get "inline" (Obj []) comment in
  let* to := get "to" (Str "") inline' in
  let* created_on := get "created_on" (Str "") comment in
  let* updated_on := get "updated_on" (Str "") comment in
  inr {| pr_id := pr_id;
         pr_title := pr_title;
         pr_url := pr_web_url ++ "/" ++ str pr_id;
         comment_id := comment_id;
         content_raw := raw;
         file_path := path;
         line := to;
         created := created_on;
         updated := updated_on |}.

(** [comment.get("user", {}).get("account_id", "")] *)
Definition author_id (comment : PaginatedRecord) : raises JSON :=
  let* user := get "user" (Obj []) comment in
  get "account_id" (Str "") user.

(** [author_id != account_id], for a text [account_id]. *)
Definition differs (author : JSON) (account : string) : bool :=
  match author with
  | Str a => negb (String.eqb a account)
  | _ => true
  end.

(** The test of the inner loop: is the comment appended? *)
Definition kept (account : option string) (comment : PaginatedRecord)
  : raises bool :=
  if truthy account
  then let* author := author_id comment in
       inr (negb (differs author (default "" account)))
  else inr true.

(** The inner [for comment in comments] loop. *)
Fixpoint scan_comments (account : option string) (pr_web_url : string)
    (pr_id pr_title : JSON) (comments : list PaginatedRecord)
    (all_comments : list CommentRecord) : raises (list CommentRecord) :=
  match comments with
  | [] => inr all_comments
  | comment :: rest =>
      let* keep := kept account comment in
      if keep
      then let* row := flatten pr_web_url pr_id pr_title comment in
           scan_comments account pr_web_url pr_id pr_title rest
             (all_comments ++ [row])
      else scan_comments account pr_web_url pr_id pr_title rest all_comments
  end.

(** [pr_title[:50]] in the progress line: a text and a list can be
    sliced, a dict raises [unhashable_slice], and nothing else can be
    indexed. *)
Definition slice50 (v : JSON) : raises JSON :=
  match v with
  | Str s => inr (Str (String.substring 0 50 s))
  | Arr items => inr (Arr (firstn 50 items))
  | Obj _ => inl unhashable_slice
  | Null | Boolean _ | Int _ | Float _ => inl TypeError
  end.

(** The outer [for idx, pr in enumerate(prs, 1)] loop. *)
Fixpoint scan_prs (fuel : nat) (s : Session) (workspace repo_slug : string)
    (account : option string) (prs : list PaginatedRecord) (w : world)
    (all_comments : list CommentRecord)
  : outcome (list CommentRecord) * world :=
  match prs with
  | [] => (Done all_comments, w)
  | pr :: rest =>
      match item "id" pr with
      | inl e => (Raised e, w)
      | inr pr_id =>
      match item "title" pr with
      | inl e => (Raised e, w)
      | inr pr_title =>
      match slice50 pr_title with
      | inl e => (Raised e, w)
      | inr _ =>
      match get_pr_comments fuel s w workspace repo_slug pr_id with
      | (Done comments, w') =>
          let pr_web_url :=
            ("https://bitbucket.org/" ++ workspace ++ "/" ++ repo_slug
             ++ "/pull-requests")%string in
          match scan_comments account pr_web_url pr_id pr_title comments
                  all_comments with
          | inl e => (Raised e, w')
          | inr all_comments' =>
              scan_prs fuel s workspace repo_slug account rest
                (mkWorld (server w') (slept w' ++ [100%Z]) (requests w'))
                all_comments'
          end
      | (Raised e, w') => (Raised e, w')
      | (OutOfFuel, w') => (OutOfFuel, w')
      end end end end
  end.

(** [export_comments_to_csv] up to the CSV writer: the model returns the
    rows [all_comments] handed to the writer, whose number the source
    returns. *)
Definition export_comments_to_csv (fuel : nat) (s : Session) (w : world)
    (workspace repo_slug : string) (account_id : option string)
  : outcome (list CommentRecord) * world :=
  match get_all_prs fuel s w workspace repo_slug with
  | (Done prs, w') => scan_prs fuel s workspace repo_slug account_id prs w' []
  | (Raised e, w') => (Raised e, w')
  | (OutOfFuel, w') => (OutOfFuel, w')
  end.

End Remote.

Arguments Done {A} a.
Arguments Raised {A} e.
Arguments OutOfFuel {A}.
Arguments world S : clear implicits.
Arguments mkWorld {S} _ _ _.

(** *** A scripted server

    The server holds the answers it will give, in order, each for one URL.
    A request for the URL at the head of the script gets that answer; any
    other request gets status 404. *)
Definition script : Type := list (string * Response).

Definition not_found : Response := mkResponse 404 NoHeader (mkPage None None).

Definition play (sc : script) (url : string) : Response * script :=
  match sc with
  | (u, resp) :: rest => if String.eqb u url then (resp, rest) else (not_found, sc)
  | [] => (not_found, sc)
  end.

End ExportComments.

(** ** The remote side, as the export sees it

    Relations that describe what a server answers, whatever its state is
    made of. *)

Module Listing.

Import ExportComments.

Section Remote.

Context {S : Type}.
Variable respond : S -> string -> Response * S.
Variable repr : JSON -> string.










Definition items (pages : list (list Response * list PaginatedRecord))
  : list PaginatedRecord :=
  concat (map snd pages).


(** *** The rows, as the specification words them *)

(** The value under a path of keys; none when a key is missing or a value
    on the way is no object. *)
Fixpoint field (path : list string) (v : JSON) : option JSON :=
  match path with
  | [] => Some v
  | key :: path' =>
      match v with
      | Obj fields =>
          match Dict.get key fields with
          | Some x => field path' x
          | None => None
          end
      | _ => None
      end
  end.

(** The comment is by the account [account]: its author identity is that
    text. *)
Definition by_author (account : string) (comment : PaginatedRecord) : bool :=
  match field ["user"; "account_id"] comment with
  | Some (Str a) => String.eqb a account
  | _ => false
  end.

(** The CommentRecord of a comment: the identifier, title and address of
    its pull request, then its own identifier, text, file path (or the
    sentinel of a comment that is not inline), line (or the empty text)
    and the two dates. *)
Definition row_of (pr_web_url : string) (pr_id pr_title : JSON)
    (comment : PaginatedRecord) : CommentRecord :=
  {| pr_id := pr_id;
     pr_title := pr_title;
     pr_url := pr_web_url ++ "/" ++ str repr pr_id;
     comment_id := default Null (field ["id"] comment);
     content_raw := default (Str "") (field ["content"; "raw"] comment);
     file_path := default (Str "General comment") (field ["inline"; "path"] comment);
     line := default (Str "") (field ["inline"; "to"] comment);
     created := default (Str "") (field ["created_on"] comment);
     updated := default (Str "") (field ["updated_on"] comment) |}.

(** The rows the specification asks for: for each pull request in listing
    order, the comments that [wanted] holds of, in the order of its
    comment pages. *)
Definition rows_of (wanted : PaginatedRecord -> bool) (pr_web_url : string)
    (listing : list (JSON * JSON * list PaginatedRecord))
  : list CommentRecord :=
  concat (map (fun '(pr_id, pr_title, comments) =>
                 map (row_of pr_web_url pr_id pr_title)
                     (List.filter wanted comments))
              listing).

(** The value is an object whose entry [key], when it has one, is an
    object. *)
Definition object_at (key : string) (v : JSON) : bool :=
  match v with
  | Obj fields =>
      match Dict.get key fields with
      | None | Some (Obj _) => true
      | Some _ => false
      end
  | _ => false
  end.

(** A comment the export can make a row of: an object whose ["content"]
    and ["inline"], when present, are objects. *)
Definition flat (comment : PaginatedRecord) : bool :=
  object_at "content" comment && object_at "inline" comment.

(** A comment the filtered export can handle: an object whose ["user"],
    when present, is an object, and which is [flat] when it is by the
    account. *)
Definition shaped (account : string) (comment : PaginatedRecord) : bool :=
  object_at "user" comment
  && (if by_author account comment then flat comment else true).

(** A comment the export can handle, with the filter [account] or
    without one. *)
Definition handled (account : option string) (comment : PaginatedRecord)
  : bool :=
  if truthy account then shaped (default "" account) comment else flat comment.

(** The comments the export is to keep: those by the author when a filter
    is given, and all of them otherwise. *)
Definition wanted (account : option string) (comment : PaginatedRecord)
  : bool :=
  if truthy account then by_author (default "" account) comment else true.

(** A title the progress line can cut: a text or a list. *)
Definition sliceable (v : JSON) : bool :=
  match v with
  | Str _ | Arr _ => true
  | _ => false
  end.

(** The comment listings of the pull requests [prs], each an object with
    an identifier and a title that can be cut, are fetched one after the
    other, with the pause the export takes after each. *)
Inductive comments_fetched (fuel : nat) (session : Session)
    (workspace repo_slug : string)
  : world S -> list PaginatedRecord
    -> list (JSON * JSON * list PaginatedRecord) -> world S -> Prop :=
| fetched_nil (w : world S) :
    comments_fetched fuel session workspace repo_slug w [] [] w
| fetched_cons (w : world S) (pr : PaginatedRecord) (prs : list PaginatedRecord)
    (pr_id pr_title : JSON) (comments : list PaginatedRecord)
    (w1 : world S) (listing : list (JSON * JSON * list PaginatedRecord))
    (w' : world S) :
    field ["id"] pr = Some pr_id ->
    field ["title"] pr = Some pr_title ->
    sliceable pr_title = true ->
    get_pr_comments respond repr fuel session w workspace repo_slug pr_id
    = (Done comments, w1) ->
    comments_fetched fuel session workspace repo_slug
      (mkWorld (server w1) (slept w1 ++ [100%Z]) (requests w1)) prs listing w' ->
    comments_fetched fuel session workspace repo_slug
      w (pr :: prs) ((pr_id, pr_title, comments) :: listing) w'.

End Remote.

End Listing.

(** ** The specification's reading of the parser

    Definitions that follow the words of the specification, to be compared
    with the scan above. *)

(** A file marker and the path it registers: the test of the first branch
    of the loop. *)
Definition file_marker (line : string) : option string :=
  if startswith "diff --git" line then
    let parts := split " b/" line in
    if (2 <=? length parts)%nat then last parts else None
  else None.

Definition is_some {A : Type} (o : option A) : bool :=
  match o with Some _ => true | None => false end.

Definition is_inr {A B : Type} (r : A + B) : bool :=
  match r with inr _ => true | inl _ => false end.

(** A hunk marker whose header parses. *)
Definition accepted (line : string) : bool :=
  startswith "@@" line && is_inr (hunk_new_start line).

(** A line that is neither a file line nor a hunk marker. *)
Definition body_line (line : string) : bool :=
  negb (startswith "diff --git" line) && negb (startswith "@@" line).

(** The accepted hunk headers up to the next file marker. *)
Fixpoint section_headers (lines : list string) : list string :=
  match lines with
  | [] => []
  | l :: rest =>
      if is_some (file_marker l) then []
      else if accepted l then l :: section_headers rest
      else section_headers rest
  end.

(** The file sections of a text, in order: the path of each file marker
    with the accepted hunk headers that follow it (none when the path is
    empty, since an empty [current_file] starts no hunk). *)
Fixpoint sections (lines : list string) : list (string * list string) :=
  match lines with
  | [] => []
  | l :: rest =>
      match file_marker l with
      | Some p =>
          (p, if is_empty p then [] else section_headers rest) :: sections rest
      | None => sections rest
      end
  end.

(** The elements of a list in the order of their first appearance. *)
Fixpoint first_seen_from (seen l : list string) : list string :=
  match l with
  | [] => []
  | x :: l' =>
      if existsb (String.eqb x) seen then first_seen_from seen l'
      else x :: first_seen_from (x :: seen) l'
  end.

Definition first_seen (l : list string) : list string := first_seen_from [] l.

Definition sections_of (p : string) (secs : list (string * list string))
  : list (string * list string) :=
  List.filter (fun s => String.eqb (fst s) p) secs.

(** Every hunk header that appears under the file [p], in order. *)
Definition all_headers (p : string) (secs : list (string * list string))
  : list string :=
  concat (map snd (sections_of p secs)).

(** The hunk headers of the last section of the file [p]. *)
Definition last_headers (p : string) (secs : list (string * list string))
  : list string :=
  match last (sections_of p secs) with
  | Some s => snd s
  | None => []
  end.

(** The four kinds of line a hunk is fed with.  A line is added when it
    begins with "+" but not with "+++", deleted when it begins with "-" but
    not with "---", and dropped when it begins with a backslash; any other
    line is kept verbatim.  So an added line whose text begins with "++",
    and a removed line whose text begins with "--", count as verbatim,
    like the "+++" and "---" lines of a file header. *)
Inductive kind : Type := Added | Deleted | Verbatim | Dropped.

Definition kind_of (line : string) : kind :=
  if startswith "+" line && negb (startswith "+++" line) then Added
  else if startswith "-" line && negb (startswith "---" line) then Deleted
  else if negb (startswith "\" line) then Verbatim
  else Dropped.

(** A line without the prefix character the parser strips. *)
Definition unprefix (line : string) : string :=
  match kind_of line with
  | Added | Deleted => tail line
  | _ => line
  end.

Definition kind_eqb (k1 k2 : kind) : bool :=
  match k1, k2 with
  | Added, Added | Deleted, Deleted | Verbatim, Verbatim | Dropped, Dropped => true
  | _, _ => false
  end.

(** The lines of one kind, in order. *)
Definition lines_of (k : kind) (body : list string) : list string :=
  List.filter (fun l => kind_eqb (kind_of l) k) body.

(** The lines the parser keeps: all but the backslash lines. *)
Definition stored (body : list string) : list string :=
  List.filter (fun l => negb (kind_eqb (kind_of l) Dropped)) body.

(** Reconstruction of a hunk's lines: the three collections are read in
    the order [order] gives, the original order of the kinds. *)
Fixpoint weave (order : list kind) (a d c : list string) : list string :=
  match order with
  | [] => []
  | Added :: o =>
      match a with x :: a' => x :: weave o a' d c | [] => weave o a d c end
  | Deleted :: o =>
      match d with x :: d' => x :: weave o a d' c | [] => weave o a d c end
  | Verbatim :: o =>
      match c with x :: c' => x :: weave o a d c' | [] => weave o a d c end
  | Dropped :: o => weave o a d c
  end.

Definition reconstruct (order : list kind) (h : Hunk) : list string :=
  header h :: weave order (additions h) (deletions h) (context h).

(** What the lines of a body leave in a hunk. *)
Definition feed (body : list string) (h : Hunk) : Hunk :=
  fold_left (fun h l => classify l h) body h.

(** The hunk headers of a parse result, file by file. *)
Definition outline (fd : FileDiff) : Dict.t (list string) :=
  map (fun '(p, hs) => (p, map header hs)) fd.

(** [sep] occurs in [s]. *)
Definition occurs (sep s : string) : Prop :=
  exists pre post, s = (pre ++ sep ++ post)%string.

(** No occurrence of [sep] overlaps another one. *)
Definition unbordered (sep : string) : Prop :=
  forall pre r p, pre <> "" -> String.length pre < String.length sep ->
                  (sep ++ r)%string <> (pre ++ sep ++ p)%string.

(** The invariant of the scan: [current_file], once set, is a key of
    [files], and every reference in [files] points into the store. *)
Record wf (st : scan) : Prop := {
  wf_current : forall p, current_file st = Some p ->
                         is_some (Dict.get p (files st)) = true;
  wf_refs : Forall (fun e => Forall (fun r => r < length (hunks st)) (snd e))
                   (files st)
}.

(** The hunk headers listed in a scan state, file by file. *)
Definition outline_st (st : scan) : Dict.t (list string) :=
  outline (file_diff st).

(** A section registered in an outline, as [files[path] = []] followed by
    the appends of its hunks. *)
Definition register (d : Dict.t (list string)) (sec : string * list string)
  : Dict.t (list string) :=
  Dict.set (fst sec) (snd sec) d.

(** Hunk headers appended to the list of the current file. *)
Definition extend (cur : option string) (hs : list string)
    (d : Dict.t (list string)) : Dict.t (list string) :=
  match cur with
  | Some p =>
      if is_empty p then d
      else Dict.set p (default [] (Dict.get p d) ++ hs) d
  | None => d
  end.

(** [sep] occurs in [s], decided by looking at every position. *)
Fixpoint occursb (sep s : string) : bool :=
  match s with
  | EmptyString => String.prefix sep s
  | String _ s' => String.prefix sep s || occursb sep s'
  end.

(** ** Sample inputs *)

(** The example of the specification. *)
Definition sample_diff : string :=
  "diff --git a/x.py b/x.py" ++ LF ++ "@@ -1,2 +1,3 @@" ++ LF ++ " line1" ++ LF
  ++ "+line2" ++ LF ++ "-oldline" ++ LF.

(** Two file sections, the second with the lines git prints between the
    file marker and the first hunk. *)
Definition two_files : list string :=
  [ "diff --git a/x b/x"; "@@ -1 +1 @@"; "+a";
    "diff --git a/y b/y"; "index 1..2 100644"; "--- a/y"; "+++ b/y";
    "@@ -3 +4,2 @@"; "-b" ].

(** A path that comes back after another file. *)
Definition repeated_file : list string :=
  [ "diff --git a/x b/x"; "@@ -1 +1 @@";
    "diff --git a/y b/y";
    "diff --git a/x b/x"; "@@ -5 +5 @@" ].

(** A hunk header without range tokens. *)
Definition bare_header : list string :=
  [ "diff --git a/x b/x"; "@@"; "+c" ].

(** A header with a start that is no integer, after a first hunk. *)
Definition bad_after_good : list string :=
  [ "diff --git a/x b/x"; "@@ -1 +1 @@"; "+a"; "@@ -1 +z @@"; "+b" ].

(** A header with a start that is no integer, before a good one. *)
Definition bad_then_good : list string :=
  [ "diff --git a/x b/x"; "@@ -1 +z @@"; "+b"; "@@ -7,2 +8,2 @@"; "+c"; " d" ].

(** A file whose last line has no line feed. *)
Definition no_newline : list string :=
  [ "diff --git a/x b/x"; "--- a/x"; "+++ b/x";
    "@@ -1 +1 @@"; "-old"; "+new"; "\ No newline at end of file" ].

(** A hunk with an added line that begins with "++", followed by the
    section of another file. *)
Definition across_files : list string :=
  [ "diff --git a/x b/x";
    "@@ -1 +1,2 @@"; "+++i;"; "-old"; "\ No newline at end of file";
    "diff --git a/y b/y"; "--- a/y"; "+++ b/y";
    "@@ -3 +4 @@"; "+b" ].

(** Listings for a scripted server. *)
Module Samples.

Import ExportComments.

Definition entry (n : Z) : PaginatedRecord := Obj [("id", Int n)].

Definition ok_page (found : list PaginatedRecord) (cursor : option string)
  : Response :=
  mkResponse 200 NoHeader (mkPage (Some found) cursor).







Definition pull (n : Z) (name : string) : PaginatedRecord :=
  Obj [("id", Int n); ("title", Str name)].

Definition comment_by (n : Z) (author : option string) (text : string)
  : PaginatedRecord :=
  Obj (("id", Int n)
       :: match author with
          | Some a => [("user", Obj [("account_id", Str a)])]
          | None => []
          end
       ++ [ ("content", Obj [("raw", Str text)]);
            ("created_on", Str "2024-01-01");
            ("updated_on", Str "2024-01-02") ])%list.

(** A comment on a line of a file. *)
Definition inline_comment_by (n : Z) (author text path : string) (to : Z)
  : PaginatedRecord :=
  Obj [ ("id", Int n);
        ("user", Obj [("account_id", Str author)]);
        ("content", Obj [("raw", Str text)]);
        ("inline", Obj [("path", Str path); ("to", Int to)]);
        ("created_on", Str "2024-01-03");
        ("updated_on", Str "2024-01-04") ].

(** A comment whose author is null. *)
Definition orphan_comment (n : Z) (text : string) : PaginatedRecord :=
  Obj [ ("id", Int n); ("user", Null); ("content", Obj [("raw", Str text)]) ].

Definition prs_url : string :=
  "https://api.bitbucket.org/2.0/repositories/ws/repo/pullrequests?state=MERGED&state=OPEN&state=DECLINED".

Definition comments_url (n : string) : string :=
  "https://api.bitbucket.org/2.0/repositories/ws/repo/pullrequests/" ++ n
  ++ "/comments".

(** Two pull requests with five comments, two of them by "alice", one of
    these on a line of a file. *)
Definition two_prs : script :=
  [ (prs_url, ok_page [pull 1 "First"; pull 2 "Second"] None);
    (comments_url "1",
     ok_page [comment_by 11 (Some "alice") "a"; comment_by 12 (Some "bob") "b";
              comment_by 13 None "c"] None);
    (comments_url "2",
     ok_page [comment_by 21 (Some "carol") "d";
              inline_comment_by 22 "alice" "e" "src/a.py" 12] None) ].

(** One pull request with two comments, the first with a null author. *)
Definition null_author : script :=
  [ (prs_url, ok_page [pull 1 "First"] None);
    (comments_url "1",
     ok_page [orphan_comment 11 "a"; comment_by 12 (Some "alice") "b"] None) ].

Definition start (sc : script) : world script := mkWorld sc [] 0.

(** Python's [repr] is not needed for the samples: their identifiers are
    integers. *)
Definition no_repr (v : JSON) : string := "".

End Samples.

(** ** The tools of the server ([load_persona], [get_branch_diff],
      [get_changed_files], [review_diff], [review_file], src/server.py) *)

(** [sub in s] *)
Definition contains (sub s : string) : bool := occursb sub s.

(** Every character of [s] passes the test [P]. *)
Fixpoint forall_chars (P : ascii -> bool) (s : string) : bool :=
  match s with
  | EmptyString => true
  | String c s' => P c && forall_chars P s'
  end.

(** [s] holds no line feed. *)
Definition no_LF (s : string) : bool :=
  forall_chars (fun c => negb (Ascii.eqb c "010")) s.

(** [s] holds no white space and no "@": a token of a hunk header. *)
Definition word (s : string) : bool :=
  forall_chars (fun c => negb (isspace c) && negb (Ascii.eqb c "@")) s.

Fixpoint spaces (n : nat) : string :=
  match n with
  | O => ""
  | Datatypes.S n' => String " " (spaces n')
  end.

(** [f"{n:4d}"]: the decimal text of [n], right-aligned to four columns. *)
Definition format_4d (n : Z) : string :=
  let digits := of_Z n in
  spaces (4 - String.length digits) ++ digits.

(** One line of the numbered listing of [review_file]. *)
Definition numbered_line (i : nat) (line : string) : string :=
  format_4d (Z.of_nat i + 1) ++ " | " ++ line.

(** [numbered_content] of [review_file]. *)
Definition numbered_content (content : string) : string :=
  join LF (imap numbered_line (split LF content)).

(** The list [files] of [get_changed_files]. *)
Definition changed_files (stdout : string) : list string :=
  map strip
    (List.filter (fun f => negb (is_empty (strip f))) (split LF (strip stdout))).

Module Tools.

Import Locator.

Local Open Scope string_scope.

(** What reading a file gives. *)
Inductive read_outcome : Type :=
| Content (text : string)
| FileNotFoundError
| ReadFailure (message : string).

Section Env.

(** The operating system: the git runner, the directory of the process,
    the file system behind [pathlib.Path], and the text of the embedded
    persona. *)
Variable subprocess_run : list string -> option string -> run_outcome.
Variable process_cwd : string.
Variable path_join : string -> string -> string.
Variable path_exists : string -> bool.
Variable is_absolute : string -> bool.
Variable read_file : string -> read_outcome.
Variable REVIEWER_PERSONA : string.

Definition DEFAULT_PERSONA_PATH : string := "notebooks/code_reviewer_persona.md".

(** [a or b], for an optional text [a]. *)
Definition or_else (a : option string) (b : string) : string :=
  if truthy a then default "" a else b.

Definition load_persona (persona_file working_directory : option string)
  : string :=
  let persona_file :=
    if truthy persona_file then persona_file
    else
      let cwd := or_else working_directory process_cwd in
      let repo_root := get_repo_root subprocess_run (Some cwd) in
      if truthy repo_root then
        let default_path := path_join (default "" repo_root) DEFAULT_PERSONA_PATH in
        if path_exists default_path then Some default_path else persona_file
      else persona_file in
  if truthy persona_file then
    let given := default "" persona_file in
    let file_path :=
      if negb (is_absolute given) && truthy working_directory
      then path_join (default "" working_directory) given
      else given in
    match read_file file_path with
    | Content content => content
    | FileNotFoundError => REVIEWER_PERSONA
    | ReadFailure _ => REVIEWER_PERSONA
    end
  else REVIEWER_PERSONA.

Definition not_a_repo_message : string :=
  "Error: Not in a git repository or unable to determine current branch.".

Definition branch_diff_summary
    (current_branch base_branch merge_base file_filter stdout : string)
  : string :=
  join LF
    [ "## Branch Diff Summary";
      "";
      "**Current Branch:** " ++ current_branch;
      "**Base Branch:** " ++ base_branch;
      "**Merge Base:** " ++ String.substring 0 8 merge_base;
      "**Filter:** " ++ file_filter;
      "";
      "---";
      "";
      stdout;
      "" ].

Definition get_branch_diff (base_branch file_filter : string)
    (working_directory : option string) : string :=
  let cwd := or_else working_directory process_cwd in
  let current_branch := get_current_branch subprocess_run (Some cwd) in
  if negb (truthy current_branch) then not_a_repo_message
  else
    let base := run_git_command subprocess_run
                  ["merge-base"; base_branch; "HEAD"] (Some cwd) in
    if negb (exitCode base =? 0)%Z
    then "Error finding merge base: " ++ stderr base
    else
      let merge_base := strip (stdout base) in
      let diff := run_git_command subprocess_run
                    ["diff"; merge_base; "HEAD"; "--"; file_filter] (Some cwd) in
      if negb (exitCode diff =? 0)%Z
      then "Error getting diff: " ++ stderr diff
      else if is_empty (strip (stdout diff))
      then "No changes found in " ++ file_filter ++ " files between "
           ++ base_branch ++ " and " ++ default "" current_branch ++ "."
      else branch_diff_summary (default "" current_branch) base_branch
             merge_base file_filter (stdout diff).

Definition get_changed_files (base_branch file_filter : string)
    (working_directory : option string) : string :=
  let cwd := or_else working_directory process_cwd in
  let base := run_git_command subprocess_run
                ["merge-base"; base_branch; "HEAD"] (Some cwd) in
  if negb (exitCode base =? 0)%Z
  then "Error finding merge base: " ++ stderr base
  else
    let merge_base := strip (stdout base) in
    let names := run_git_command subprocess_run
                   ["diff"; "--stat"; "--name-only"; merge_base; "HEAD"; "--";
                    file_filter] (Some cwd) in
    if negb (exitCode names =? 0)%Z
    then "Error getting changed files: " ++ stderr names
    else if is_empty (strip (stdout names))
    then "No " ++ file_filter ++ " files changed."
    else
      let files := changed_files (stdout names) in
      let stat := run_git_command subprocess_run
                    ["diff"; "--stat"; merge_base; "HEAD"; "--"; file_filter]
                    (Some cwd) in
      join LF
        [ "## Changed Files (" ++ of_Z (Z.of_nat (length files)) ++ " files)";
          "";
          "### Files:";
          join LF (map (fun f => "- `" ++ f ++ "`") files);
          "";
          "### Statistics:";
          "```";
          stdout stat;
          "```";
          "" ].

Definition review_prompt (persona focus_areas diff_result : string) : string :=
  join LF
    [ "";
      "## Code Review Request";
      "";
      "Please review the following diff using these standards:";
      "";
      persona;
      "";
      "### Focus Areas: " ++ focus_areas;
      "";
      "### Diff to Review:";
      "";
      diff_result;
      "";
      "---";
      "";
      "## Review Output Format";
      "";
      "For each issue found, provide:";
      "1. **File:Line** - The specific location";
      "2. **Severity** - critical/warning/suggestion/question";
      "3. **Issue** - What the problem is";
      "4. **Suggestion** - How to fix it (with code example if helpful)";
      "";
      "Organize by file, then by severity within each file.";
      "" ].

Definition review_diff (base_branch : string)
    (working_directory : option string) (focus_areas : string)
    (persona_file : option string) : raises string :=
  let cwd := or_else working_directory process_cwd in
  let persona := load_persona persona_file (Some cwd) in
  let diff_result := get_branch_diff base_branch "*.py" (Some cwd) in
  if startswith "Error" diff_result || contains "No changes found" diff_result
  then inr diff_result
  else
    let* files := parse_diff_to_files diff_result in
    match files with
    | [] => inr "No files to review in the diff."
    | _ => inr (review_prompt persona focus_areas diff_result)
    end.

Definition file_review_prompt (persona file_path numbered : string) : string :=
  join LF
    [ "";
      "## Code Review Request - Single File";
      "";
      "Please review this file using these standards:";
      "";
      persona;
      "";
      "### File: `" ++ file_path ++ "`";
      "";
      "```python";
      numbered;
      "```";
      "";
      "---";
      "";
      "## Review Output Format";
      "";
      "For each issue found, provide:";
      "1. **Line Number** - The specific line(s)";
      "2. **Severity** - critical/warning/suggestion/question  ";
      "3. **Issue** - What the problem is";
      "4. **Suggestion** - How to fix it (with code example if helpful)";
      "";
      "Start with a brief summary of the file's purpose, then list issues by severity.";
      "" ].

Definition review_file (file_path : string) (working_directory : option string)
    (persona_file : option string) : string :=
  let cwd := or_else working_directory process_cwd in
  let persona := load_persona persona_file (Some cwd) in
  let file_path :=
    if negb (is_absolute file_path) then path_join cwd file_path else file_path in
  match read_file file_path with
  | FileNotFoundError => "Error: File not found: " ++ file_path
  | ReadFailure e => "Error reading file: " ++ e
  | Content content =>
      file_review_prompt persona file_path (numbered_content content)
  end.

Definition get_persona (persona_file working_directory : option string)
  : string :=
  let cwd := or_else working_directory process_cwd in
  let persona := load_persona persona_file (Some cwd) in
  let source :=
    if truthy persona_file then default "" persona_file
    else "embedded default" in
  join LF
    [ "## Active Code Reviewer Persona";
      "";
      "**Source:** " ++ source;
      "";
      "---";
      "";
      persona;
      "" ].

End Env.

(** [format_review_comment].  The five icons are characters outside the
    range of [ascii]; they are left as they are, five texts. *)
Section Icons.

Variable icon_critical icon_warning icon_suggestion icon_question
         icon_praise : string.

Definition severity_icons : Dict.t string :=
  [ ("critical", icon_critical); ("warning", icon_warning);
    ("suggestion", icon_suggestion); ("question", icon_question);
    ("praise", icon_praise) ].

(** [if line_number:], for an optional integer. *)
Definition nonzero (line_number : option Z) : bool :=
  match line_number with
  | Some n => negb (n =? 0)%Z
  | None => false
  end.

Definition format_review_comment (file_path : string)
    (line_number : option Z) (comment severity : string) : string :=
  let icon := default icon_suggestion (Dict.get severity severity_icons) in
  let location := file_path in
  let location :=
    if nonzero line_number
    then location ++ ":" ++ of_Z (default 0%Z line_number)
    else location in
  icon ++ " **" ++ location ++ "**" ++ LF ++ comment ++ LF.

End Icons.

End Tools.

(** A git for the tools: a branch, a merge base and a diff text; and a
    diff that adds a line holding the words "No changes found". *)
Module ToolSamples.

Import Locator.

Definition phrase_diff : string :=
  join LF [ "diff --git a/t.py b/t.py"; "@@ -1 +1,2 @@"; " x = 1";
            "+# No changes found yet" ].

Definition scripted_git (diff : string) (argv : list string)
    (cwd : option string) : run_outcome :=
  match argv with
  | ["git"; "branch"; "--show-current"] => Completed ("feature" ++ LF) "" 0
  | ["git"; "rev-parse"; "--show-toplevel"] => Completed ("/repo" ++ LF) "" 0
  | ["git"; "merge-base"; _; "HEAD"] =>
      Completed ("0123456789abcdef" ++ LF) "" 0
  | ["git"; "diff"; _; "HEAD"; "--"; _] => Completed diff "" 0
  | ["git"; "diff"; "--stat"; "--name-only"; _; "HEAD"; "--"; _] =>
      Completed ("a.py" ++ LF ++ "pkg/b.py" ++ LF) "" 0
  | ["git"; "diff"; "--stat"; _; "HEAD"; "--"; _] =>
      Completed (" a.py     | 2 +-" ++ LF ++ " pkg/b.py | 1 +" ++ LF) "" 0
  | _ => Completed "" "" 1
  end.

End ToolSamples.

(** ** The rows of an export, and more listings *)

Module Rows.

Import ExportComments.

Definition pr_web_url (workspace repo_slug : string) : string :=
  "https://bitbucket.org/" ++ workspace ++ "/" ++ repo_slug ++ "/pull-requests".


(** Two pull requests, the second without a title. *)
Definition untitled_pr : script :=
  [ (Samples.prs_url,
     Samples.ok_page [Samples.pull 1 "First"; Samples.entry 2] None);
    (Samples.comments_url "1",
     Samples.ok_page [Samples.comment_by 11 (Some "alice") "a"] None) ].

(** A pull request whose title is a list, with one comment that has a
    null ["inline"]. *)
Definition list_title : script :=
  [ (Samples.prs_url,
     Samples.ok_page
       [Obj [("id", Int 1); ("title", Arr [Str "First"; Str "draft"])]] None);
    (Samples.comments_url "1",
     Samples.ok_page
       [Obj [("id", Int 11); ("inline", Null)]] None) ].

End Rows.

(** * Verification *)

(** ** Facts about strings *)

Section StringFacts.

Open Scope string_scope.

Lemma append_nil_r (s : string) : s ++ "" = s.
Proof. induction s as [|c s IH]; simpl; [reflexivity | now rewrite IH]. Qed.

Lemma append_assoc (s t u : string) : (s ++ t) ++ u = s ++ t ++ u.
Proof. induction s as [|c s IH]; simpl; [reflexivity | now rewrite IH]. Qed.

Lemma length_append (s t : string) :
  String.length (s ++ t) = String.length s + String.length t.
Proof. induction s as [|c s IH]; simpl; [reflexivity | now rewrite IH]. Qed.

Lemma append_inj_l (p a b : string) : p ++ a = p ++ b -> a = b.
Proof.
  induction p as [|c p IH]; simpl; intros H; [exact H |].
  injection H as H. now apply IH.
Qed.

Lemma prefix_append (p r : string) : String.prefix p (p ++ r) = true.
Proof.
  induction p as [|c p IH]; simpl.
  - now destruct r.
  - destruct (ascii_dec c c) as [_|n]; [exact IH | now elim n].
Qed.

Lemma prefix_inv (p s : string) :
  String.prefix p s = true -> exists r, s = p ++ r.
Proof.
  revert s. induction p as [|c p IH]; intros s H.
  - exists s. reflexivity.
  - destruct s as [|d s]; simpl in H; [discriminate |].
    destruct (ascii_dec c d) as [->|_]; [| discriminate].
    destruct (IH s H) as [r ->]. exists r. reflexivity.
Qed.

(** Two ways of cutting one text: the shorter head is a head of the
    longer. *)
Lemma append_eq_split (a b c d : string) :
  a ++ b = c ++ d -> String.length a <= String.length c ->
  exists e, c = a ++ e /\ b = e ++ d.
Proof.
  revert c. induction a as [|x a IH]; intros c H Hlen.
  - exists c. simpl in H. now split.
  - destruct c as [|y c]; simpl in Hlen; [lia |].
    simpl in H. injection H as -> H.
    destruct (IH c H ltac:(lia)) as [e [-> ->]].
    exists e. now split.
Qed.

Lemma split_from_skip (sep x cur rest : string) :
  split_from sep (String.length x) cur (x ++ rest) = split_from sep 0 cur rest.
Proof. induction x as [|c x IH]; simpl; [reflexivity | exact IH]. Qed.

Lemma split_from_match (sep cur rest : string) :
  sep <> "" ->
  split_from sep 0 cur (sep ++ rest) = cur :: split_from sep 0 "" rest.
Proof.
  intros Hne. destruct sep as [|c sep]; [now elim Hne |].
  change (String c sep ++ rest) with (String c (sep ++ rest)).
  cbn [split_from].
  change (String c (sep ++ rest)) with (String c sep ++ rest).
  rewrite prefix_append. f_equal.
  replace (String.length (String c sep) - 1) with (String.length sep)
    by (simpl; lia).
  apply split_from_skip.
Qed.

Lemma split_from_miss (sep cur : string) (c : ascii) (s : string) :
  String.prefix sep (String c s) = false ->
  split_from sep 0 cur (String c s) = split_from sep 0 (cur ++ String c "") s.
Proof. intros H. cbn [split_from]. now rewrite H. Qed.

Lemma split_from_absent (sep cur s : string) :
  ~ occurs sep s -> split_from sep 0 cur s = [cur ++ s].
Proof.
  revert cur. induction s as [|c s IH]; intros cur Hno.
  - simpl. now rewrite append_nil_r.
  - destruct (String.prefix sep (String c s)) eqn:Hp.
    + exfalso. apply Hno. destruct (prefix_inv _ _ Hp) as [r Hr].
      exists "", r. exact Hr.
    + rewrite split_from_miss by exact Hp. rewrite IH.
      * now rewrite append_assoc.
      * intros [pre [post ->]]. apply Hno. now exists (String c pre), post.
Qed.

Lemma split_from_last (sep : string) :
  sep <> "" -> unbordered sep ->
  forall n s cur pre p,
    String.length s <= n -> s = pre ++ sep ++ p -> ~ occurs sep p ->
    last (split_from sep 0 cur s) = Some p
    /\ 2 <= length (split_from sep 0 cur s).
Proof.
  intros Hne Hub. induction n as [|n IH]; intros s cur pre p Hlen Hs Hno.
  - exfalso. subst s. rewrite !length_append in Hlen.
    destruct sep; [now elim Hne | simpl in Hlen; lia].
  - destruct s as [|c s].
    { exfalso. destruct pre; [destruct sep; [now elim Hne|] |]; discriminate. }
    destruct (String.prefix sep (String c s)) eqn:Hp.
    + destruct (prefix_inv _ _ Hp) as [r Hr]. rewrite Hr.
      rewrite split_from_match by exact Hne.
      destruct pre as [|x pre].
      * simpl in Hs. rewrite Hr in Hs. apply append_inj_l in Hs. subst r.
        rewrite split_from_absent by exact Hno. simpl. split; [reflexivity | lia].
      * destruct (le_lt_dec (String.length sep) (String.length (String x pre)))
          as [Hge|Hlt].
        -- rewrite Hr in Hs.
           destruct (append_eq_split _ _ _ _ Hs Hge) as [e [He Hr']].
           assert (Hlr : String.length r <= n).
           { rewrite Hr in Hlen. rewrite length_append in Hlen.
             destruct sep; [now elim Hne | simpl in Hlen; lia]. }
           destruct (IH r "" e p Hlr Hr' Hno) as [Hlast Hlen2].
           split; [| simpl; lia].
           destruct (split_from sep 0 "" r) as [|y l] eqn:E; [simpl in Hlen2; lia |].
           exact Hlast.
        -- exfalso. rewrite Hr in Hs. revert Hs. apply Hub; [discriminate | exact Hlt].
    + rewrite split_from_miss by exact Hp.
      destruct pre as [|x pre].
      * exfalso. simpl in Hs. rewrite Hs, prefix_append in Hp. discriminate.
      * simpl in Hs. injection Hs as -> Hs. simpl in Hlen.
        apply (IH s _ pre p); [lia | exact Hs | exact Hno].
Qed.

Lemma unbordered_b : unbordered " b/".
Proof.
  intros pre r p Hne Hlt H.
  destruct pre as [|a [|b [|c pre]]]; simpl in *;
    try (now elim Hne); try lia; inversion H.
Qed.

(** A hunk marker never begins with the file marker. *)
Lemma hunk_marker_not_file (line : string) :
  startswith "@@" line = true -> startswith "diff --git" line = false.
Proof.
  unfold startswith. intros H.
  destruct (prefix_inv _ _ H) as [r ->]. reflexivity.
Qed.

End StringFacts.

(** ** Facts about dictionaries *)

Section DictFacts.

Context {V : Type}.
Implicit Types (d : Dict.t V) (k : string) (v : V).

Lemma get_set_eq k v d : Dict.get k (Dict.set k v d) = Some v.
Proof.
  induction d as [|[k' v'] d IH]; simpl.
  - now rewrite String.eqb_refl.
  - destruct (String.eqb k k') eqn:E; simpl; rewrite E; [reflexivity | exact IH].
Qed.

Lemma get_set_ne k k' v d :
  k <> k' -> Dict.get k' (Dict.set k v d) = Dict.get k' d.
Proof.
  intros Hne. induction d as [|[k0 v0] d IH]; simpl.
  - destruct (String.eqb k' k) eqn:E; [| reflexivity].
    apply String.eqb_eq in E. now elim Hne.
  - destruct (String.eqb k k0) eqn:E; simpl.
    + apply String.eqb_eq in E. subst k0.
      destruct (String.eqb k' k) eqn:E'; [| reflexivity].
      apply String.eqb_eq in E'. now elim Hne.
    + now rewrite IH.
Qed.

Lemma set_set k v1 v2 d : Dict.set k v2 (Dict.set k v1 d) = Dict.set k v2 d.
Proof.
  induction d as [|[k' v'] d IH]; simpl.
  - now rewrite String.eqb_refl.
  - destruct (String.eqb k k') eqn:E; simpl; rewrite E; [reflexivity | now rewrite IH].
Qed.

Lemma set_same k v d : Dict.get k d = Some v -> Dict.set k v d = d.
Proof.
  induction d as [|[k' v'] d IH]; simpl; [discriminate |].
  destruct (String.eqb k k') eqn:E.
  - intros [= ->]. reflexivity.
  - intros H. now rewrite IH.
Qed.

Lemma keys_set_present k v d :
  is_some (Dict.get k d) = true -> Dict.keys (Dict.set k v d) = Dict.keys d.
Proof.
  unfold Dict.keys. induction d as [|[k' v'] d IH]; simpl; [discriminate |].
  destruct (String.eqb k k') eqn:E; simpl; [reflexivity |].
  intros H. now rewrite IH.
Qed.

Lemma keys_set_absent k v d :
  Dict.get k d = None -> Dict.keys (Dict.set k v d) = Dict.keys d ++ [k].
Proof.
  unfold Dict.keys. induction d as [|[k' v'] d IH]; simpl; [reflexivity |].
  destruct (String.eqb k k') eqn:E; simpl; [discriminate |].
  intros H. now rewrite IH.
Qed.

Lemma mem_keys k d : existsb (String.eqb k) (Dict.keys d) = is_some (Dict.get k d).
Proof.
  unfold Dict.keys. induction d as [|[k' v'] d IH]; simpl; [reflexivity |].
  destruct (String.eqb k k'); simpl; [reflexivity | exact IH].
Qed.

Lemma set_Forall (P : string * V -> Prop) k v d :
  P (k, v) -> Forall P d -> Forall P (Dict.set k v d).
Proof.
  intros Hk. induction d as [|[k' v'] d IH]; simpl; intros Hd.
  - constructor; [exact Hk | constructor].
  - inversion Hd as [|? ? H1 H2]; subst.
    destruct (String.eqb k k') eqn:E.
    + apply String.eqb_eq in E. subst k'. constructor; assumption.
    + constructor; [exact H1 | now apply IH].
Qed.

Lemma get_Forall (P : string * V -> Prop) k v d :
  Forall P d -> Dict.get k d = Some v -> P (k, v).
Proof.
  induction d as [|[k' v'] d IH]; simpl; intros Hd; [discriminate |].
  inversion Hd as [|? ? H1 H2]; subst.
  destruct (String.eqb k k') eqn:E.
  - apply String.eqb_eq in E. subst k'. now intros [= <-].
  - now apply IH.
Qed.

End DictFacts.

Lemma get_map_values {V W : Type} (f : V -> W) (k : string) (d : Dict.t V) :
  Dict.get k (map (fun '(p, v) => (p, f v)) d) = option_map f (Dict.get k d).
Proof.
  induction d as [|[k' v'] d IH]; simpl; [reflexivity |].
  destruct (String.eqb k k'); [reflexivity | exact IH].
Qed.

Lemma set_map_values {V W : Type} (f : V -> W) (k : string) (v : V) (d : Dict.t V) :
  map (fun '(p, v) => (p, f v)) (Dict.set k v d)
  = Dict.set k (f v) (map (fun '(p, v) => (p, f v)) d).
Proof.
  induction d as [|[k' v'] d IH]; simpl; [reflexivity |].
  destruct (String.eqb k k'); simpl; [reflexivity | now rewrite IH].
Qed.

Lemma keys_map_values {V W : Type} (f : V -> W) (d : Dict.t V) :
  Dict.keys (map (fun '(p, v) => (p, f v)) d) = Dict.keys d.
Proof.
  unfold Dict.keys. induction d as [|[k v] d IH]; simpl; [reflexivity | now rewrite IH].
Qed.

(** ** The scan, line by line *)

Section ScanFacts.

Lemma index_error {A : Type} (l : list A) (i : nat) (e : exn) :
  index l i = inl e -> e = IndexError.
Proof. unfold index. destruct (l !! i); now intros [= <-]. Qed.

Lemma int_error (s : string) (e : exn) : int s = inl e -> e = ValueError.
Proof. unfold int. destruct (py_int s); now intros [= <-]. Qed.

(** The only exceptions of the header parse are the two the handler names. *)
Lemma hunk_new_start_error (line : string) (e : exn) :
  hunk_new_start line = inl e -> e = ValueError \/ e = IndexError.
Proof.
  unfold hunk_new_start.
  destruct (index (split "@@" line) 1) as [e1|raw] eqn:E1; simpl.
  { intros [= <-]. right. exact (index_error _ _ _ E1). }
  destruct (split_ws (strip raw)) as [|p0 [|p1 ps]]; cbn -[split replace int];
    match goal with
    | |- context [index (split "," ?r) 0] =>
        destruct (index (split "," r) 0) as [e4|first] eqn:E4; simpl
    end;
    try (intros [= <-]; right; exact (index_error _ _ _ E4));
    intros H; left; exact (int_error _ _ H).
Qed.

Lemma truthy_Some (o : option string) :
  truthy o = true -> exists p, o = Some p /\ is_empty p = false.
Proof.
  destruct o as [p|]; simpl; [| discriminate].
  intros H. exists p. split; [reflexivity |]. now destruct (is_empty p).
Qed.

(** The first branch, on a marker that names a path. *)
Lemma step_marker (st : scan) (line p : string) :
  file_marker line = Some p ->
  step st line = inr {| files := Dict.set p [] (files st);
                        hunks := hunks st;
                        current_file := Some p;
                        current_hunk := current_hunk st |}.
Proof.
  unfold file_marker, step.
  destruct (startswith "diff --git" line); [| discriminate].
  destruct (2 <=? length (split " b/" line))%nat; [| discriminate].
  intros H. unfold index_last. now rewrite H.
Qed.

(** The first branch, on a file line that names no path. *)
Lemma step_inert (st : scan) (line : string) :
  startswith "diff --git" line = true -> file_marker line = None ->
  step st line = inr st.
Proof.
  unfold file_marker, step. intros ->.
  destruct (2 <=? length (split " b/" line))%nat eqn:E; [| reflexivity].
  intros H. exfalso.
  destruct (split " b/" line) as [|x l] using rev_ind; [discriminate |].
  now rewrite last_snoc in H.
Qed.

(** The second branch, on a header that parses. *)
Lemma step_header (st : scan) (line p : string) (n : Z) (listed : list nat) :
  startswith "@@" line = true -> current_file st = Some p ->
  is_empty p = false -> hunk_new_start line = inr n ->
  Dict.get p (files st) = Some listed ->
  step st line = inr {| files := Dict.set p (listed ++ [length (hunks st)]) (files st);
                        hunks := hunks st ++ [mkHunk n line [] [] []];
                        current_file := Some p;
                        current_hunk := Some (length (hunks st)) |}.
Proof.
  intros Hs Hc Hp Hn Hg. unfold step.
  rewrite (hunk_marker_not_file _ Hs), Hs, Hc. simpl. rewrite Hp. simpl.
  rewrite Hn. unfold Dict.item. rewrite Hg. reflexivity.
Qed.

(** The second branch, on a header that does not parse. *)
Lemma step_malformed (st : scan) (line : string) (e : exn) :
  startswith "@@" line = true -> truthy (current_file st) = true ->
  hunk_new_start line = inl e ->
  step st line = inr st.
Proof.
  intros Hs Hc He. unfold step.
  rewrite (hunk_marker_not_file _ Hs), Hs, Hc. simpl. rewrite He.
  destruct (hunk_new_start_error _ _ He) as [-> | ->]; reflexivity.
Qed.

(** The last branch. *)
Lemma step_body (st : scan) (line : string) :
  startswith "diff --git" line = false ->
  startswith "@@" line && truthy (current_file st) = false ->
  step st line
  = inr match current_hunk st with
        | Some ref => {| files := files st;
                         hunks := alter (classify line) ref (hunks st);
                         current_file := current_file st;
                         current_hunk := current_hunk st |}
        | None => st
        end.
Proof.
  intros Hd Hh. unfold step. rewrite Hd, Hh. now destruct (current_hunk st).
Qed.

Lemma scan_lines_app (st : scan) (l1 l2 : list string) :
  scan_lines st (l1 ++ l2)
  = (let* st' := scan_lines st l1 in scan_lines st' l2).
Proof.
  revert st. induction l1 as [|l l1 IH]; intros st; simpl; [reflexivity |].
  destruct (step st l) as [e|st']; simpl; [reflexivity | apply IH].
Qed.

(** *** The invariant of the scan *)

Lemma wf_init : wf scan_init.
Proof. split; [discriminate | constructor]. Qed.

Lemma refs_weaken (n m : nat) (d : Dict.t (list nat)) :
  n <= m ->
  Forall (fun e => Forall (fun r => r < n) (snd e)) d ->
  Forall (fun e => Forall (fun r => r < m) (snd e)) d.
Proof.
  intros Hle H. eapply Forall_impl; [exact H |].
  intros e He. eapply Forall_impl; [exact He |].
  intros r. simpl. lia.
Qed.

(** One line never raises, and keeps the invariant. *)
Lemma step_wf (st : scan) (line : string) :
  wf st -> exists st', step st line = inr st' /\ wf st'.
Proof.
  intros [Hcur Hrefs].
  destruct (startswith "diff --git" line) eqn:Hd.
  - destruct (file_marker line) as [p|] eqn:Hm.
    + eexists. split; [apply step_marker; exact Hm |].
      split; simpl.
      * intros q [= <-]. now rewrite get_set_eq.
      * apply set_Forall; [constructor | exact Hrefs].
    + exists st. split; [now apply step_inert | now split].
  - destruct (startswith "@@" line && truthy (current_file st)) eqn:Hh.
    + apply andb_prop in Hh as [Hs Ht].
      destruct (hunk_new_start line) as [e|n] eqn:Hn.
      * exists st. split; [now apply (step_malformed st line e) | now split].
      * destruct (truthy_Some _ Ht) as [p [Hp Hne]].
        specialize (Hcur p Hp).
        destruct (Dict.get p (files st)) as [listed|] eqn:Hg; [| discriminate].
        eexists. split; [now apply (step_header st line p n listed) |].
        split; simpl.
        -- intros q [= <-]. now rewrite get_set_eq.
        -- rewrite length_app. simpl.
           apply set_Forall.
           ++ simpl. apply Forall_app. split.
              ** eapply Forall_impl; [exact (get_Forall _ _ _ _ Hrefs Hg) |].
                 intros r. simpl. lia.
              ** constructor; [lia | constructor].
           ++ revert Hrefs. apply refs_weaken. lia.
    + rewrite step_body by assumption.
      eexists. split; [reflexivity |].
      destruct (current_hunk st) as [ref|]; [| now split].
      split; simpl; [exact Hcur |].
      now rewrite length_alter.
Qed.

Lemma scan_lines_wf (lines : list string) (st : scan) :
  wf st -> exists st', scan_lines st lines = inr st' /\ wf st'.
Proof.
  revert st. induction lines as [|l lines IH]; intros st Hwf; simpl.
  - now exists st.
  - destruct (step_wf st l Hwf) as [st1 [-> Hwf1]]. simpl. now apply IH.
Qed.

End ScanFacts.

(** ** Body lines and the store *)

Section BodyFacts.

Lemma body_line_inv (l : string) :
  body_line l = true ->
  startswith "diff --git" l = false /\ startswith "@@" l = false.
Proof.
  unfold body_line. intros H. apply andb_prop in H as [H1 H2].
  split; [now destruct (startswith "diff --git" l) | now destruct (startswith "@@" l)].
Qed.

Lemma feed_cons (l : string) (body : list string) (h : Hunk) :
  feed (l :: body) h = feed body (classify l h).
Proof. reflexivity. Qed.

(** Body lines go to the hunk [current_hunk] refers to, whichever file it
    was created for; with no current hunk they are dropped. *)
Lemma scan_body (body : list string) (st : scan) :
  Forall (fun l => body_line l = true) body ->
  scan_lines st body
  = inr match current_hunk st with
        | Some ref => {| files := files st;
                         hunks := alter (feed body) ref (hunks st);
                         current_file := current_file st;
                         current_hunk := current_hunk st |}
        | None => st
        end.
Proof.
  revert st. induction body as [|l body IH]; intros st Hb.
  - simpl. destruct st as [f h cf [ref|]]; simpl; [| reflexivity].
    now rewrite list_alter_id.
  - inversion Hb as [|? ? Hl Hrest]; subst.
    apply body_line_inv in Hl as [Hd Hh].
    simpl. rewrite step_body; [| exact Hd | now rewrite Hh].
    simpl. rewrite IH by exact Hrest.
    destruct (current_hunk st) as [ref|] eqn:Hc; simpl; [| now rewrite Hc].
    now rewrite list_alter_alter_eq.
Qed.

Lemma classify_header (l : string) (h : Hunk) : header (classify l h) = header h.
Proof.
  unfold classify.
  destruct (startswith "+" l && negb (startswith "+++" l)); [reflexivity |].
  destruct (startswith "-" l && negb (startswith "---" l)); [reflexivity |].
  now destruct (negb (startswith "\" l)).
Qed.

(** What a body leaves in a hunk, collection by collection. *)
Lemma feed_spec (body : list string) (h : Hunk) :
  feed body h
  = mkHunk (start_line h) (header h)
      (additions h ++ map tail (lines_of Added body))
      (deletions h ++ map tail (lines_of Deleted body))
      (context h ++ lines_of Verbatim body).
Proof.
  revert h. induction body as [|l body IH]; intros h.
  - simpl. rewrite !app_nil_r. now destruct h.
  - rewrite feed_cons, IH. unfold lines_of. simpl.
    unfold classify, kind_of.
    destruct (startswith "+" l && negb (startswith "+++" l)); simpl.
    { now rewrite <- app_assoc. }
    destruct (startswith "-" l && negb (startswith "---" l)); simpl.
    { now rewrite <- app_assoc. }
    destruct (negb (startswith "\" l)); simpl; [now rewrite <- app_assoc | reflexivity].
Qed.

(** Reading the three collections back in the original order of the kinds
    gives the stored lines, without their prefix characters. *)
Lemma weave_lines_of (body : list string) :
  weave (map kind_of body)
    (map tail (lines_of Added body)) (map tail (lines_of Deleted body))
    (lines_of Verbatim body)
  = map unprefix (stored body).
Proof.
  induction body as [|l body IH]; [reflexivity |].
  unfold lines_of, stored, unprefix in *. simpl.
  destruct (kind_of l) eqn:K; simpl; rewrite ?K; now rewrite IH.
Qed.

(** A reconstruction is never longer than what the hunk holds. *)
Lemma weave_length (order : list kind) (a d c : list string) :
  length (weave order a d c) <= length a + length d + length c.
Proof.
  revert a d c. induction order as [|k order IH]; intros a d c; simpl; [lia |].
  destruct k.
  - destruct a as [|x a]; [apply IH |]. simpl. specialize (IH a d c). lia.
  - destruct d as [|x d]; [apply IH |]. simpl. specialize (IH a d c). lia.
  - destruct c as [|x c]; [apply IH |]. simpl. specialize (IH a d c). lia.
  - apply IH.
Qed.

(** Once [current_hunk] has moved past the first [k] hunks of the store,
    these are never written again. *)
Lemma step_frozen (k : nat) (st st' : scan) (line : string) :
  wf st -> step st line = inr st' ->
  k <= length (hunks st) ->
  (forall c, current_hunk st = Some c -> k <= c) ->
  k <= length (hunks st')
  /\ (forall c, current_hunk st' = Some c -> k <= c)
  /\ (forall i, i < k -> hunks st' !! i = hunks st !! i).
Proof.
  intros [Hcur Hrefs] Hstep Hk Hc.
  destruct (startswith "diff --git" line) eqn:Hd.
  - destruct (file_marker line) as [p|] eqn:Hm.
    + rewrite (step_marker _ _ _ Hm) in Hstep. injection Hstep as <-. simpl. repeat split; auto.
    + rewrite step_inert in Hstep by assumption. injection Hstep as <-. repeat split; auto.
  - destruct (startswith "@@" line && truthy (current_file st)) eqn:Hh.
    + apply andb_prop in Hh as [Hs Ht].
      destruct (hunk_new_start line) as [e|n] eqn:Hn.
      * rewrite (step_malformed st line e) in Hstep by assumption.
        injection Hstep as <-. repeat split; auto.
      * destruct (truthy_Some _ Ht) as [p [Hp Hne]].
        specialize (Hcur p Hp).
        destruct (Dict.get p (files st)) as [listed|] eqn:Hg; [| discriminate].
        rewrite (step_header st line p n listed) in Hstep by assumption.
        injection Hstep as <-. simpl. rewrite length_app. simpl.
        split; [lia |]. split; [intros c [= <-]; lia |].
        intros i Hi. apply lookup_app_l. lia.
    + rewrite step_body in Hstep by assumption. injection Hstep as <-.
      destruct (current_hunk st) as [ref|] eqn:Hr;
        [| repeat split; auto; intros c H; rewrite Hr in H; discriminate].
      simpl. rewrite length_alter. split; [exact Hk |]. split.
      * intros c [= <-]. now apply Hc.
      * intros i Hi. apply list_lookup_alter_ne. specialize (Hc ref eq_refl). lia.
Qed.

Lemma scan_frozen (k : nat) (lines : list string) (st st' : scan) :
  wf st -> scan_lines st lines = inr st' ->
  k <= length (hunks st) ->
  (forall c, current_hunk st = Some c -> k <= c) ->
  forall i, i < k -> hunks st' !! i = hunks st !! i.
Proof.
  revert st. induction lines as [|l lines IH]; intros st Hwf Hscan Hk Hc i Hi.
  - simpl in Hscan. now injection Hscan as <-.
  - simpl in Hscan. destruct (step_wf st l Hwf) as [st1 [Hstep Hwf1]].
    rewrite Hstep in Hscan. simpl in Hscan.
    destruct (step_frozen k st st1 l Hwf Hstep Hk Hc) as [Hk1 [Hc1 Hsame]].
    rewrite (IH st1 Hwf1 Hscan Hk1 Hc1 i Hi). now apply Hsame.
Qed.

Lemma kind_dropped (l : string) :
  kind_eqb (kind_of l) Dropped = startswith "\" l.
Proof.
  destruct (startswith "\" l) eqn:E.
  - destruct (prefix_inv _ _ E) as [r ->]. now destruct r.
  - unfold kind_of.
    destruct (startswith "+" l && negb (startswith "+++" l)); [reflexivity |].
    destruct (startswith "-" l && negb (startswith "---" l)); [reflexivity |].
    now rewrite E.
Qed.

(** The prefix character is all that a stored line has lost. *)
Lemma unprefix_line (l : string) :
  l = unprefix l \/ l = ("+" ++ unprefix l)%string
  \/ l = ("-" ++ unprefix l)%string.
Proof.
  unfold unprefix, kind_of.
  destruct (startswith "+" l && negb (startswith "+++" l)) eqn:Ea.
  { apply andb_prop in Ea as [Ea _]. destruct (prefix_inv _ _ Ea) as [r ->].
    right. now left. }
  destruct (startswith "-" l && negb (startswith "---" l)) eqn:Ed.
  { apply andb_prop in Ed as [Ed _]. destruct (prefix_inv _ _ Ed) as [r ->].
    right. now right. }
  destruct (negb (startswith "\" l)); now left.
Qed.

(** From a hunk header to the next one that is accepted: the lines that
    begin with the file marker move [current_file] at most, the hunk
    markers that do not parse are skipped, and every other line is filed
    in the hunk [current_hunk] refers to. *)
Lemma scan_between (between : list string) (st : scan) (k : nat) :
  truthy (current_file st) = true -> current_hunk st = Some k ->
  Forall (fun l => accepted l = false) between ->
  Forall (fun l => file_marker l <> Some "") between ->
  exists st',
    scan_lines st between = inr st'
    /\ truthy (current_file st') = true
    /\ current_hunk st' = Some k
    /\ hunks st' = alter (feed (List.filter body_line between)) k (hunks st)
    /\ (forall p, Forall (fun l => file_marker l <> Some p) between ->
                  Dict.get p (files st') = Dict.get p (files st)).
Proof.
  revert st. induction between as [|l between IH]; intros st Ht Hk Hacc Hne.
  - exists st. split; [reflexivity |]. split; [exact Ht |].
    split; [exact Hk |]. split; [| reflexivity].
    symmetry. now apply list_alter_id.
  - inversion Hacc as [|? ? Hl Hacc']; subst.
    inversion Hne as [|? ? Hm Hne']; subst.
    cbn [scan_lines List.filter]. unfold body_line at 1.
    destruct (startswith "diff --git" l) eqn:Hd.
    + cbn [negb andb].
      destruct (file_marker l) as [p|] eqn:Hp.
      * rewrite (step_marker _ _ _ Hp). cbn [bind].
        assert (Hpe : is_empty p = false)
          by (destruct p; [now elim Hm | reflexivity]).
        destruct (IH {| files := Dict.set p [] (files st);
                        hunks := hunks st;
                        current_file := Some p;
                        current_hunk := current_hunk st |})
          as [st' [Hscan [Ht' [Hk' [Hh Hf]]]]];
          [cbn; now rewrite Hpe | exact Hk | exact Hacc' | exact Hne' |].
        exists st'. repeat split; try assumption.
        intros q Hq. inversion Hq as [|? ? Hq1 Hq']; subst.
        rewrite (Hf q Hq'). cbn [files]. apply get_set_ne. congruence.
      * rewrite step_inert by assumption. cbn [bind].
        destruct (IH st Ht Hk Hacc' Hne') as [st' [Hscan [Ht' [Hk' [Hh Hf]]]]].
        exists st'. repeat split; try assumption.
        intros q Hq. inversion Hq; subst. now apply Hf.
    + destruct (startswith "@@" l) eqn:Hs; cbn [negb andb].
      * unfold accepted in Hl. rewrite Hs in Hl. cbn [andb] in Hl.
        destruct (hunk_new_start l) as [e|n] eqn:Hn; [| discriminate].
        rewrite (step_malformed st l e Hs Ht Hn). cbn [bind].
        destruct (IH st Ht Hk Hacc' Hne') as [st' [Hscan [Ht' [Hk' [Hh Hf]]]]].
        exists st'. repeat split; try assumption.
        intros q Hq. inversion Hq; subst. now apply Hf.
      * rewrite step_body; [| exact Hd | now rewrite Hs]. rewrite Hk.
        cbn [bind].
        destruct (IH {| files := files st;
                        hunks := alter (classify l) k (hunks st);
                        current_file := current_file st;
                        current_hunk := Some k |})
          as [st' [Hscan [Ht' [Hk' [Hh Hf]]]]];
          [exact Ht | reflexivity | exact Hacc' | exact Hne' |].
        exists st'. split; [exact Hscan |]. split; [exact Ht' |].
        split; [exact Hk' |]. split.
        -- rewrite Hh. cbn [hunks]. now rewrite list_alter_alter_eq.
        -- intros q Hq. inversion Hq; subst. now apply Hf.
Qed.

End BodyFacts.

(** ** The outline of the scan *)

Section OutlineFacts.

Lemma outline_st_eq (st : scan) :
  outline_st st
  = map (fun '(p, refs) => (p, map header (resolve (hunks st) refs))) (files st).
Proof.
  unfold outline_st, outline, file_diff. rewrite map_map.
  apply map_ext. now intros [p refs].
Qed.

Lemma resolve_app_store (store extra : list Hunk) (refs : list nat) :
  Forall (fun r => r < length store) refs ->
  resolve (store ++ extra) refs = resolve store refs.
Proof.
  unfold resolve. induction refs as [|r refs IH]; intros H; [reflexivity |].
  inversion H as [|? ? Hr Hrest]; subst.
  cbn [omap list_omap]. rewrite (lookup_app_l store extra r Hr).
  now rewrite (IH Hrest).
Qed.

Lemma resolve_new (store : list Hunk) (h : Hunk) :
  resolve (store ++ [h]) [length store] = [h].
Proof.
  unfold resolve. cbn [omap list_omap].
  now rewrite list_lookup_middle.
Qed.

Lemma resolve_alter_header (f : Hunk -> Hunk) (ref : nat) (store : list Hunk)
    (refs : list nat) :
  (forall h, header (f h) = header h) ->
  map header (resolve (alter f ref store) refs) = map header (resolve store refs).
Proof.
  intros Hf. unfold resolve. induction refs as [|r refs IH]; [reflexivity |].
  cbn [omap list_omap]. rewrite list_lookup_alter.
  destruct (decide (ref = r)) as [->|_].
  - destruct (store !! r) as [h|]; simpl; [| exact IH].
    now rewrite Hf, IH.
  - destruct (store !! r) as [h|]; simpl; [now rewrite IH | exact IH].
Qed.

Lemma map_values_ext {V W : Type} (f g : V -> W) (d : Dict.t V) :
  Forall (fun e => f (snd e) = g (snd e)) d ->
  map (fun '(p, v) => (p, f v)) d = map (fun '(p, v) => (p, g v)) d.
Proof.
  induction d as [|[k v] d IH]; intros H; [reflexivity |].
  inversion H as [|? ? H1 H2]; subst. simpl in *. now rewrite H1, IH.
Qed.

(** The effect of each kind of line on the outline. *)
Lemma outline_marker (st : scan) (p : string) :
  outline_st {| files := Dict.set p [] (files st); hunks := hunks st;
                current_file := Some p; current_hunk := current_hunk st |}
  = Dict.set p [] (outline_st st).
Proof.
  rewrite !outline_st_eq. simpl.
  now rewrite (set_map_values (fun refs => map header (resolve (hunks st) refs))).
Qed.

Lemma outline_header (st : scan) (p line : string) (n : Z) (listed : list nat) :
  wf st -> Dict.get p (files st) = Some listed ->
  outline_st {| files := Dict.set p (listed ++ [length (hunks st)]) (files st);
                hunks := hunks st ++ [mkHunk n line [] [] []];
                current_file := Some p;
                current_hunk := Some (length (hunks st)) |}
  = Dict.set p (default [] (Dict.get p (outline_st st)) ++ [line]) (outline_st st).
Proof.
  intros [_ Hrefs] Hg. rewrite !outline_st_eq. simpl.
  rewrite (set_map_values
             (fun refs => map header
                            (resolve (hunks st ++ [mkHunk n line [] [] []]) refs))).
  rewrite (get_map_values (fun refs => map header (resolve (hunks st) refs))), Hg.
  simpl. f_equal.
  - unfold resolve. rewrite omap_app. fold (resolve (hunks st ++ [mkHunk n line [] [] []]) listed).
    fold (resolve (hunks st ++ [mkHunk n line [] [] []]) [length (hunks st)]).
    rewrite resolve_new, resolve_app_store.
    + now rewrite map_app.
    + exact (get_Forall _ _ _ _ Hrefs Hg).
  - apply map_values_ext. eapply Forall_impl; [exact Hrefs |].
    intros [k refs] H. simpl in *. now rewrite resolve_app_store.
Qed.

Lemma outline_body (st : scan) (line : string) (ref : nat) :
  outline_st {| files := files st;
                hunks := alter (classify line) ref (hunks st);
                current_file := current_file st;
                current_hunk := current_hunk st |}
  = outline_st st.
Proof.
  rewrite !outline_st_eq. simpl. apply map_ext. intros [p refs].
  f_equal. apply resolve_alter_header. intros h. apply classify_header.
Qed.

Lemma extend_nil (cur : option string) (d : Dict.t (list string)) :
  (forall p, cur = Some p -> is_some (Dict.get p d) = true) ->
  extend cur [] d = d.
Proof.
  intros H. unfold extend. destruct cur as [p|]; [| reflexivity].
  destruct (is_empty p); [reflexivity |].
  specialize (H p eq_refl). destruct (Dict.get p d) as [v|] eqn:E; [| discriminate].
  simpl. rewrite app_nil_r. now apply set_same.
Qed.

Lemma wf_outline_current (st : scan) (p : string) :
  wf st -> current_file st = Some p ->
  is_some (Dict.get p (outline_st st)) = true.
Proof.
  intros [Hcur _] Hp. rewrite outline_st_eq.
  rewrite (get_map_values (fun refs => map header (resolve (hunks st) refs))).
  specialize (Hcur p Hp). now destruct (Dict.get p (files st)).
Qed.

(** The scan never raises, and its outline is obtained by registering the
    sections of the text one after the other, after the hunk headers that
    precede the first file marker have gone to the file that was current. *)
Lemma scan_outline (lines : list string) (st : scan) :
  wf st ->
  exists st', scan_lines st lines = inr st' /\ wf st'
    /\ outline_st st'
       = fold_left register (sections lines)
           (extend (current_file st) (section_headers lines) (outline_st st)).
Proof.
  revert st. induction lines as [|l lines IH]; intros st Hwf.
  - exists st. simpl. split; [reflexivity |]. split; [assumption |].
    symmetry. apply extend_nil. intros p. now apply wf_outline_current.
  - destruct (step_wf st l Hwf) as [st1 [Hstep Hwf1]].
    destruct (IH st1 Hwf1) as [st' [Hscan [Hwf' Hout]]].
    exists st'. simpl. rewrite Hstep. simpl.
    split; [assumption |]. split; [assumption |].
    rewrite Hout. clear Hout Hscan IH.
    destruct (startswith "diff --git" l) eqn:Hd.
    + destruct (file_marker l) as [p|] eqn:Hm; simpl.
      * rewrite (step_marker _ _ _ Hm) in Hstep. injection Hstep as <-.
        simpl. rewrite outline_marker.
        rewrite (extend_nil (current_file st))
          by (intros q; now apply wf_outline_current).
        unfold register at 2. simpl. f_equal.
        unfold extend. destruct (is_empty p); [reflexivity |].
        rewrite get_set_eq. simpl. now rewrite set_set.
      * rewrite step_inert in Hstep by assumption. injection Hstep as <-.
        assert (Ha : accepted l = false).
        { unfold accepted. destruct (startswith "@@" l) eqn:Hs; [| reflexivity].
          rewrite (hunk_marker_not_file _ Hs) in Hd. discriminate. }
        now rewrite Ha.
    + assert (Hm : file_marker l = None) by (unfold file_marker; now rewrite Hd).
      rewrite Hm. simpl.
      destruct (startswith "@@" l && truthy (current_file st)) eqn:Hh.
      * apply andb_prop in Hh as [Hs Ht].
        destruct (hunk_new_start l) as [e|n] eqn:Hn.
        -- rewrite (step_malformed st l e) in Hstep by assumption.
           injection Hstep as <-.
           unfold accepted. rewrite Hs, Hn. reflexivity.
        -- destruct (truthy_Some _ Ht) as [p [Hp Hne]].
           pose proof (wf_current _ Hwf p Hp) as Hin.
           destruct (Dict.get p (files st)) as [listed|] eqn:Hg; [| discriminate].
           rewrite (step_header st l p n listed) in Hstep by assumption.
           injection Hstep as <-. simpl.
           rewrite (outline_header st p l n listed Hwf Hg).
           unfold accepted. rewrite Hs, Hn. simpl. f_equal.
           rewrite Hp. unfold extend. rewrite Hne.
           rewrite get_set_eq. simpl. rewrite set_set.
           now rewrite <- app_assoc.
      * rewrite step_body in Hstep by assumption. injection Hstep as <-.
        assert (Hsame : outline_st
                          match current_hunk st with
                          | Some ref =>
                              {| files := files st;
                                 hunks := alter (classify l) ref (hunks st);
                                 current_file := current_file st;
                                 current_hunk := current_hunk st |}
                          | None => st
                          end = outline_st st).
        { destruct (current_hunk st); [apply outline_body | reflexivity]. }
        rewrite Hsame.
        assert (Hcf : current_file
                        match current_hunk st with
                        | Some ref =>
                            {| files := files st;
                               hunks := alter (classify l) ref (hunks st);
                               current_file := current_file st;
                               current_hunk := current_hunk st |}
                        | None => st
                        end = current_file st).
        { now destruct (current_hunk st). }
        rewrite Hcf. f_equal.
        destruct (accepted l) eqn:Ha; [| reflexivity].
        unfold accepted in Ha. apply andb_prop in Ha as [Hs _].
        rewrite Hs in Hh. simpl in Hh.
        unfold extend. destruct (current_file st) as [p|]; [| reflexivity].
        simpl in Hh. now destruct (is_empty p).
Qed.

End OutlineFacts.

(** ** Registering sections *)

Section RegisterFacts.

Lemma first_seen_from_ext (s s' l : list string) :
  (forall x, existsb (String.eqb x) s = existsb (String.eqb x) s') ->
  first_seen_from s l = first_seen_from s' l.
Proof.
  revert s s'. induction l as [|y l IH]; intros s s' H; simpl; [reflexivity |].
  rewrite <- (H y). destruct (existsb (String.eqb y) s); [now apply IH |].
  f_equal. apply IH. intros x. simpl. now rewrite H.
Qed.

Lemma keys_fold_register (secs : list (string * list string))
    (d : Dict.t (list string)) :
  Dict.keys (fold_left register secs d)
  = Dict.keys d ++ first_seen_from (Dict.keys d) (map fst secs).
Proof.
  revert d. induction secs as [|[p hs] secs IH]; intros d; simpl.
  - now rewrite app_nil_r.
  - rewrite IH. change (register d (p, hs)) with (Dict.set p hs d).
    rewrite mem_keys.
    destruct (Dict.get p d) as [v|] eqn:E; simpl.
    + rewrite keys_set_present by now rewrite E. reflexivity.
    + rewrite (keys_set_absent _ _ _ E). rewrite <- app_assoc. simpl.
      do 2 f_equal. apply first_seen_from_ext. intros x.
      rewrite existsb_app. simpl. rewrite orb_false_r. apply orb_comm.
Qed.

Lemma get_fold_register (q : string) (secs : list (string * list string))
    (d : Dict.t (list string)) :
  Dict.get q (fold_left register secs d)
  = match last (sections_of q secs) with
    | Some s => Some (snd s)
    | None => Dict.get q d
    end.
Proof.
  revert d. induction secs as [|[p hs] secs IH]; intros d; simpl; [reflexivity |].
  rewrite IH. change (register d (p, hs)) with (Dict.set p hs d).
  unfold sections_of. simpl. fold (sections_of q secs).
  destruct (String.eqb p q) eqn:E.
  - apply String.eqb_eq in E. subst p. rewrite last_cons.
    destruct (last (sections_of q secs)); [reflexivity |].
    simpl. apply get_set_eq.
  - destruct (last (sections_of q secs)); [reflexivity |].
    apply get_set_ne. intros ->. now rewrite String.eqb_refl in E.
Qed.

End RegisterFacts.

(** ** The claims about the diff parser *)

Section ParserClaims.

Lemma occursb_prefix (sep s : string) :
  String.prefix sep s = true -> occursb sep s = true.
Proof. intros H. destruct s; cbn [occursb]; now rewrite H. Qed.

Lemma occursb_false (sep s : string) : occursb sep s = false -> ~ occurs sep s.
Proof.
  intros H [pre [post ->]].
  assert (Ht : occursb sep (pre ++ sep ++ post) = true).
  { clear H. induction pre as [|c pre IH].
    - change (occursb sep (sep ++ post) = true).
      apply occursb_prefix, prefix_append.
    - change (occursb sep (String c (pre ++ sep ++ post)) = true).
      cbn [occursb]. rewrite IH. apply orb_true_r. }
  congruence.
Qed.

(** C9 (confirmed).  [parse_diff_to_files] is total over arbitrary text:
    for every input it returns a FileDiff and raises nothing.  The header
    parse raises only [ValueError] and [IndexError], which the handler
    catches, and the lookup [files[current_file]] never misses. *)
Theorem parse_total (diff_output : string) :
  (exists fd : FileDiff, parse_diff_to_files diff_output = inr fd)
  /\ (forall line e, hunk_new_start line = inl e ->
                     e = ValueError \/ e = IndexError)
  /\ (forall st line, wf st -> exists st', step st line = inr st').
Proof.
  split; [| split].
  - unfold parse_diff_to_files, parse_lines.
    destruct (scan_lines_wf (split LF diff_output) scan_init wf_init)
      as [st [-> _]].
    simpl. now exists (file_diff st).
  - exact hunk_new_start_error.
  - intros st line Hwf. destruct (step_wf st line Hwf) as [st' [H _]].
    now exists st'.
Qed.

(** Counterexample for C3, as the specification states it: the one hunk
    that parsing the example gives has not exactly ["line1"] as its
    context. *)
Lemma sample_diff_context_differs :
  exists fd h,
    parse_diff_to_files sample_diff = inr fd
    /\ Dict.get "x.py" fd = Some [h]
    /\ context h = [" line1"; ""]
    /\ context h <> ["line1"].
Proof.
  eexists. eexists.
  split; [vm_compute; reflexivity |].
  split; [vm_compute; reflexivity |].
  split; [reflexivity | discriminate].
Qed.

(** C3 (corrected).  Parsing the example yields one key "x.py" with one
    hunk: start line 1, the marker line as header, additions ["line2"],
    deletions ["oldline"], and as context the line " line1" verbatim (with
    its leading space) followed by the empty piece after the last line
    feed. *)
Theorem sample_diff_parse :
  parse_diff_to_files sample_diff
  = inr [("x.py", [mkHunk 1 "@@ -1,2 +1,3 @@" ["line2"] ["oldline"] [" line1"; ""]])].
Proof. vm_compute. reflexivity. Qed.

(** Counterexample for C5, as the specification states it: when a path
    comes back after another file, the hunk that appeared under its first
    section is no longer listed. *)
Lemma repeated_file_loses_hunks :
  exists fd hs,
    parse_diff_to_files (join LF repeated_file) = inr fd
    /\ Dict.get "x" fd = Some hs
    /\ map header hs = ["@@ -5 +5 @@"]
    /\ all_headers "x" (sections (split LF (join LF repeated_file)))
       = ["@@ -1 +1 @@"; "@@ -5 +5 @@"]
    /\ map header hs
       <> all_headers "x" (sections (split LF (join LF repeated_file))).
Proof.
  eexists. eexists.
  split; [vm_compute; reflexivity |].
  split; [vm_compute; reflexivity |].
  split; [vm_compute; reflexivity |].
  split; [vm_compute; reflexivity |].
  vm_compute. discriminate.
Qed.

(** C5 (corrected).  For every input text the parse returns a FileDiff
    whose keys are the paths of the file markers in the order of their
    first appearance, and which lists for each path, in the order of the
    text, exactly the accepted hunk headers of the last section of that
    path, one hunk for each: a marker for a path already present empties
    the list of that path and leaves the path at its place. *)
Theorem file_and_hunk_order (diff_output : string) :
  exists fd : FileDiff,
    parse_diff_to_files diff_output = inr fd
    /\ Dict.keys fd = first_seen (map fst (sections (split LF diff_output)))
    /\ forall p hs, Dict.get p fd = Some hs ->
                    map header hs = last_headers p (sections (split LF diff_output)).
Proof.
  unfold parse_diff_to_files, parse_lines.
  destruct (scan_outline (split LF diff_output) scan_init wf_init)
    as [st [-> [_ Hout]]].
  simpl. exists (file_diff st). split; [reflexivity |].
  change (extend (current_file scan_init)
            (section_headers (split LF diff_output)) (outline_st scan_init))
    with (@nil (string * list string)) in Hout.
  split.
  - transitivity (Dict.keys (outline_st st)).
    + unfold outline_st, outline. symmetry. apply keys_map_values.
    + rewrite Hout, keys_fold_register. reflexivity.
  - intros p hs Hg.
    assert (H : Dict.get p (outline_st st) = Some (map header hs)).
    { unfold outline_st, outline. rewrite (get_map_values (map header)), Hg.
      reflexivity. }
    rewrite Hout, get_fold_register in H. unfold last_headers.
    destruct (last (sections_of p (sections (split LF diff_output))));
      [now injection H | discriminate].
Qed.

(** C10 (confirmed).  On a line that begins with the file marker, the
    registered path is the text after the last " b/" of the line; when the
    line holds no " b/", no entry is started and the scan state stays as it
    was. *)
Theorem file_marker_path (st : scan) (line : string) :
  startswith "diff --git" line = true ->
  (forall pre p,
      line = (pre ++ " b/" ++ p)%string -> ~ occurs " b/" p ->
      step st line = inr {| files := Dict.set p [] (files st);
                            hunks := hunks st;
                            current_file := Some p;
                            current_hunk := current_hunk st |})
  /\ (~ occurs " b/" line -> step st line = inr st).
Proof.
  intros Hd. split.
  - intros pre p Hl Hno. apply step_marker.
    unfold file_marker. rewrite Hd. unfold split.
    destruct (split_from_last " b/" ltac:(discriminate) unbordered_b
                (String.length line) line "" pre p (le_n _) Hl Hno)
      as [Hlast Hlen].
    apply Nat.leb_le in Hlen. now rewrite Hlen.
  - intros Hno. apply step_inert; [exact Hd |].
    unfold file_marker. rewrite Hd. unfold split.
    now rewrite split_from_absent.
Qed.

(** A marker whose path holds the separator, and a marker without it. *)
Lemma file_marker_path_witness :
  startswith "diff --git" "diff --git a/p b/q b/r.py" = true
  /\ (step scan_init "diff --git a/p b/q b/r.py"
      = inr {| files := [("r.py", [])]; hunks := [];
               current_file := Some "r.py"; current_hunk := None |})
  /\ (step scan_init "diff --git" = inr scan_init).
Proof.
  split; [reflexivity |]. split.
  - apply (proj1 (file_marker_path scan_init "diff --git a/p b/q b/r.py" eq_refl)
             "diff --git a/p b/q" "r.py"); [reflexivity |].
    apply occursb_false. reflexivity.
  - apply (proj2 (file_marker_path scan_init "diff --git" eq_refl)).
    apply occursb_false. reflexivity.
Defined.

(** Counterexample for C1, as the specification states it: after the
    marker of the second file the current hunk is still the hunk of the
    first file, and the lines between that marker and the next hunk marker
    end in the context of that earlier hunk. *)
Lemma file_marker_does_not_clear_hunk :
  (exists st, scan_lines scan_init (firstn 4 two_files) = inr st
              /\ current_hunk st = Some 0)
  /\ parse_diff_to_files (join LF (firstn 4 two_files))
     = inr [("x", [mkHunk 1 "@@ -1 +1 @@" ["a"] [] []]); ("y", [])]
  /\ parse_diff_to_files (join LF two_files)
     = inr [("x", [mkHunk 1 "@@ -1 +1 @@" ["a"] []
                     ["index 1..2 100644"; "--- a/y"; "+++ b/y"]]);
            ("y", [mkHunk 4 "@@ -3 +4,2 @@" [] ["b"] []])].
Proof.
  split; [eexists; split; vm_compute; reflexivity |].
  split; vm_compute; reflexivity.
Qed.

(** C1 (corrected).  When the scan reaches a line that begins with the
    file marker, the current hunk is left as it is and no hunk changes.
    The lines between that marker and the next hunk marker are dropped
    only when no hunk has been started earlier in the text; otherwise they
    are classified into the hunk started last, also when it belongs to an
    earlier file.  A hunk is written for the last time when the next hunk
    header is accepted: whatever follows leaves it unchanged. *)
Theorem current_hunk_survives_file_marker
    (diff_output : string) (pre : list string) (marker : string)
    (between : list string) (st0 : scan) :
  split LF diff_output = pre ++ marker :: between ->
  scan_lines scan_init pre = inr st0 ->
  startswith "diff --git" marker = true ->
  Forall (fun l => body_line l = true) between ->
  exists st1,
    scan_lines scan_init (split LF diff_output) = inr st1
    /\ current_hunk st1 = current_hunk st0
    /\ hunks st1 = match current_hunk st0 with
                   | Some ref => alter (feed between) ref (hunks st0)
                   | None => hunks st0
                   end
    /\ forall hdr rest st2,
         accepted hdr = true -> truthy (current_file st1) = true ->
         scan_lines st1 (hdr :: rest) = inr st2 ->
         forall i, i < length (hunks st1) -> hunks st2 !! i = hunks st1 !! i.
Proof.
  intros -> Hpre Hm Hb.
  destruct (scan_lines_wf pre scan_init wf_init) as [st0' [Hpre' Hwf0]].
  rewrite Hpre in Hpre'. injection Hpre' as <-.
  destruct (step_wf st0 marker Hwf0) as [stm [Hstep Hwfm]].
  assert (Hkeep : current_hunk stm = current_hunk st0 /\ hunks stm = hunks st0).
  { destruct (file_marker marker) as [p|] eqn:E.
    - rewrite (step_marker _ _ _ E) in Hstep. injection Hstep as <-. now split.
    - rewrite step_inert in Hstep by assumption. injection Hstep as <-. now split. }
  destruct Hkeep as [Hc Hh].
  pose proof (scan_body between stm Hb) as Hscan.
  destruct (scan_lines_wf between stm Hwfm) as [st1 [Hscan1 Hwf1]].
  exists st1. split.
  { rewrite scan_lines_app, Hpre. simpl. rewrite Hstep. simpl. exact Hscan1. }
  rewrite Hscan in Hscan1. injection Hscan1 as Hst1.
  assert (Hc1 : current_hunk st1 = current_hunk st0).
  { rewrite <- Hst1, <- Hc. destruct (current_hunk stm) eqn:E; simpl; congruence. }
  split; [exact Hc1 |]. split.
  { rewrite <- Hst1, <- Hc, <- Hh. destruct (current_hunk stm) eqn:E; reflexivity. }
  intros hdr rest st2 Ha Ht Hscan2 i Hi.
  unfold accepted in Ha. apply andb_prop in Ha as [Hs Hn].
  destruct (hunk_new_start hdr) as [e|n] eqn:En; [discriminate |].
  destruct (truthy_Some _ Ht) as [p [Hp Hne]].
  pose proof (wf_current _ Hwf1 p Hp) as Hin.
  destruct (Dict.get p (files st1)) as [listed|] eqn:Hg; [| discriminate].
  simpl in Hscan2.
  destruct (step_wf st1 hdr Hwf1) as [sth [Hsteph Hwfh]].
  rewrite Hsteph in Hscan2. simpl in Hscan2.
  rewrite (step_header st1 hdr p n listed Hs Hp Hne En Hg) in Hsteph.
  injection Hsteph as Hsth.
  rewrite (scan_frozen (length (hunks st1)) rest sth st2 Hwfh Hscan2).
  - rewrite <- Hsth. simpl. now apply lookup_app_l.
  - rewrite <- Hsth. simpl. rewrite length_app. lia.
  - rewrite <- Hsth. simpl. intros c [= <-]. lia.
  - exact Hi.
Qed.

(** The first seven lines of [two_files]: the header lines of the second
    file end in the hunk of the first. *)
Lemma current_hunk_survives_file_marker_witness :
  exists st1,
    scan_lines scan_init (split LF (join LF (firstn 7 two_files))) = inr st1
    /\ current_hunk st1 = Some 0
    /\ hunks st1 = [mkHunk 1 "@@ -1 +1 @@" ["a"] []
                      ["index 1..2 100644"; "--- a/y"; "+++ b/y"]].
Proof.
  destruct (current_hunk_survives_file_marker
              (join LF (firstn 7 two_files))
              (firstn 3 two_files) "diff --git a/y b/y"
              ["index 1..2 100644"; "--- a/y"; "+++ b/y"]
              {| files := [("x", [0])];
                 hunks := [mkHunk 1 "@@ -1 +1 @@" ["a"] [] []];
                 current_file := Some "x";
                 current_hunk := Some 0 |}
              eq_refl eq_refl eq_refl
              ltac:(repeat constructor))
    as [st1 [H1 [H2 [H3 _]]]].
  exists st1. split; [exact H1 |]. split; [exact H2 | exact H3].
Defined.

(** A header with fewer than two tokens is not malformed: the start
    defaults to 0. *)
Lemma hunk_new_start_default (line raw : string) :
  index (split "@@" line) 1 = inr raw ->
  length (split_ws (strip raw)) <= 1 ->
  hunk_new_start line = inr 0%Z.
Proof.
  intros Hraw Hlen. unfold hunk_new_start. rewrite Hraw. simpl.
  destruct (split_ws (strip raw)) as [|p0 [|p1 ps]]; [reflexivity | reflexivity |].
  simpl in Hlen. lia.
Qed.

(** A text with one malformed hunk header before a well-formed one. *)
Lemma scan_bad_then_good (marker path bad good : string) (e : exn) (n : Z)
    (body1 body2 : list string) :
  file_marker marker = Some path -> is_empty path = false ->
  startswith "@@" bad = true -> hunk_new_start bad = inl e ->
  Forall (fun l => body_line l = true) body1 ->
  startswith "@@" good = true -> hunk_new_start good = inr n ->
  Forall (fun l => body_line l = true) body2 ->
  parse_lines (marker :: bad :: body1 ++ good :: body2)
  = inr [(path, [feed body2 (mkHunk n good [] [] [])])].
Proof.
  intros Hm Hne Hsb Hb Hb1 Hsg Hg Hb2. unfold parse_lines.
  cbn [scan_lines]. rewrite (step_marker _ _ _ Hm). cbn [bind].
  rewrite (step_malformed _ bad e); [| exact Hsb | simpl; now rewrite Hne | exact Hb].
  cbn [bind]. rewrite scan_lines_app, (scan_body body1) by exact Hb1.
  cbn [bind current_hunk scan_init scan_lines].
  rewrite (step_header _ good path n []);
    [| exact Hsg | reflexivity | exact Hne | exact Hg
     | simpl; now rewrite String.eqb_refl].
  cbn [bind]. rewrite (scan_body body2) by exact Hb2.
  cbn. rewrite String.eqb_refl. reflexivity.
Qed.

(** Counterexample for C2, as the specification states it: a hunk marker
    without range tokens adds a hunk that starts at line 0, and after a
    marker whose start is no integer the following body line goes to the
    hunk started before. *)
Lemma malformed_header_counterexamples :
  parse_diff_to_files (join LF bare_header)
  = inr [("x", [mkHunk 0 "@@" ["c"] [] []])]
  /\ hunk_new_start "@@ -1 +z @@" = inl ValueError
  /\ parse_diff_to_files (join LF bad_after_good)
     = inr [("x", [mkHunk 1 "@@ -1 +1 @@" ["a"; "b"] [] []])].
Proof. repeat split; vm_compute; reflexivity. Qed.

(** C2 (corrected).  A hunk marker line, met while a file is current,
    whose header does not parse (the start of the new-file range is no
    integer) adds no hunk and leaves the whole scan state as it was, so the
    text parses as it would without that line: the current hunk is not
    cleared, and the body lines that follow go to the hunk started before,
    or are dropped when there is none.  In particular a file section with
    one such marker followed by one well-formed hunk yields a FileDiff
    with only the well-formed hunk.  A header with fewer than two range
    tokens is not malformed: its start defaults to 0. *)
Theorem malformed_hunk_header_skipped
    (diff_output : string) (pre : list string) (bad : string)
    (rest : list string) (st0 : scan) (e : exn) :
  split LF diff_output = pre ++ bad :: rest ->
  scan_lines scan_init pre = inr st0 ->
  startswith "@@" bad = true ->
  truthy (current_file st0) = true ->
  hunk_new_start bad = inl e ->
  step st0 bad = inr st0
  /\ parse_diff_to_files diff_output = parse_lines (pre ++ rest)
  /\ (forall marker path body1 good n body2,
        pre = [marker] -> file_marker marker = Some path ->
        rest = body1 ++ good :: body2 ->
        Forall (fun l => body_line l = true) body1 ->
        startswith "@@" good = true -> hunk_new_start good = inr n ->
        Forall (fun l => body_line l = true) body2 ->
        parse_diff_to_files diff_output
        = inr [(path, [feed body2 (mkHunk n good [] [] [])])])
  /\ (forall line raw,
        index (split "@@" line) 1 = inr raw ->
        length (split_ws (strip raw)) <= 1 ->
        hunk_new_start line = inr 0%Z).
Proof.
  intros Hsplit Hpre Hs Ht He.
  assert (Hstep : step st0 bad = inr st0) by now apply (step_malformed st0 bad e).
  split; [exact Hstep |]. split; [| split].
  - unfold parse_diff_to_files, parse_lines. rewrite Hsplit.
    rewrite !scan_lines_app, Hpre. cbn [bind scan_lines]. now rewrite Hstep.
  - intros marker path body1 good n body2 -> Hm -> Hb1 Hsg Hg Hb2.
    unfold parse_diff_to_files. rewrite Hsplit.
    apply (scan_bad_then_good marker path bad good e n); try assumption.
    simpl in Hpre. rewrite (step_marker _ _ _ Hm) in Hpre.
    injection Hpre as <-. simpl in Ht. now destruct (is_empty path).
  - exact hunk_new_start_default.
Qed.

(** [bad_then_good]: only the well-formed hunk is listed. *)
Lemma malformed_hunk_header_skipped_witness :
  parse_diff_to_files (join LF bad_then_good)
  = inr [("x", [mkHunk 8 "@@ -7,2 +8,2 @@" ["c"] [] [" d"]])].
Proof.
  destruct (malformed_hunk_header_skipped
              (join LF bad_then_good)
              ["diff --git a/x b/x"] "@@ -1 +z @@"
              ["+b"; "@@ -7,2 +8,2 @@"; "+c"; " d"]
              {| files := [("x", [])]; hunks := [];
                 current_file := Some "x"; current_hunk := None |}
              ValueError eq_refl eq_refl eq_refl eq_refl eq_refl)
    as [_ [_ [H _]]].
  exact (H "diff --git a/x b/x" "x" ["+b"] "@@ -7,2 +8,2 @@" 8%Z ["+c"; " d"]
           eq_refl eq_refl eq_refl ltac:(repeat constructor) eq_refl eq_refl
           ltac:(repeat constructor)).
Defined.

(** Counterexamples for C4, as the specification states it.  For a diff
    that ends with the marker of a missing final line feed, the hunk holds
    two lines where the text has three, so no reading order of its
    collections gives the lines of the text back.  For a diff of two files,
    the hunk of the first file also holds the header lines of the second,
    so reading all it holds gives more than the lines of the hunk. *)
Lemma round_trip_fails :
  (exists h,
     parse_diff_to_files (join LF no_newline) = inr [("x", [h])]
     /\ forall order,
          reconstruct order h
          <> "@@ -1 +1 @@"
             :: map unprefix ["-old"; "+new"; "\ No newline at end of file"])
  /\ (exists h h',
        parse_diff_to_files (join LF two_files) = inr [("x", [h]); ("y", [h'])]
        /\ context h = ["index 1..2 100644"; "--- a/y"; "+++ b/y"]
        /\ forall order,
             length (reconstruct order h)
             = 1 + length (additions h) + length (deletions h)
               + length (context h) ->
             reconstruct order h <> "@@ -1 +1 @@" :: map unprefix ["+a"]).
Proof.
  split.
  - eexists. split; [vm_compute; reflexivity |].
    intros order H. apply (f_equal (@length string)) in H.
    unfold reconstruct in H. cbn [length map additions deletions context] in H.
    pose proof (weave_length order ["new"] ["old"] []) as Hl.
    cbn [length] in Hl. lia.
  - eexists. eexists. split; [vm_compute; reflexivity |].
    split; [reflexivity |].
    intros order Hlen H. rewrite H in Hlen. discriminate.
Qed.

(** C4 (corrected).  The hunk created for an accepted hunk header
    receives the lines that follow the header up to the next accepted hunk
    header or the end of the text, also across file markers (none of them
    with an empty path), other than the lines that begin with the file
    marker and the hunk markers that do not parse.  When the parse ends it
    holds, each in the order of the text, as additions the received lines
    that begin with "+" but not with "+++" and as deletions those that
    begin with "-" but not with "---", without their first character, and
    as context every other received line verbatim, the lines that begin
    with a backslash left out.  Reading the three collections back in the
    order in which the received lines were filed gives the received lines
    without the backslash lines, each up to a first "+" or "-" that was
    stripped.  When the text ends there and no file marker after the
    header names the current file again, that hunk is the last one listed
    for it. *)
Theorem hunk_lines_round_trip
    (diff_output : string) (pre : list string) (hdr : string)
    (between rest : list string) (st0 : scan) (n : Z) :
  split LF diff_output = pre ++ hdr :: between ++ rest ->
  scan_lines scan_init pre = inr st0 ->
  truthy (current_file st0) = true ->
  startswith "@@" hdr = true ->
  hunk_new_start hdr = inr n ->
  Forall (fun l => accepted l = false) between ->
  Forall (fun l => file_marker l <> Some "") between ->
  rest = [] \/ (exists hdr2 rest', rest = hdr2 :: rest' /\ accepted hdr2 = true) ->
  let received := List.filter body_line between in
  exists st h,
    scan_lines scan_init (split LF diff_output) = inr st
    /\ parse_diff_to_files diff_output = inr (file_diff st)
    /\ hunks st !! length (hunks st0) = Some h
    /\ h = mkHunk n hdr (map tail (lines_of Added received))
              (map tail (lines_of Deleted received))
              (lines_of Verbatim received)
    /\ reconstruct (map kind_of received) h
       = hdr :: map unprefix (stored received)
    /\ stored received
       = List.filter (fun l => negb (startswith "\" l)) received
    /\ Forall (fun l => l = unprefix l \/ l = ("+" ++ unprefix l)%string
                        \/ l = ("-" ++ unprefix l)%string) (stored received)
    /\ (rest = [] ->
        forall path,
          current_file st0 = Some path ->
          Forall (fun l => file_marker l <> Some path) between ->
          exists earlier,
            Dict.get path (file_diff st) = Some (earlier ++ [h])).
Proof.
  intros Hsplit Hpre Ht Hs Hn Hacc Hnamed Hrest received.
  destruct (scan_lines_wf pre scan_init wf_init) as [st0' [Hpre' Hwf0]].
  rewrite Hpre in Hpre'. injection Hpre' as <-.
  destruct (truthy_Some _ Ht) as [path [Hp Hne]].
  pose proof (wf_current _ Hwf0 path Hp) as Hin.
  destruct (Dict.get path (files st0)) as [listed|] eqn:Hg; [| discriminate].
  set (new := mkHunk n hdr [] [] []).
  set (k := length (hunks st0)).
  set (st1 := {| files := Dict.set path (listed ++ [k]) (files st0);
                 hunks := hunks st0 ++ [new];
                 current_file := Some path;
                 current_hunk := Some k |}).
  destruct (scan_between between st1 k) as [st2 [Hbetween [Ht2 [Hk2 [Hh2 Hf2]]]]];
    [cbn; now rewrite Hne | reflexivity | exact Hacc | exact Hnamed |].
  fold received in Hh2. cbn [hunks st1] in Hh2.
  set (store := alter (feed received) k (hunks st0 ++ [new])) in *.
  assert (Hscan2 : scan_lines scan_init (pre ++ hdr :: between) = inr st2).
  { rewrite scan_lines_app, Hpre. cbn [bind scan_lines].
    rewrite (step_header st0 hdr path n listed Hs Hp Hne Hn Hg). cbn [bind].
    exact Hbetween. }
  assert (Hwf2 : wf st2).
  { destruct (scan_lines_wf (pre ++ hdr :: between) scan_init wf_init)
      as [st2' [E Hwf2']].
    rewrite Hscan2 in E. now injection E as <-. }
  assert (Hk : store !! k = Some (feed received new)).
  { unfold store. rewrite list_lookup_alter_eq.
    unfold k. now rewrite list_lookup_middle. }
  assert (Hh : feed received new
               = mkHunk n hdr (map tail (lines_of Added received))
                   (map tail (lines_of Deleted received))
                   (lines_of Verbatim received)).
  { now rewrite feed_spec. }
  assert (Hall : scan_lines scan_init (split LF diff_output)
                 = scan_lines st2 rest).
  { rewrite Hsplit.
    replace (pre ++ hdr :: between ++ rest)
      with ((pre ++ hdr :: between) ++ rest)
      by now rewrite <- app_assoc.
    now rewrite scan_lines_app, Hscan2. }
  destruct (scan_lines_wf rest st2 Hwf2) as [st [Hscan Hwf]].
  exists st, (feed received new).
  split; [now rewrite Hall |].
  split; [unfold parse_diff_to_files, parse_lines; now rewrite Hall, Hscan |].
  split.
  { destruct Hrest as [-> | [hdr2 [rest' [-> Ha]]]].
    - simpl in Hscan. injection Hscan as <-. now rewrite Hh2.
    - unfold accepted in Ha. apply andb_prop in Ha as [Hs2 Hn2].
      destruct (hunk_new_start hdr2) as [e|n2] eqn:En2; [discriminate |].
      destruct (truthy_Some _ Ht2) as [path2 [Hp2 Hne2]].
      pose proof (wf_current _ Hwf2 path2 Hp2) as Hin2.
      destruct (Dict.get path2 (files st2)) as [listed2|] eqn:Hg2;
        [| discriminate].
      cbn [scan_lines] in Hscan.
      rewrite (step_header st2 hdr2 path2 n2 listed2 Hs2 Hp2 Hne2 En2 Hg2)
        in Hscan.
      cbn [bind] in Hscan.
      destruct (step_wf st2 hdr2 Hwf2) as [st3 [Hstep3 Hwf3]].
      rewrite (step_header st2 hdr2 path2 n2 listed2 Hs2 Hp2 Hne2 En2 Hg2)
        in Hstep3.
      injection Hstep3 as <-.
      assert (Hlen : length store = Datatypes.S k).
      { unfold store. rewrite length_alter, length_app. simpl. unfold k. lia. }
      rewrite (scan_frozen (Datatypes.S k) rest' _ st Hwf3 Hscan).
      + cbn [hunks]. rewrite Hh2. rewrite lookup_app_l by lia. exact Hk.
      + cbn [hunks]. rewrite Hh2, length_app. simpl. lia.
      + cbn [current_hunk hunks]. rewrite Hh2. intros c [= <-]. lia.
      + lia. }
  split; [exact Hh |]. split.
  { rewrite Hh. unfold reconstruct. cbn [header additions deletions context].
    f_equal. apply weave_lines_of. }
  split.
  { unfold stored. apply filter_ext. intros l. now rewrite kind_dropped. }
  split.
  { apply List.Forall_forall. intros l _. apply unprefix_line. }
  intros -> path' Hp' Hkeep. simpl in Hscan. injection Hscan as <-.
  rewrite Hp in Hp'. injection Hp' as <-.
  exists (resolve store listed).
  unfold file_diff.
  rewrite (get_map_values (resolve (hunks st2))), (Hf2 path Hkeep).
  cbn [files st1]. rewrite get_set_eq. cbn [option_map]. rewrite Hh2.
  unfold resolve. rewrite omap_app. f_equal.
  cbn [omap list_omap]. now rewrite Hk.
Qed.

(** [across_files]: the first hunk, with an added line that begins with
    "++" and the header lines of the next file in its context, and its
    reconstruction without the marker line. *)
Lemma hunk_lines_round_trip_witness :
  exists st h,
    parse_diff_to_files (join LF across_files) = inr (file_diff st)
    /\ hunks st !! 0 = Some h
    /\ h = mkHunk 1 "@@ -1 +1,2 @@" [] ["old"] ["+++i;"; "--- a/y"; "+++ b/y"]
    /\ reconstruct [Verbatim; Deleted; Dropped; Verbatim; Verbatim] h
       = ["@@ -1 +1,2 @@"; "+++i;"; "old"; "--- a/y"; "+++ b/y"].
Proof.
  destruct (hunk_lines_round_trip
              (join LF across_files)
              (firstn 1 across_files) "@@ -1 +1,2 @@"
              ["+++i;"; "-old"; "\ No newline at end of file";
               "diff --git a/y b/y"; "--- a/y"; "+++ b/y"]
              ["@@ -3 +4 @@"; "+b"]
              {| files := [("x", [])]; hunks := [];
                 current_file := Some "x"; current_hunk := None |}
              1%Z eq_refl eq_refl eq_refl eq_refl eq_refl
              ltac:(repeat constructor)
              ltac:(repeat constructor; discriminate)
              (or_intror (ex_intro _ _ (ex_intro _ _ (conj eq_refl eq_refl)))))
    as [st [h [_ [H1 [H2 [H3 [H4 _]]]]]]].
  exists st, h. split; [exact H1 |]. split; [exact H2 |].
  split; [exact H3 | exact H4].
Defined.

End ParserClaims.

(** ** The claims about the repository locator *)

Section LocatorClaims.

Import Locator.

Lemma rstrip_space (s : string) (c : ascii) :
  isspace c = true -> rstrip (s ++ String c "") = rstrip s.
Proof.
  intros Hc. induction s as [|a s IH]; simpl.
  - now rewrite Hc.
  - now rewrite IH.
Qed.

Lemma strip_space (s : string) (c : ascii) :
  isspace c = true -> strip (s ++ String c "") = strip s.
Proof.
  intros Hc. unfold strip. induction s as [|a s IH].
  - simpl. now rewrite Hc.
  - cbn [append lstrip]. destruct (isspace a); [exact IH |].
    change (String a (s ++ String c "")) with (String a s ++ String c "")%string.
    now apply rstrip_space.
Qed.

(** Counterexamples for C6, as the specification states it.  With HEAD
    detached, [git branch --show-current] succeeds and prints nothing, and
    the locator returns the empty text, not none.  Inside the [.git]
    directory, which is not outside the repository, [get_repo_root]
    returns none while the branch is told. *)
Lemma locator_none_counterexamples :
  get_current_branch (git (Detached "/repo")) (Some "/repo/src") = Some ""
  /\ get_current_branch (git (Detached "/repo")) (Some "/repo/src")
     <> currentBranch_spec (Detached "/repo")
  /\ get_repo_root (git_in_git_dir "feature") (Some "/repo/.git") = None
  /\ get_current_branch (git_in_git_dir "feature") (Some "/repo/.git")
     = Some "feature".
Proof. repeat split; [discriminate]. Qed.

(** C6 (corrected).  [get_repo_root] returns none exactly when its git
    command does not end with exit status 0: it fails, as git does
    outside any repository, or it runs out of time or cannot be launched;
    otherwise it returns the trimmed output.  [get_current_branch] returns
    none exactly when its git command does not end with exit status 0, and
    otherwise the trimmed output: the branch name, or the empty text (not
    none) when HEAD is detached.  Neither raises. *)
Theorem locator_outcomes
    (subprocess_run : list string -> option string -> run_outcome)
    (cwd : option string) :
  (get_repo_root subprocess_run cwd = None
   <-> forall out err,
         subprocess_run ["git"; "rev-parse"; "--show-toplevel"] cwd
         <> Completed out err 0)
  /\ (forall out err,
        subprocess_run ["git"; "rev-parse"; "--show-toplevel"] cwd
        = Completed out err 0 ->
        get_repo_root subprocess_run cwd = Some (strip out))
  /\ (get_current_branch subprocess_run cwd = None
      <-> forall out err,
            subprocess_run ["git"; "branch"; "--show-current"] cwd
            <> Completed out err 0)
  /\ (forall out err,
        subprocess_run ["git"; "branch"; "--show-current"] cwd
        = Completed out err 0 ->
        get_current_branch subprocess_run cwd = Some (strip out))
  /\ (get_repo_root (git Outside) cwd = None
      /\ get_current_branch (git Outside) cwd = None)
  /\ (forall root,
        get_repo_root (git (Detached root)) cwd = Some (strip root)
        /\ get_current_branch (git (Detached root)) cwd = Some "")
  /\ (forall root branch,
        get_repo_root (git (OnBranch root branch)) cwd = Some (strip root)
        /\ get_current_branch (git (OnBranch root branch)) cwd
           = Some (strip branch)).
Proof.
  assert (Hnone : forall argv,
             (if (exitCode (run_git_command subprocess_run argv cwd) =? 0)%Z
              then Some (strip (stdout (run_git_command subprocess_run argv cwd)))
              else None) = None
             <-> forall out err,
                   subprocess_run ("git" :: argv) cwd <> Completed out err 0).
  { intros argv. unfold run_git_command.
    destruct (subprocess_run ("git" :: argv) cwd) as [out err code| |m];
      cbn [exitCode stdout]; [| split; [discriminate | reflexivity] ..].
    destruct (Z.eqb_spec code 0) as [-> | Hc].
    - split; [discriminate |]. intros H. now elim (H out err).
    - split; [| reflexivity]. intros _ out' err' [= _ _ E]. now elim Hc. }
  assert (Hsome : forall argv out err,
             subprocess_run ("git" :: argv) cwd = Completed out err 0 ->
             (if (exitCode (run_git_command subprocess_run argv cwd) =? 0)%Z
              then Some (strip (stdout (run_git_command subprocess_run argv cwd)))
              else None) = Some (strip out)).
  { intros argv out err H. unfold run_git_command. now rewrite H. }
  split; [apply (Hnone ["rev-parse"; "--show-toplevel"]) |].
  split; [apply (Hsome ["rev-parse"; "--show-toplevel"]) |].
  split; [apply (Hnone ["branch"; "--show-current"]) |].
  split; [apply (Hsome ["branch"; "--show-current"]) |].
  split; [now split |].
  split.
  - intros root. split; [| reflexivity].
    unfold get_repo_root. cbn. f_equal. now apply strip_space.
  - intros root branch. split.
    + unfold get_repo_root. cbn. f_equal. now apply strip_space.
    + unfold get_current_branch. cbn. f_equal. now apply strip_space.
Qed.

End LocatorClaims.

(** ** The claims about the paginated export *)

Module ExportFacts.

Import ExportComments Listing.

Section Remote.

Context {S : Type}.
Variable respond : S -> string -> Response * S.










End Remote.







Section Rows.

Context {S : Type}.
Variable respond : S -> string -> Response * S.
Variable repr : JSON -> string.
Variable unhashable_slice : exn.

Lemma field_one (key : string) (fields : list (string * JSON)) :
  field [key] (Obj fields) = Dict.get key fields.
Proof. cbn [field]. now destruct (Dict.get key fields). Qed.

Lemma field_item (key : string) (v x : JSON) :
  field [key] v = Some x -> item key v = inr x.
Proof.
  destruct v as [| | | | | |fields]; try discriminate.
  rewrite field_one. unfold item, Dict.item. now intros ->.
Qed.

(** The chain [v.get(key, {}).get(key2, fallback)] on an object whose
    entry, if any, is an object. *)
Lemma get_get (key key2 : string) (fallback v : JSON) :
  object_at key v = true ->
  (let* o := get key (Obj []) v in get key2 fallback o)
  = inr (default fallback (field [key; key2] v)).
Proof.
  destruct v as [| | | | | |fields]; try discriminate.
  cbn [object_at get bind field].
  destruct (Dict.get key fields) as [[| | | | | |inner]|]; try discriminate;
    intros _; [| reflexivity].
  cbn [default]. unfold id. cbn [get]. now destruct (Dict.get key2 inner).
Qed.

Lemma get_one (key : string) (fallback : JSON) (fields : list (string * JSON)) :
  get key fallback (Obj fields)
  = inr (default fallback (field [key] (Obj fields))).
Proof. now rewrite field_one. Qed.

(** The chain raises on anything else, and nothing but
    [AttributeError]. *)
Lemma get_get_error (key key2 : string) (fallback v : JSON) :
  object_at key v = false ->
  (let* o := get key (Obj []) v in get key2 fallback o) = inl AttributeError.
Proof.
  destruct v as [| | | | | |fields]; try reflexivity.
  cbn [object_at get bind].
  destruct (Dict.get key fields) as [[| | | | | |inner]|]; try discriminate;
    intros _; reflexivity.
Qed.

Lemma flatten_flat (pr_web_url : string) (pr_id pr_title : JSON)
    (comment : PaginatedRecord) :
  flat comment = true ->
  flatten repr pr_web_url pr_id pr_title comment
  = inr (row_of repr pr_web_url pr_id pr_title comment).
Proof.
  unfold flat. intros H. apply andb_prop in H as [Hc Hi].
  destruct comment as [| | | | | |fields]; try discriminate.
  unfold flatten. rewrite (get_one "id"). cbn [bind].
  pose proof (get_get "content" "raw" (Str "") _ Hc) as Ec.
  destruct (get "content" (Obj []) (Obj fields)) as [e|content];
    [discriminate |]. cbn [bind] in Ec |- *. rewrite Ec. cbn [bind].
  pose proof (get_get "inline" "path" (Str "General comment") _ Hi) as Ep.
  pose proof (get_get "inline" "to" (Str "") _ Hi) as Et.
  destruct (get "inline" (Obj []) (Obj fields)) as [e|inline];
    [discriminate |]. cbn [bind] in Ep, Et |- *. rewrite Ep. cbn [bind].
  rewrite Et. cbn [bind].
  rewrite (get_one "created_on"), (get_one "updated_on"). reflexivity.
Qed.

Lemma flatten_not_flat (pr_web_url : string) (pr_id pr_title : JSON)
    (comment : PaginatedRecord) :
  flat comment = false ->
  flatten repr pr_web_url pr_id pr_title comment = inl AttributeError.
Proof.
  unfold flat. intros H.
  destruct comment as [| | | | | |fields]; try reflexivity.
  unfold flatten. rewrite (get_one "id"). cbn [bind].
  destruct (object_at "content" (Obj fields)) eqn:Hc.
  - cbn [andb] in H.
    pose proof (get_get "content" "raw" (Str "") _ Hc) as Ec.
    destruct (get "content" (Obj []) (Obj fields)) as [e|content];
      [discriminate |]. cbn [bind] in Ec |- *. rewrite Ec. cbn [bind].
    pose proof (get_get_error "inline" "path" (Str "General comment") _ H) as Ep.
    destruct (get "inline" (Obj []) (Obj fields)) as [e|inline];
      cbn [bind] in Ep |- *; [now injection Ep as -> | now rewrite Ep].
  - pose proof (get_get_error "content" "raw" (Str "") _ Hc) as Ec.
    destruct (get "content" (Obj []) (Obj fields)) as [e|content];
      cbn [bind] in Ec |- *; [now injection Ec as -> | now rewrite Ec].
Qed.

Lemma kept_shaped (account : string) (comment : PaginatedRecord) :
  truthy (Some account) = true -> object_at "user" comment = true ->
  kept (Some account) comment = inr (by_author account comment).
Proof.
  intros Ht Hu. unfold kept, author_id. rewrite Ht.
  rewrite (get_get "user" "account_id" (Str "") _ Hu). cbn [bind default].
  unfold by_author, differs.
  destruct (field ["user"; "account_id"] comment) as [[| | | |a| |]|];
    cbn [default]; unfold id; try reflexivity.
  - now rewrite negb_involutive.
  - destruct account; [discriminate | reflexivity].
Qed.

Lemma kept_not_shaped (account : string) (comment : PaginatedRecord) :
  truthy (Some account) = true -> object_at "user" comment = false ->
  kept (Some account) comment = inl AttributeError.
Proof.
  intros Ht Hu. unfold kept, author_id. rewrite Ht.
  now rewrite (get_get_error "user" "account_id" (Str "") _ Hu).
Qed.

Lemma kept_unfiltered (account : option string) (comment : PaginatedRecord) :
  truthy account = false -> kept account comment = inr true.
Proof. intros Ht. unfold kept. now rewrite Ht. Qed.

(** What the inner loop does with one comment. *)
Lemma kept_handled (account : option string) (comment : PaginatedRecord) :
  kept account comment
  = if truthy account
    then if object_at "user" comment
         then inr (by_author (default "" account) comment)
         else inl AttributeError
    else inr true.
Proof.
  destruct (truthy account) eqn:Ht; [| now apply kept_unfiltered].
  destruct account as [account|]; [| discriminate]. cbn [default].
  destruct (object_at "user" comment) eqn:Hu;
    [now apply kept_shaped | now apply kept_not_shaped].
Qed.

(** The rows the comments of one pull request add, for comments the
    export can handle. *)
Lemma scan_comments_handled (account : option string) (pr_web_url : string)
    (pr_id pr_title : JSON) (comments : list PaginatedRecord)
    (all_comments : list CommentRecord) :
  Forall (fun c => handled account c = true) comments ->
  scan_comments repr account pr_web_url pr_id pr_title comments all_comments
  = inr (all_comments
         ++ map (row_of repr pr_web_url pr_id pr_title)
              (List.filter (wanted account) comments)).
Proof.
  revert all_comments. induction comments as [|c comments IH];
    intros all_comments Hall; cbn [scan_comments List.filter map].
  - now rewrite app_nil_r.
  - inversion Hall as [|? ? Hc Hrest]; subst.
    rewrite kept_handled. unfold handled, wanted in *.
    destruct (truthy account).
    + unfold shaped in Hc. apply andb_prop in Hc as [Hu Hf]. rewrite Hu.
      cbn [bind]. destruct (by_author (default "" account) c).
      * rewrite (flatten_flat _ _ _ _ Hf). cbn [bind map].
        rewrite IH by exact Hrest. now rewrite <- app_assoc.
      * now apply IH.
    + cbn [bind]. rewrite (flatten_flat _ _ _ _ Hc). cbn [bind map].
      rewrite IH by exact Hrest. now rewrite <- app_assoc.
Qed.

(** A comment it cannot handle makes the inner loop raise. *)
Lemma scan_comments_raises (account : option string) (pr_web_url : string)
    (pr_id pr_title : JSON) (comments : list PaginatedRecord)
    (all_comments : list CommentRecord) :
  ~ Forall (fun c => handled account c = true) comments ->
  scan_comments repr account pr_web_url pr_id pr_title comments all_comments
  = inl AttributeError.
Proof.
  revert all_comments. induction comments as [|c comments IH];
    intros all_comments Hnot; [elim Hnot; constructor |].
  cbn [scan_comments]. rewrite kept_handled.
  assert (Hrest : handled account c = true ->
                  ~ Forall (fun c => handled account c = true) comments).
  { intros Hc H. apply Hnot. now constructor. }
  unfold handled in Hrest. unfold handled in IH.
  destruct (truthy account).
  - unfold shaped in Hrest.
    destruct (object_at "user" c); [| reflexivity]. cbn [bind andb] in *.
    destruct (by_author (default "" account) c).
    + destruct (flat c) eqn:Hf.
      * rewrite (flatten_flat _ _ _ _ Hf). cbn [bind]. now apply IH, Hrest.
      * now rewrite (flatten_not_flat _ _ _ _ Hf).
    + now apply IH, Hrest.
  - cbn [bind]. destruct (flat c) eqn:Hf.
    + rewrite (flatten_flat _ _ _ _ Hf). cbn [bind]. now apply IH, Hrest.
    + now rewrite (flatten_not_flat _ _ _ _ Hf).
Qed.

Lemma slice50_sliceable (v : JSON) :
  sliceable v = true -> exists cut, slice50 unhashable_slice v = inr cut.
Proof. destruct v; try discriminate; intros _; eexists; reflexivity. Qed.

(** Past the pull requests whose comments are fetched and handled, the
    scan goes on with their rows. *)
Lemma scan_prs_fetched (fuel : nat) (session : Session)
    (workspace repo_slug : string) (account : option string) (w : world S)
    (prs : list PaginatedRecord)
    (listing : list (JSON * JSON * list PaginatedRecord)) (w' : world S) :
  comments_fetched respond repr fuel session workspace repo_slug w prs listing w' ->
  Forall (fun entry => Forall (fun c => handled account c = true) (snd entry))
    listing ->
  forall rest all_comments,
    scan_prs respond repr unhashable_slice fuel session workspace repo_slug
      account (List.app prs rest) w all_comments
    = scan_prs respond repr unhashable_slice fuel session workspace repo_slug
        account rest w'
        (List.app all_comments
           (rows_of repr (wanted account)
              ("https://bitbucket.org/" ++ workspace ++ "/" ++ repo_slug
               ++ "/pull-requests")
              listing)).
Proof.
  induction 1 as [w | w pr prs pr_id pr_title comments w1 listing w'
                      Hid Ht Hcut Hget Hrest IH];
    intros Hall rest all_comments.
  - unfold rows_of. simpl. now rewrite app_nil_r.
  - inversion Hall as [|? ? Hc Hrest']; subst. cbn [snd] in Hc.
    cbn [List.app scan_prs].
    rewrite (field_item _ _ _ Hid), (field_item _ _ _ Ht).
    destruct (slice50_sliceable _ Hcut) as [cut ->]. rewrite Hget.
    rewrite (scan_comments_handled _ _ _ _ _ _ Hc).
    rewrite (IH Hrest'). unfold rows_of. cbn [map concat].
    now rewrite <- app_assoc.
Qed.

End Rows.

(** Counterexamples for C8, as the specification states it.  In
    [null_author] one of the two comments is by "alice", so one record is
    promised; the other comment has a null author, on which the
    export raises before it reaches the comment of "alice".  In
    [untitled_pr] the one comment of the first pull request is by "alice";
    the second pull request has no title, on which the export raises and
    returns no record. *)
Lemma ill_shaped_listing_raises :
  export_comments_to_csv play Samples.no_repr TypeError 2
    (create_session "me" "secret") (Samples.start Samples.null_author)
    "ws" "repo" (Some "alice")
  = (Raised AttributeError, mkWorld [] [] 2)
  /\ List.filter (by_author "alice")
       [Samples.orphan_comment 11 "a"; Samples.comment_by 12 (Some "alice") "b"]
     = [Samples.comment_by 12 (Some "alice") "b"]
  /\ export_comments_to_csv play Samples.no_repr TypeError 2
       (create_session "me" "secret") (Samples.start Rows.untitled_pr)
       "ws" "repo" (Some "alice")
     = (Raised KeyError, mkWorld [] [100]%Z 2)
  /\ List.filter (by_author "alice")
       [Samples.comment_by 11 (Some "alice") "a"]
     = [Samples.comment_by 11 (Some "alice") "a"].
Proof. repeat split; vm_compute; reflexivity. Qed.

(** C8 (corrected).  With the author filter set, and when every comment
    listed is an object whose ["user"], if it has one, is an object, and
    whose ["content"] and ["inline"], if the comment is by the author and
    has them, are objects, the export returns exactly the rows of the
    comments whose author identity is the filter, for the pull requests in
    listing order and, within a pull request, in the order of its comment
    pages. *)
Theorem export_filters_by_author {S : Type}
    (respond : S -> string -> Response * S) (repr : JSON -> string)
    (unhashable_slice : exn) (fuel : nat) (session : Session)
    (workspace repo_slug account : string) (w w1 w2 : world S)
    (prs : list PaginatedRecord)
    (listing : list (JSON * JSON * list PaginatedRecord)) :
  truthy (Some account) = true ->
  get_all_prs respond fuel session w workspace repo_slug = (Done prs, w1) ->
  comments_fetched respond repr fuel session workspace repo_slug w1 prs listing w2 ->
  Forall (fun entry => Forall (fun c => shaped account c = true) (snd entry))
    listing ->
  export_comments_to_csv respond repr unhashable_slice fuel session w
    workspace repo_slug (Some account)
  = (Done (rows_of repr (by_author account)
             ("https://bitbucket.org/" ++ workspace ++ "/" ++ repo_slug
              ++ "/pull-requests")
             listing),
     w2).
Proof.
  intros Ht Hprs Hfetched Hshaped. unfold export_comments_to_csv. rewrite Hprs.
  rewrite <- (app_nil_r prs).
  rewrite (scan_prs_fetched respond repr unhashable_slice fuel session
             workspace repo_slug (Some account) w1 prs listing w2 Hfetched).
  - cbn [scan_prs List.app]. unfold wanted. now rewrite Ht.
  - eapply Forall_impl; [exact Hshaped |]. intros entry He.
    eapply Forall_impl; [exact He |]. intros c Hc.
    unfold handled. now rewrite Ht.
Qed.

Lemma two_prs_fetched :
  comments_fetched play Samples.no_repr 2 (create_session "me" "secret")
    "ws" "repo"
    (mkWorld (List.tl Samples.two_prs) [] 1)
    [Samples.pull 1 "First"; Samples.pull 2 "Second"]
    [ (Int 1, Str "First",
       [Samples.comment_by 11 (Some "alice") "a";
        Samples.comment_by 12 (Some "bob") "b";
        Samples.comment_by 13 None "c"]);
      (Int 2, Str "Second",
       [Samples.comment_by 21 (Some "carol") "d";
        Samples.inline_comment_by 22 "alice" "e" "src/a.py" 12]) ]
    (mkWorld [] [100; 100]%Z 3).
Proof.
  eapply fetched_cons;
    [reflexivity | reflexivity | reflexivity | vm_compute; reflexivity |].
  eapply fetched_cons;
    [reflexivity | reflexivity | reflexivity | vm_compute; reflexivity |].
  apply fetched_nil.
Qed.

(** [two_prs]: "alice" wrote two of the five comments, the second one on
    line 12 of a file. *)
Lemma export_filters_by_author_witness :
  export_comments_to_csv play Samples.no_repr TypeError 2
    (create_session "me" "secret")
    (Samples.start Samples.two_prs) "ws" "repo" (Some "alice")
  = (Done [ mkComment (Int 1) (Str "First")
              "https://bitbucket.org/ws/repo/pull-requests/1"
              (Int 11) (Str "a") (Str "General comment") (Str "")
              (Str "2024-01-01") (Str "2024-01-02");
            mkComment (Int 2) (Str "Second")
              "https://bitbucket.org/ws/repo/pull-requests/2"
              (Int 22) (Str "e") (Str "src/a.py") (Int 12)
              (Str "2024-01-03") (Str "2024-01-04") ],
     mkWorld [] [100; 100]%Z 3).
Proof.
  exact (export_filters_by_author play Samples.no_repr TypeError 2
           (create_session "me" "secret")
           "ws" "repo" "alice" (Samples.start Samples.two_prs) _ _ _ _
           eq_refl eq_refl two_prs_fetched ltac:(repeat constructor)).
Defined.

End ExportFacts.

(** ** More facts about strings *)

Section MoreStringFacts.

Open Scope string_scope.

Lemma forall_chars_app (P : ascii -> bool) (s t : string) :
  forall_chars P (s ++ t) = forall_chars P s && forall_chars P t.
Proof.
  induction s as [|c s IH]; simpl; [reflexivity |].
  now rewrite IH, andb_assoc.
Qed.

Lemma forall_chars_impl (P Q : ascii -> bool) (s : string) :
  (forall c, P c = true -> Q c = true) ->
  forall_chars P s = true -> forall_chars Q s = true.
Proof.
  intros H. induction s as [|c s IH]; simpl; [reflexivity |].
  intros Hs. apply andb_prop in Hs as [Hc Hs].
  now rewrite (H c Hc), IH.
Qed.

Lemma prefix_LF (c : ascii) (s : string) :
  String.prefix LF (String c s) = Ascii.eqb c "010".
Proof.
  unfold LF. cbn [String.prefix].
  destruct (ascii_dec "010" c) as [<-|Hne].
  - now destruct s.
  - symmetry. apply Ascii.eqb_neq. congruence.
Qed.

(** A piece without line feed is cut at the next line feed. *)
Lemma split_from_LF_piece (x cur rest : string) :
  no_LF x = true ->
  split_from LF 0 cur (x ++ LF ++ rest) = (cur ++ x) :: split_from LF 0 "" rest.
Proof.
  revert cur. induction x as [|c x IH]; intros cur Hx.
  - rewrite append_nil_r. change ("" ++ LF ++ rest) with (LF ++ rest).
    now rewrite split_from_match.
  - simpl in Hx. apply andb_prop in Hx as [Hc Hx].
    change (String c x ++ LF ++ rest) with (String c (x ++ LF ++ rest)).
    rewrite split_from_miss.
    + rewrite IH by exact Hx. now rewrite append_assoc.
    + rewrite prefix_LF. now destruct (Ascii.eqb c "010").
Qed.

Lemma split_from_LF_last (x cur : string) :
  no_LF x = true -> split_from LF 0 cur x = [cur ++ x].
Proof.
  revert cur. induction x as [|c x IH]; intros cur Hx.
  - simpl. now rewrite append_nil_r.
  - simpl in Hx. apply andb_prop in Hx as [Hc Hx].
    rewrite split_from_miss.
    + rewrite IH by exact Hx. now rewrite append_assoc.
    + rewrite prefix_LF. now destruct (Ascii.eqb c "010").
Qed.

(** Splitting what was joined gives the lines back. *)
Lemma split_LF_join (lines : list string) :
  lines <> [] -> Forall (fun l => no_LF l = true) lines ->
  split LF (join LF lines) = lines.
Proof.
  unfold split. induction lines as [|l lines IH]; intros Hne Hall; [now elim Hne |].
  inversion Hall as [|? ? Hl Hrest]; subst.
  destruct lines as [|l' lines].
  - cbn [join]. now rewrite split_from_LF_last.
  - change (join LF (l :: l' :: lines)) with (l ++ LF ++ join LF (l' :: lines)).
    rewrite split_from_LF_piece by exact Hl.
    rewrite IH; [reflexivity | discriminate | exact Hrest].
Qed.

(** A text cut at a line feed is split part by part. *)
Lemma split_from_LF_app (a b cur : string) :
  split_from LF 0 cur (a ++ LF ++ b)
  = (split_from LF 0 cur a ++ split_from LF 0 "" b)%list.
Proof.
  revert cur. induction a as [|c a IH]; intros cur.
  - change ("" ++ LF ++ b) with (LF ++ b).
    now rewrite split_from_match.
  - change (String c a ++ LF ++ b) with (String c (a ++ LF ++ b)).
    cbn [split_from]. rewrite !prefix_LF.
    destruct (Ascii.eqb c "010").
    + cbn [String.length LF Nat.sub]. now rewrite IH.
    + apply IH.
Qed.

Lemma split_LF_app (a b : string) :
  split LF (a ++ LF ++ b) = (split LF a ++ split LF b)%list.
Proof. apply split_from_LF_app. Qed.

(** The pieces of a split hold no line feed. *)
Lemma split_from_LF_pieces (s cur : string) :
  no_LF cur = true ->
  Forall (fun l => no_LF l = true) (split_from LF 0 cur s).
Proof.
  revert cur. induction s as [|c s IH]; intros cur Hcur.
  - simpl. now constructor.
  - cbn [split_from]. rewrite prefix_LF.
    destruct (Ascii.eqb c "010") eqn:E.
    + cbn [String.length LF Nat.sub]. constructor; [exact Hcur | now apply IH].
    + apply IH. unfold no_LF. rewrite forall_chars_app. fold (no_LF cur).
      rewrite Hcur. simpl. now rewrite E.
Qed.

Lemma split_LF_pieces (s : string) :
  Forall (fun l => no_LF l = true) (split LF s).
Proof. now apply split_from_LF_pieces. Qed.

Lemma split_LF_nonempty (s : string) : split LF s <> [].
Proof.
  unfold split. generalize "". induction s as [|c s IH]; intros cur.
  - discriminate.
  - cbn [split_from]. destruct (String.prefix LF (String c s));
      [discriminate | apply IH].
Qed.

(** The first piece of a split begins with what has been collected. *)
Lemma split_from_head (sep s cur : string) :
  exists q rest, split_from sep 0 cur s = (cur ++ q) :: rest.
Proof.
  revert cur. induction s as [|c s IH]; intros cur.
  - exists "", []. simpl. now rewrite append_nil_r.
  - cbn [split_from]. destruct (String.prefix sep (String c s)).
    + exists "". eexists. now rewrite append_nil_r.
    + destruct (IH (cur ++ String c "")) as [q [rest ->]].
      exists (String c q), rest. now rewrite append_assoc.
Qed.

(** *** [strip] *)

Lemma lstrip_head (s : string) :
  lstrip s = "" \/ exists c r, lstrip s = String c r /\ isspace c = false.
Proof.
  induction s as [|c s IH]; simpl; [now left |].
  destruct (isspace c) eqn:E; [exact IH |].
  right. now exists c, s.
Qed.

Lemma rstrip_nonspace (c : ascii) (r : string) :
  isspace c = false -> rstrip (String c r) = String c (rstrip r).
Proof. intros H. simpl. now rewrite H, andb_false_r. Qed.

Lemma rstrip_idempotent (s : string) : rstrip (rstrip s) = rstrip s.
Proof.
  induction s as [|c s IH]; simpl; [reflexivity |].
  destruct (is_empty (rstrip s) && isspace c) eqn:E; [reflexivity |].
  simpl. now rewrite IH, E.
Qed.

(** A trimmed text is empty or begins with a character that is no white
    space. *)
Lemma strip_head (s : string) :
  strip s = "" \/ exists c r, strip s = String c r /\ isspace c = false.
Proof.
  unfold strip. destruct (lstrip_head s) as [-> | [c [r [-> Hc]]]].
  - now left.
  - right. exists c, (rstrip r). now rewrite rstrip_nonspace.
Qed.

Lemma strip_idempotent (s : string) : strip (strip s) = strip s.
Proof.
  destruct (strip_head s) as [-> | [c [r [E Hc]]]]; [reflexivity |].
  rewrite E. unfold strip at 1. cbn [lstrip]. rewrite Hc.
  rewrite <- E. unfold strip. apply rstrip_idempotent.
Qed.

(** *** Decimal texts *)

Lemma digits_of_uint (d : Decimal.uint) :
  forall_chars isdigit (NilEmpty.string_of_uint d) = true.
Proof. induction d; simpl; auto. Qed.

Lemma digits_of_Z (n : Z) : (0 <= n)%Z -> forall_chars isdigit (of_Z n) = true.
Proof.
  intros Hn. unfold of_Z, NilZero.string_of_int.
  destruct n as [|p|p]; [reflexivity | | lia].
  cbn [Z.to_int]. unfold NilZero.string_of_uint.
  destruct (Pos.to_uint p); try reflexivity; apply digits_of_uint.
Qed.

Lemma no_LF_spaces (n : nat) : no_LF (spaces n) = true.
Proof. induction n as [|n IH]; simpl; [reflexivity | exact IH]. Qed.

Lemma no_LF_format_4d (n : Z) : (0 <= n)%Z -> no_LF (format_4d n) = true.
Proof.
  intros Hn. unfold format_4d, no_LF. rewrite forall_chars_app.
  fold (no_LF (spaces (4 - String.length (of_Z n)))). rewrite no_LF_spaces.
  simpl. apply (forall_chars_impl isdigit); [| now apply digits_of_Z].
  intros c Hc. destruct (Ascii.eqb c "010") eqn:E; [| reflexivity].
  apply Ascii.eqb_eq in E. subst c. discriminate.
Qed.

End MoreStringFacts.

(** ** The texts the tools build *)

Local Set Warnings "-abstract-large-number".

Section ToolTexts.

Open Scope string_scope.

Lemma imap_no_LF (f : nat -> string -> string) (lines : list string) :
  (forall i x, no_LF x = true -> no_LF (f i x) = true) ->
  Forall (fun l => no_LF l = true) lines ->
  Forall (fun l => no_LF l = true) (imap f lines).
Proof.
  revert f. induction lines as [|l lines IH]; intros f Hf Hall; [constructor |].
  inversion Hall as [|? ? Hl Hrest]; subst.
  cbn [imap]. constructor; [now apply Hf |].
  apply IH; [| exact Hrest]. intros i x. apply Hf.
Qed.

Lemma no_LF_numbered_line (i : nat) (line : string) :
  no_LF line = true -> no_LF (numbered_line i line) = true.
Proof.
  intros Hl. unfold numbered_line, no_LF. rewrite !forall_chars_app.
  fold (no_LF (format_4d (Z.of_nat i + 1))). fold (no_LF line).
  rewrite no_LF_format_4d by lia. now rewrite Hl.
Qed.

(** Up to 9999 the number fills exactly four columns. *)
Lemma format_4d_width (i : nat) :
  (i < 9999)%nat -> String.length (format_4d (Z.of_nat i + 1)) = 4%nat.
Proof.
  intros Hi.
  assert (H : forallb (fun i => (String.length (format_4d (Z.of_nat i + 1)) =? 4)%nat)
                (seq 0 9999) = true) by (vm_compute; reflexivity).
  rewrite forallb_forall in H. apply Nat.eqb_eq, H, in_seq. lia.
Qed.

(** X1.  The numbered listing of [review_file] has one line for each line
    of the file, in the same order: line [i] (from 0) is the number
    [i + 1], the separator " | " and the line of the file unchanged.  For
    the first 9999 lines the number takes exactly four columns, so the
    separators are aligned; line 10000 takes five. *)
Theorem numbered_listing_lines (content : string) :
  split LF (numbered_content content) = imap numbered_line (split LF content)
  /\ (forall i line,
        split LF content !! i = Some line -> (i < 9999)%nat ->
        exists number,
          String.length number = 4%nat
          /\ split LF (numbered_content content) !! i
             = Some (number ++ " | " ++ line))
  /\ String.length (format_4d 10000) = 5%nat.
Proof.
  assert (Hsplit : split LF (numbered_content content)
                   = imap numbered_line (split LF content)).
  { unfold numbered_content. apply split_LF_join.
    - pose proof (split_LF_nonempty content) as Hne.
      destruct (split LF content); [now elim Hne | discriminate].
    - apply imap_no_LF; [exact no_LF_numbered_line | apply split_LF_pieces]. }
  split; [exact Hsplit |]. split; [| reflexivity].
  intros i line Hline Hi. exists (format_4d (Z.of_nat i + 1)).
  split; [now apply format_4d_width |].
  rewrite Hsplit, list_lookup_imap, Hline. reflexivity.
Qed.

Lemma changed_files_nonempty (stdout : string) :
  is_empty (strip stdout) = false -> changed_files stdout <> [].
Proof.
  intros Hne. unfold changed_files.
  destruct (strip_head stdout) as [E | [c [r [E Hc]]]];
    [rewrite E in Hne; discriminate |].
  rewrite E. unfold split.
  assert (Hp : String.prefix LF (String c r) = false).
  { rewrite prefix_LF. destruct (Ascii.eqb c "010") eqn:Ec; [| reflexivity].
    apply Ascii.eqb_eq in Ec. subst c. discriminate. }
  rewrite split_from_miss by exact Hp.
  destruct (split_from_head LF r ("" ++ String c "")) as [q [rest ->]].
  cbn [append List.filter].
  assert (Hkeep : is_empty (strip (String c q)) = false).
  { unfold strip. cbn [lstrip]. rewrite Hc. now rewrite rstrip_nonspace. }
  rewrite Hkeep. discriminate.
Qed.

(** X2.  The list of changed files that [get_changed_files] prints holds
    no empty name and no name with white space around it, and it is not
    empty once the output of git holds anything but white space: the
    heading never announces 0 files. *)
Theorem changed_files_are_names (stdout : string) :
  Forall (fun f => is_empty f = false /\ strip f = f) (changed_files stdout)
  /\ (is_empty (strip stdout) = false -> changed_files stdout <> []).
Proof.
  split; [| apply changed_files_nonempty].
  unfold changed_files. apply List.Forall_forall. intros f Hf.
  apply in_map_iff in Hf as [g [<- Hg]].
  apply filter_In in Hg as [_ Hg].
  split; [now destruct (is_empty (strip g)) | apply strip_idempotent].
Qed.

End ToolTexts.

(** ** Hunk headers in git's format *)

Section HeaderFacts.

Open Scope string_scope.

Lemma prefix_char (a c : ascii) (s : string) :
  String.prefix (String a "") (String c s) = Ascii.eqb c a.
Proof.
  cbn [String.prefix]. destruct (ascii_dec a c) as [<-|Hne].
  - rewrite Ascii.eqb_refl. now destruct s.
  - symmetry. apply Ascii.eqb_neq. congruence.
Qed.

(** Splitting at a character: a piece without it is cut at its next
    occurrence. *)
Lemma split_char_piece (a : ascii) (x cur rest : string) :
  forall_chars (fun c => negb (Ascii.eqb c a)) x = true ->
  split_from (String a "") 0 cur (x ++ String a "" ++ rest)
  = (cur ++ x) :: split_from (String a "") 0 "" rest.
Proof.
  revert cur. induction x as [|c x IH]; intros cur Hx.
  - rewrite append_nil_r.
    change ("" ++ String a "" ++ rest) with (String a "" ++ rest).
    now rewrite split_from_match.
  - simpl in Hx. apply andb_prop in Hx as [Hc Hx].
    change (String c x ++ String a "" ++ rest)
      with (String c (x ++ String a "" ++ rest)).
    rewrite split_from_miss.
    + rewrite IH by exact Hx. now rewrite append_assoc.
    + rewrite prefix_char. now destruct (Ascii.eqb c a).
Qed.

Lemma split_char_last (a : ascii) (x cur : string) :
  forall_chars (fun c => negb (Ascii.eqb c a)) x = true ->
  split_from (String a "") 0 cur x = [cur ++ x].
Proof.
  revert cur. induction x as [|c x IH]; intros cur Hx.
  - simpl. now rewrite append_nil_r.
  - simpl in Hx. apply andb_prop in Hx as [Hc Hx].
    rewrite split_from_miss.
    + rewrite IH by exact Hx. now rewrite append_assoc.
    + rewrite prefix_char. now destruct (Ascii.eqb c a).
Qed.

(** Splitting at "@@": a piece without "@" is cut at the next "@@". *)
Lemma split_at_piece (x cur rest : string) :
  forall_chars (fun c => negb (Ascii.eqb c "@")) x = true ->
  split_from "@@" 0 cur (x ++ "@@" ++ rest)
  = (cur ++ x) :: split_from "@@" 0 "" rest.
Proof.
  revert cur. induction x as [|c x IH]; intros cur Hx.
  - rewrite append_nil_r. change ("" ++ "@@" ++ rest) with ("@@" ++ rest).
    now rewrite split_from_match.
  - simpl in Hx. apply andb_prop in Hx as [Hc Hx].
    change (String c x ++ "@@" ++ rest) with (String c (x ++ "@@" ++ rest)).
    rewrite split_from_miss.
    + rewrite IH by exact Hx. now rewrite append_assoc.
    + cbn [String.prefix]. destruct (ascii_dec "@" c) as [<-|_]; [| reflexivity].
      discriminate.
Qed.

Lemma rstrip_nospace (w : string) :
  forall_chars (fun c => negb (isspace c)) w = true -> rstrip w = w.
Proof.
  induction w as [|c w IH]; [reflexivity |].
  simpl. intros H. apply andb_prop in H as [Hc Hw].
  rewrite (IH Hw). destruct (isspace c); [discriminate |].
  now rewrite andb_false_r.
Qed.

Lemma rstrip_keep (a w : string) :
  w <> "" -> forall_chars (fun c => negb (isspace c)) w = true ->
  rstrip (a ++ w) = a ++ w.
Proof.
  intros Hne Hw. induction a as [|x a IH].
  - now apply rstrip_nospace.
  - cbn [append rstrip]. rewrite IH.
    destruct w as [|c w]; [now elim Hne |].
    now destruct a.
Qed.

Lemma split_ws_word (w cur s : string) :
  forall_chars (fun c => negb (isspace c)) w = true ->
  split_ws_from cur (w ++ s) = split_ws_from (cur ++ w) s.
Proof.
  revert cur. induction w as [|c w IH]; intros cur Hw.
  - now rewrite append_nil_r.
  - simpl in Hw. apply andb_prop in Hw as [Hc Hw].
    cbn [append split_ws_from]. destruct (isspace c); [discriminate |].
    rewrite IH by exact Hw. now rewrite append_assoc.
Qed.

(** Two words with one space between them are the two pieces of
    [split()]. *)
Lemma split_ws_two_words (w1 w2 : string) :
  w1 <> "" -> w2 <> "" ->
  forall_chars (fun c => negb (isspace c)) w1 = true ->
  forall_chars (fun c => negb (isspace c)) w2 = true ->
  split_ws (w1 ++ " " ++ w2) = [w1; w2].
Proof.
  intros H1 H2 Hw1 Hw2. unfold split_ws.
  rewrite split_ws_word by exact Hw1.
  change (" " ++ w2) with (String " " w2). cbn [split_ws_from append].
  change (isspace " ") with true. cbn iota.
  destruct w1 as [|c1 w1]; [now elim H1 |]. cbn [is_empty].
  f_equal.
  rewrite <- (append_nil_r w2) at 1. rewrite split_ws_word by exact Hw2.
  simpl. destruct w2; [now elim H2 | reflexivity].
Qed.

(** *** [int] on decimal texts *)

Lemma digits_ok_digits (b : bool) (s : string) :
  s <> "" -> forall_chars isdigit s = true -> digits_ok b s = true.
Proof.
  revert b. induction s as [|c s IH]; intros b Hne Hs; [now elim Hne |].
  simpl in Hs. apply andb_prop in Hs as [Hc Hs].
  cbn [digits_ok]. rewrite Hc.
  destruct s as [|c' s]; [reflexivity |].
  apply IH; [discriminate | exact Hs].
Qed.

Lemma count_digits_digits (s : string) :
  forall_chars isdigit s = true -> count_digits s = String.length s.
Proof.
  induction s as [|c s IH]; [reflexivity |].
  simpl. intros Hs. apply andb_prop in Hs as [Hc Hs].
  now rewrite Hc, IH.
Qed.

Lemma digit_not_space (c : ascii) : isdigit c = true -> isspace c = false.
Proof.
  destruct c as [[|] [|] [|] [|] [|] [|] [|] [|]]; intros H;
    try reflexivity; discriminate.
Qed.

(** A text of digits is read as its decimal value. *)
Lemma py_int_digits (s : string) :
  s <> "" -> forall_chars isdigit s = true ->
  (String.length s <= int_max_str_digits)%nat ->
  py_int s = Some (digits_value 0 s).
Proof.
  intros Hne Hs Hlen.
  assert (Hnospace : forall_chars (fun c => negb (isspace c)) s = true).
  { apply (forall_chars_impl isdigit); [| exact Hs].
    intros c Hc. now rewrite (digit_not_space c Hc). }
  assert (Hstrip : strip s = s).
  { unfold strip. destruct s as [|c s]; [reflexivity |].
    cbn [lstrip]. simpl in Hnospace. apply andb_prop in Hnospace as [Hc Hrest].
    destruct (isspace c) eqn:E; [discriminate |].
    apply rstrip_nospace. simpl. now rewrite E, Hrest. }
  assert (Hun : int_unsigned s = Some (digits_value 0 s)).
  { unfold int_unsigned. rewrite (digits_ok_digits true s Hne Hs).
    rewrite (count_digits_digits s Hs).
    apply Nat.leb_le in Hlen. now rewrite Hlen. }
  unfold py_int. rewrite Hstrip.
  destruct s as [|c s]; [now elim Hne |].
  simpl in Hs. apply andb_prop in Hs as [Hc _].
  destruct c as [[|] [|] [|] [|] [|] [|] [|] [|]];
    try discriminate Hc; exact Hun.
Qed.

Lemma digits_value_uint (d : Decimal.uint) (acc : positive) :
  digits_value (Z.pos acc) (NilEmpty.string_of_uint d)
  = Z.pos (Pos.of_uint_acc d acc).
Proof.
  revert acc. induction d; intros acc;
    cbn [NilEmpty.string_of_uint digits_value Pos.of_uint_acc];
    [reflexivity | ..];
    rewrite <- IHd; f_equal;
    match goal with
    | |- context [isdigit ?c] =>
        change (isdigit c) with true;
        let v := eval vm_compute in (digit_value c) in
        change (digit_value c) with v
    end; cbn iota; lia.
Qed.

Lemma digits_value_of_uint (d : Decimal.uint) :
  digits_value 0 (NilEmpty.string_of_uint d) = Z.of_N (Pos.of_uint d).
Proof.
  induction d; cbn [NilEmpty.string_of_uint digits_value Pos.of_uint];
    [reflexivity | exact IHd | ..];
    match goal with
    | |- context [isdigit ?c] =>
        change (isdigit c) with true;
        let v := eval vm_compute in (digit_value c) in
        change (digit_value c) with v
    end; cbn iota;
    match goal with
    | |- digits_value ?a _ = _ =>
        let v := eval vm_compute in a in change a with v
    end; now rewrite digits_value_uint.
Qed.

(** [int(str(n)) = n] for a natural number. *)
Lemma digits_value_of_Z (n : Z) : (0 <= n)%Z -> digits_value 0 (of_Z n) = n.
Proof.
  intros Hn. unfold of_Z, NilZero.string_of_int.
  destruct n as [|p|p]; [reflexivity | | lia].
  cbn [Z.to_int]. pose proof (DecimalPos.Unsigned.of_to p) as Hp.
  unfold NilZero.string_of_uint.
  destruct (Pos.to_uint p) eqn:E; try discriminate Hp;
    rewrite digits_value_of_uint, Hp; reflexivity.
Qed.

Lemma of_Z_nonempty (n : Z) : (0 <= n)%Z -> of_Z n <> "".
Proof.
  intros Hn. unfold of_Z, NilZero.string_of_int.
  destruct n as [|p|p]; [discriminate | | lia].
  cbn [Z.to_int]. unfold NilZero.string_of_uint.
  destruct (Pos.to_uint p); discriminate.
Qed.

End HeaderFacts.

(** ** More about the diff parser *)

Section ParserExtras.

Lemma classify_start_line (l : string) (h : Hunk) :
  start_line (classify l h) = start_line h.
Proof.
  unfold classify.
  destruct (startswith "+" l && negb (startswith "+++" l)); [reflexivity |].
  destruct (startswith "-" l && negb (startswith "---" l)); [reflexivity |].
  now destruct (negb (startswith "\" l)).
Qed.

(** Every hunk of the store was created for a hunk marker among the lines
    [all], with the start that marker gives. *)
Lemma step_headers (all : list string) (st st' : scan) (line : string) :
  wf st -> In line all -> step st line = inr st' ->
  Forall (fun h => startswith "@@" (header h) = true
                   /\ hunk_new_start (header h) = inr (start_line h)
                   /\ In (header h) all) (hunks st) ->
  Forall (fun h => startswith "@@" (header h) = true
                   /\ hunk_new_start (header h) = inr (start_line h)
                   /\ In (header h) all) (hunks st').
Proof.
  intros Hwf Hin Hstep Hall.
  destruct (startswith "diff --git" line) eqn:Hd.
  - destruct (file_marker line) as [p|] eqn:Hm.
    + rewrite (step_marker _ _ _ Hm) in Hstep. now injection Hstep as <-.
    + rewrite step_inert in Hstep by assumption. now injection Hstep as <-.
  - destruct (startswith "@@" line && truthy (current_file st)) eqn:Hh.
    + apply andb_prop in Hh as [Hs Ht].
      destruct (hunk_new_start line) as [e|n] eqn:Hn.
      * rewrite (step_malformed st line e) in Hstep by assumption.
        now injection Hstep as <-.
      * destruct (truthy_Some _ Ht) as [p [Hp Hne]].
        pose proof (wf_current _ Hwf p Hp) as Hk.
        destruct (Dict.get p (files st)) as [listed|] eqn:Hg; [| discriminate].
        rewrite (step_header st line p n listed) in Hstep by assumption.
        injection Hstep as <-. simpl. apply Forall_app. split; [exact Hall |].
        constructor; [| constructor]. simpl. auto.
    + rewrite step_body in Hstep by assumption. injection Hstep as <-.
      destruct (current_hunk st) as [ref|]; [| exact Hall].
      simpl. apply Forall_alter; [exact Hall |].
      intros h _. now rewrite classify_header, classify_start_line.
Qed.

Lemma scan_headers (all lines : list string) (st st' : scan) :
  wf st -> (forall l, In l lines -> In l all) ->
  scan_lines st lines = inr st' ->
  Forall (fun h => startswith "@@" (header h) = true
                   /\ hunk_new_start (header h) = inr (start_line h)
                   /\ In (header h) all) (hunks st) ->
  Forall (fun h => startswith "@@" (header h) = true
                   /\ hunk_new_start (header h) = inr (start_line h)
                   /\ In (header h) all) (hunks st').
Proof.
  revert st. induction lines as [|l lines IH]; intros st Hwf Hsub Hscan Hall.
  - simpl in Hscan. now injection Hscan as <-.
  - simpl in Hscan. destruct (step_wf st l Hwf) as [st1 [Hstep Hwf1]].
    rewrite Hstep in Hscan. simpl in Hscan.
    apply (IH st1 Hwf1); [intros x Hx; apply Hsub; now right | exact Hscan |].
    apply (step_headers all st st1 l Hwf); [apply Hsub; now left | exact Hstep | exact Hall].
Qed.

(** X3.  Every hunk that [parse_diff_to_files] lists carries as header a
    line of the input that begins with the hunk marker, and its start line
    is the start that header gives: no later line changes either. *)
Theorem listed_hunks_match_their_header (diff_output : string) :
  exists fd : FileDiff,
    parse_diff_to_files diff_output = inr fd
    /\ forall p hs h,
         Dict.get p fd = Some hs -> In h hs ->
         startswith "@@" (header h) = true
         /\ hunk_new_start (header h) = inr (start_line h)
         /\ In (header h) (split LF diff_output).
Proof.
  unfold parse_diff_to_files, parse_lines.
  destruct (scan_lines_wf (split LF diff_output) scan_init wf_init)
    as [st [Hscan _]].
  rewrite Hscan. simpl. exists (file_diff st). split; [reflexivity |].
  pose proof (scan_headers (split LF diff_output) (split LF diff_output)
                scan_init st wf_init (fun l H => H) Hscan (Forall_nil_2 _))
    as Hall.
  intros p hs h Hg Hin. unfold file_diff in Hg.
  rewrite (get_map_values (resolve (hunks st))) in Hg.
  destruct (Dict.get p (files st)) as [refs|]; [| discriminate].
  injection Hg as <-. apply list_elem_of_In in Hin.
  unfold resolve in Hin. apply list_elem_of_omap in Hin as [r [_ Hr]].
  exact (Forall_lookup_1 _ _ _ _ Hall Hr).
Qed.

(** Lines that name no file leave the initial state as it is. *)
Lemma scan_preamble (pre : list string) :
  Forall (fun l => file_marker l = None) pre ->
  scan_lines scan_init pre = inr scan_init.
Proof.
  induction pre as [|l pre IH]; intros Hall; [reflexivity |].
  inversion Hall as [|? ? Hl Hrest]; subst.
  cbn [scan_lines].
  destruct (startswith "diff --git" l) eqn:Hd.
  - rewrite step_inert by assumption. simpl. now apply IH.
  - rewrite step_body; [| exact Hd | simpl; apply andb_false_r].
    simpl. now apply IH.
Qed.

(** X4.  Whatever precedes the first file marker that names a path is
    ignored: the text parses as the lines from that marker on. *)
Theorem lines_before_first_marker_ignored
    (diff_output : string) (pre rest : list string) :
  split LF diff_output = pre ++ rest ->
  Forall (fun l => file_marker l = None) pre ->
  parse_diff_to_files diff_output = parse_lines rest.
Proof.
  intros Hsplit Hpre. unfold parse_diff_to_files, parse_lines.
  now rewrite Hsplit, scan_lines_app, (scan_preamble pre Hpre).
Qed.

(** A commit message before the diff of [sample_diff]. *)
Lemma lines_before_first_marker_ignored_witness :
  parse_diff_to_files
    ("commit 1234" ++ LF ++ "@@ -9 +9 @@" ++ LF ++ "+stray" ++ LF ++ sample_diff)
  = parse_diff_to_files sample_diff.
Proof.
  exact (lines_before_first_marker_ignored
           ("commit 1234" ++ LF ++ "@@ -9 +9 @@" ++ LF ++ "+stray" ++ LF
            ++ sample_diff)
           ["commit 1234"; "@@ -9 +9 @@"; "+stray"] (split LF sample_diff)
           eq_refl ltac:(repeat constructor)).
Defined.

Lemma sections_nil (lines : list string) :
  sections lines = [] <-> Forall (fun l => file_marker l = None) lines.
Proof.
  induction lines as [|l lines IH]; simpl.
  - split; [constructor | reflexivity].
  - destruct (file_marker l) as [p|] eqn:E.
    + split; [discriminate |]. intros H. inversion H; congruence.
    + rewrite IH. split.
      * intros H. now constructor.
      * intros H. now inversion H.
Qed.


Lemma parse_lines_preamble (pre rest : list string) :
  Forall (fun l => file_marker l = None) pre ->
  parse_lines (pre ++ rest) = parse_lines rest.
Proof.
  intros Hpre. unfold parse_lines.
  now rewrite scan_lines_app, (scan_preamble pre Hpre).
Qed.

Lemma parse_lines_empty (lines : list string) :
  parse_lines lines = inr []
  <-> Forall (fun l => file_marker l = None) lines.
Proof.
  split.
  - unfold parse_lines.
    destruct (scan_outline lines scan_init wf_init) as [st [-> [_ Hout]]].
    simpl. intros [= Hfd]. apply sections_nil.
    assert (Hkeys : Dict.keys (outline_st st) = []).
    { unfold outline_st. now rewrite Hfd. }
    change (extend (current_file scan_init)
              (section_headers lines) (outline_st scan_init))
      with (@nil (string * list string)) in Hout.
    rewrite Hout, keys_fold_register in Hkeys. simpl in Hkeys.
    destruct (sections lines) as [|[p hs] secs];
      [reflexivity | discriminate].
  - intros Hall. unfold parse_lines.
    now rewrite (scan_preamble _ Hall).
Qed.

(** X5.  The parse returns the empty FileDiff exactly when no line of the
    text is a file marker that names a path; one such marker is enough for
    a key, with or without hunks. *)
Theorem parse_empty_iff_no_marker (diff_output : string) :
  parse_diff_to_files diff_output = inr []
  <-> Forall (fun l => file_marker l = None) (split LF diff_output).
Proof. apply parse_lines_empty. Qed.

Lemma sections_empty_path (lines : list string) :
  Forall (fun s => fst s = "" -> snd s = []) (sections lines).
Proof.
  induction lines as [|l lines IH]; simpl; [constructor |].
  destruct (file_marker l) as [p|]; [| exact IH].
  constructor; [| exact IH]. simpl. now intros ->.
Qed.

Lemma sections_member (lines : list string) (l p : string) :
  In l lines -> file_marker l = Some p ->
  exists hs, In (p, hs) (sections lines).
Proof.
  induction lines as [|x lines IH]; intros Hin Hm; [destruct Hin |].
  destruct Hin as [-> | Hin].
  - simpl. rewrite Hm. eexists. now left.
  - destruct (IH Hin Hm) as [hs Hhs]. simpl.
    destruct (file_marker x); exists hs; [now right | exact Hhs].
Qed.

(** X7.  A file marker whose path is empty registers the key "", and no
    hunk is ever listed under that key: an empty [current_file] starts no
    hunk. *)
Theorem empty_path_lists_no_hunk (diff_output : string) :
  exists fd : FileDiff,
    parse_diff_to_files diff_output = inr fd
    /\ (forall hs, Dict.get "" fd = Some hs -> hs = [])
    /\ (forall l, In l (split LF diff_output) -> file_marker l = Some "" ->
                  Dict.get "" fd = Some []).
Proof.
  unfold parse_diff_to_files, parse_lines.
  destruct (scan_outline (split LF diff_output) scan_init wf_init)
    as [st [-> [_ Hout]]].
  simpl. exists (file_diff st).
  change (extend (current_file scan_init)
            (section_headers (split LF diff_output)) (outline_st scan_init))
    with (@nil (string * list string)) in Hout.
  assert (Hout' : Dict.get "" (outline_st st)
                  = option_map (map header) (Dict.get "" (file_diff st))).
  { unfold outline_st, outline. apply (get_map_values (map header)). }
  rewrite Hout, get_fold_register in Hout'.
  assert (Hlast : forall sec,
             last (sections_of "" (sections (split LF diff_output))) = Some sec ->
             snd sec = []).
  { intros sec E. apply last_Some_elem_of, list_elem_of_In in E.
    unfold sections_of in E. apply filter_In in E as [Hin Heq].
    apply String.eqb_eq in Heq.
    exact (proj1 (List.Forall_forall _ _) (sections_empty_path _) sec Hin Heq). }
  split; [reflexivity |]. split.
  - intros hs Hg. rewrite Hg in Hout'.
    destruct (last (sections_of "" (sections (split LF diff_output))))
      as [sec|]; [| discriminate].
    rewrite (Hlast sec eq_refl) in Hout'. injection Hout' as H.
    now destruct hs.
  - intros l Hin Hm.
    destruct (sections_member _ l "" Hin Hm) as [hs Hhs].
    assert (Hne : sections_of "" (sections (split LF diff_output)) <> []).
    { intros E. assert (Hf : In ("", hs)
                               (sections_of "" (sections (split LF diff_output)))).
      { unfold sections_of. apply filter_In. split; [exact Hhs | reflexivity]. }
      rewrite E in Hf. destruct Hf. }
    destruct (last (sections_of "" (sections (split LF diff_output))))
      as [sec|] eqn:E.
    + rewrite (Hlast sec eq_refl) in Hout'.
      destruct (Dict.get "" (file_diff st)) as [hs'|]; [| discriminate].
      injection Hout' as H. now destruct hs'.
    + apply last_None in E. now elim Hne.
Qed.

End ParserExtras.

Section GitHeaders.

Open Scope string_scope.

Lemma word_nospace (s : string) :
  word s = true -> forall_chars (fun c => negb (isspace c)) s = true.
Proof.
  apply forall_chars_impl. intros c H. now apply andb_prop in H as [H _].
Qed.

Lemma word_no_at (s : string) :
  word s = true -> forall_chars (fun c => negb (Ascii.eqb c "@")) s = true.
Proof.
  apply forall_chars_impl. intros c H. now apply andb_prop in H as [_ H].
Qed.

Lemma digits_word (s : string) : forall_chars isdigit s = true -> word s = true.
Proof.
  apply forall_chars_impl. intros c Hc.
  rewrite (digit_not_space c Hc). simpl.
  destruct (Ascii.eqb c "@") eqn:E; [| reflexivity].
  apply Ascii.eqb_eq in E. subst c. discriminate.
Qed.

Lemma digits_no_char (a : ascii) (s : string) :
  isdigit a = false -> forall_chars isdigit s = true ->
  forall_chars (fun c => negb (Ascii.eqb c a)) s = true.
Proof.
  intros Ha. apply forall_chars_impl. intros c Hc.
  destruct (Ascii.eqb c a) eqn:E; [| reflexivity].
  apply Ascii.eqb_eq in E. subst c. congruence.
Qed.

(** X6.  For a hunk header in git's format, [@@ -old +n,count @@ rest]
    or [@@ -old +n @@ rest], the start line read from the header is [n],
    whatever follows the closing marker (as long as the decimal text of [n]
    has no more digits than [int] accepts). *)
Theorem git_header_start_line (old count rest : string) (n : Z) :
  (0 <= n)%Z ->
  (String.length (of_Z n) <= int_max_str_digits)%nat ->
  word old = true -> word count = true ->
  count = "" \/ (exists d, count = "," ++ d) ->
  hunk_new_start ("@@ -" ++ old ++ " +" ++ of_Z n ++ count ++ " @@" ++ rest)
  = inr n.
Proof.
  intros Hn Hlen Hold Hcount Hshape.
  pose proof (digits_of_Z n Hn) as Hdig.
  pose proof (of_Z_nonempty n Hn) as Hne.
  set (digits := of_Z n) in *.
  set (w1 := "-" ++ old).
  set (w2 := "+" ++ digits ++ count).
  assert (Hline : "@@ -" ++ old ++ " +" ++ digits ++ count ++ " @@" ++ rest
                  = "@@" ++ (" " ++ w1 ++ " " ++ w2 ++ " ") ++ "@@" ++ rest).
  { unfold w1, w2. cbn [append]. do 4 f_equal.
    rewrite !append_assoc. cbn [append]. do 2 f_equal.
    rewrite !append_assoc. reflexivity. }
  assert (Hw1 : word w1 = true) by (unfold w1; simpl; exact Hold).
  assert (Hw2 : word w2 = true).
  { unfold w2, word. cbn [append forall_chars]. rewrite forall_chars_app.
    fold (word digits). fold (word count).
    now rewrite (digits_word digits Hdig), Hcount. }
  assert (Hmid : forall_chars (fun c => negb (Ascii.eqb c "@"))
                   (" " ++ w1 ++ " " ++ w2 ++ " ") = true).
  { cbn [append forall_chars]. rewrite !forall_chars_app.
    rewrite (word_no_at w1 Hw1). cbn [append forall_chars].
    rewrite forall_chars_app, (word_no_at w2 Hw2). reflexivity. }
  unfold hunk_new_start. rewrite Hline. unfold split.
  rewrite split_from_match by discriminate.
  rewrite (split_at_piece _ "" rest Hmid).
  cbn [index lookup list_lookup bind].
  assert (Hstrip : strip ("" ++ " " ++ w1 ++ " " ++ w2 ++ " ")
                   = w1 ++ " " ++ w2).
  { unfold strip.
    assert (E1 : "" ++ " " ++ w1 ++ " " ++ w2 ++ " "
                 = String " " (String "-" (old ++ String " " (w2 ++ " "))))
      by reflexivity.
    rewrite E1.
    assert (E2 : lstrip (String " " (String "-" (old ++ String " " (w2 ++ " "))))
                 = String "-" (old ++ String " " (w2 ++ " ")))
      by reflexivity.
    rewrite E2.
    assert (E3 : String "-" (old ++ String " " (w2 ++ " "))
                 = ((w1 ++ " ") ++ w2) ++ String " " "").
    { unfold w1. now rewrite !append_assoc. }
    rewrite E3, rstrip_space by reflexivity.
    rewrite rstrip_keep;
      [now rewrite append_assoc | unfold w2; discriminate
       | now apply word_nospace]. }
  rewrite Hstrip.
  rewrite split_ws_two_words;
    [| unfold w1; discriminate | unfold w2; discriminate
     | now apply word_nospace | now apply word_nospace].
  cbn [length Nat.ltb Nat.leb index lookup list_lookup bind].
  assert (Hfirst : index (split_from "," 0 "" w2) 0 = inr ("+" ++ digits)).
  { assert (Hnc : forall_chars (fun c => negb (Ascii.eqb c ",")) ("+" ++ digits)
                  = true).
    { cbn [append forall_chars]. rewrite (digits_no_char "," digits); auto. }
    destruct Hshape as [-> | [d ->]].
    - unfold w2. rewrite append_nil_r. now rewrite split_char_last.
    - unfold w2.
      replace ("+" ++ digits ++ "," ++ d) with (("+" ++ digits) ++ "," ++ d)
        by now rewrite append_assoc.
      now rewrite (split_char_piece "," _ "" d Hnc). }
  rewrite Hfirst. cbn [bind].
  assert (Hrep : replace "+" "" ("+" ++ digits) = digits).
  { unfold replace, split.
    change ("+" ++ digits) with ("" ++ "+" ++ digits).
    rewrite (split_char_piece "+" "" "" digits eq_refl).
    rewrite split_char_last by (apply digits_no_char; auto).
    reflexivity. }
  rewrite Hrep. unfold int.
  rewrite (py_int_digits digits Hne Hdig Hlen).
  unfold digits. now rewrite digits_value_of_Z.
Qed.

(** The header of a function's hunk, as git prints it. *)
Lemma git_header_start_line_witness :
  hunk_new_start "@@ -214,50 +230,52 @@ def parse_diff_to_files(diff_output):"
  = inr 230%Z.
Proof.
  exact (git_header_start_line "214,50" ",52"
           " def parse_diff_to_files(diff_output):" 230
           ltac:(lia) ltac:(vm_compute; lia) eq_refl eq_refl
           (or_intror (ex_intro _ "52" eq_refl))).
Defined.

End GitHeaders.

(** ** The claims about the tools of the server *)

Module ToolFacts.

Import Locator Tools.

Local Open Scope string_scope.

Lemma occursb_complete (sep s : string) : occurs sep s -> occursb sep s = true.
Proof.
  intros [pre [post ->]]. induction pre as [|c pre IH].
  - change (occursb sep (sep ++ post) = true).
    apply occursb_prefix, prefix_append.
  - change (occursb sep (String c (pre ++ sep ++ post)) = true).
    cbn [occursb]. rewrite IH. apply orb_true_r.
Qed.

Lemma occursb_sound (sep s : string) : occursb sep s = true -> occurs sep s.
Proof.
  induction s as [|c s IH]; cbn [occursb].
  - intros H. destruct (prefix_inv _ _ H) as [r Hr]. now exists "", r.
  - intros H. apply orb_prop in H as [H | H].
    + destruct (prefix_inv _ _ H) as [r Hr]. now exists "", r.
    + destruct (IH H) as [pre [post ->]]. now exists (String c pre), post.
Qed.

(** What a text contains, a text around it contains. *)
Lemma contains_app (sub a s b : string) :
  contains sub s = true -> contains sub (a ++ s ++ b) = true.
Proof.
  unfold contains. intros H. apply occursb_complete.
  destruct (occursb_sound _ _ H) as [pre [post ->]].
  exists (a ++ pre), (post ++ b). now rewrite !append_assoc.
Qed.

Lemma join_cons (sep x : string) (rest : list string) :
  rest <> [] -> join sep (x :: rest) = x ++ sep ++ join sep rest.
Proof. destruct rest; [intros H; now elim H | reflexivity]. Qed.

Lemma contains_join (sub sep x : string) (l : list string) :
  In x l -> contains sub x = true -> contains sub (join sep l) = true.
Proof.
  intros Hin Hx. induction l as [|y l IH]; [destruct Hin |].
  destruct l as [|z l].
  - destruct Hin as [-> | []]. exact Hx.
  - rewrite join_cons by discriminate. destruct Hin as [-> | Hin].
    + rewrite <- (append_nil_r (x ++ sep ++ join sep (z :: l))).
      rewrite append_assoc. apply (contains_app sub "" x). exact Hx.
    + rewrite <- (append_nil_r (join sep (z :: l))).
      rewrite <- append_assoc. apply contains_app. now apply IH.
Qed.

Lemma no_LF_substring (n : nat) (s : string) :
  no_LF s = true -> no_LF (String.substring 0 n s) = true.
Proof.
  revert s. induction n as [|n IH]; intros s Hs.
  - now destruct s.
  - destruct s as [|c s]; [reflexivity |].
    unfold no_LF in *. cbn [forall_chars] in Hs.
    apply andb_prop in Hs as [Hc Hs].
    cbn [String.substring forall_chars]. rewrite Hc. now apply IH.
Qed.

Lemma split_LF_cons (x : string) (rest : list string) :
  rest <> [] -> no_LF x = true ->
  split LF (join LF (x :: rest)) = x :: split LF (join LF rest).
Proof.
  intros Hne Hx. rewrite join_cons by exact Hne. unfold split.
  now rewrite split_from_LF_piece.
Qed.

Section Env.

Variable subprocess_run : list string -> option string -> run_outcome.
Variable process_cwd : string.
Variable path_join : string -> string -> string.
Variable path_exists : string -> bool.
Variable is_absolute : string -> bool.
Variable read_file : string -> read_outcome.
Variable REVIEWER_PERSONA : string.

Lemma or_else_idempotent (working_directory : option string) :
  or_else (Some (or_else working_directory process_cwd)) process_cwd
  = or_else working_directory process_cwd.
Proof.
  unfold or_else. destruct working_directory as [[|c s]|]; simpl;
    try reflexivity; now destruct process_cwd.
Qed.

(** X8.  [get_branch_diff] answers with a text that begins with "Error"
    exactly when the current branch cannot be told (the command failed or
    printed nothing), or the merge base or the diff command failed; an
    empty diff is not reported as an error. *)
Theorem branch_diff_error_iff (base_branch file_filter : string)
    (working_directory : option string) :
  let cwd := or_else working_directory process_cwd in
  let branch := get_current_branch subprocess_run (Some cwd) in
  let base := run_git_command subprocess_run
                ["merge-base"; base_branch; "HEAD"] (Some cwd) in
  let diff := run_git_command subprocess_run
                ["diff"; strip (stdout base); "HEAD"; "--"; file_filter]
                (Some cwd) in
  startswith "Error"
    (get_branch_diff subprocess_run process_cwd base_branch file_filter
       working_directory) = true
  <-> (truthy branch = false \/ exitCode base <> 0%Z \/ exitCode diff <> 0%Z).
Proof.
  intros cwd branch base diff. unfold get_branch_diff.
  fold cwd. fold branch. fold base. fold diff.
  destruct (truthy branch) eqn:Hb; cbn [negb].
  2: { split; [now left | reflexivity]. }
  destruct (exitCode base =? 0)%Z eqn:Hm; cbn [negb].
  2: { apply Z.eqb_neq in Hm. split; [intros _; right; now left | reflexivity]. }
  destruct (exitCode diff =? 0)%Z eqn:Hd; cbn [negb].
  2: { apply Z.eqb_neq in Hd. split; [intros _; right; now right | reflexivity]. }
  apply Z.eqb_eq in Hm, Hd.
  split.
  - destruct (is_empty (strip (stdout diff))); discriminate.
  - intros [H | [H | H]]; [discriminate | now elim H | now elim H].
Qed.

(** X9.  Outside a repository and on a detached HEAD alike, [review_diff]
    answers that the directory is no git repository: with HEAD detached
    the branch name is empty, which the tool reads as no branch. *)
Theorem review_diff_without_branch (base_branch : string)
    (working_directory : option string) (focus_areas : string)
    (persona_file : option string) (w : worktree) :
  (forall root branch, w <> OnBranch root branch) ->
  review_diff (git w) process_cwd path_join path_exists is_absolute read_file
    REVIEWER_PERSONA base_branch working_directory focus_areas persona_file
  = inr not_a_repo_message.
Proof.
  intros Hw. unfold review_diff, get_branch_diff.
  destruct w as [|root|root branch]; [reflexivity | reflexivity |].
  now elim (Hw root branch).
Qed.

(** X10.  When the diff itself holds the words "No changes found" (in an
    added line, say), [review_diff] hands back the output of
    [get_branch_diff] and builds no review prompt. *)
Theorem review_diff_with_the_phrase (base_branch : string)
    (working_directory : option string) (focus_areas : string)
    (persona_file : option string) :
  let cwd := or_else working_directory process_cwd in
  let base := run_git_command subprocess_run
                ["merge-base"; base_branch; "HEAD"] (Some cwd) in
  let diff := run_git_command subprocess_run
                ["diff"; strip (stdout base); "HEAD"; "--"; "*.py"] (Some cwd) in
  let diff_result :=
    get_branch_diff subprocess_run process_cwd base_branch "*.py" (Some cwd) in
  truthy (get_current_branch subprocess_run (Some cwd)) = true ->
  exitCode base = 0%Z -> exitCode diff = 0%Z ->
  contains "No changes found" (stdout diff) = true ->
  review_diff subprocess_run process_cwd path_join path_exists is_absolute
    read_file REVIEWER_PERSONA base_branch working_directory focus_areas
    persona_file
  = inr diff_result
  /\ forall persona,
       diff_result <> review_prompt persona focus_areas diff_result.
Proof.
  intros cwd base diff diff_result Hb Hm Hd Hphrase.
  assert (Hshape :
            diff_result
            = (if is_empty (strip (stdout diff))
               then "No changes found in " ++ "*.py" ++ " files between "
                    ++ base_branch ++ " and "
                    ++ default "" (get_current_branch subprocess_run (Some cwd))
                    ++ "."
               else branch_diff_summary
                      (default "" (get_current_branch subprocess_run (Some cwd)))
                      base_branch (strip (stdout base)) "*.py" (stdout diff))).
  { pose proof (or_else_idempotent working_directory) as Hcwd.
    fold cwd in Hcwd. unfold diff_result, get_branch_diff.
    rewrite Hcwd, Hb. cbn [negb]. fold base. rewrite Hm.
    cbn [Z.eqb negb]. fold diff. rewrite Hd. reflexivity. }
  assert (Hcontains : contains "No changes found" diff_result = true).
  { rewrite Hshape. destruct (is_empty (strip (stdout diff))).
    - reflexivity.
    - unfold branch_diff_summary.
      apply (contains_join _ _ (stdout diff)); [| exact Hphrase].
      simpl. tauto. }
  split.
  - unfold review_diff. fold cwd. fold diff_result.
    rewrite Hcontains. now rewrite orb_true_r.
  - intros persona. rewrite Hshape at 1.
    destruct (is_empty (strip (stdout diff))); discriminate.
Qed.

Lemma summary_lines (cb bb mb ff out : string) :
  no_LF cb = true -> no_LF bb = true -> no_LF mb = true -> no_LF ff = true ->
  split LF (branch_diff_summary cb bb mb ff out)
  = List.app
      [ "## Branch Diff Summary"; "";
        "**Current Branch:** " ++ cb;
        "**Base Branch:** " ++ bb;
        "**Merge Base:** " ++ String.substring 0 8 mb;
        "**Filter:** " ++ ff;
        ""; "---"; "" ]
      (List.app (split LF out) [""]).
Proof.
  intros Hcb Hbb Hmb Hff. apply (no_LF_substring 8) in Hmb.
  unfold branch_diff_summary.
  do 9 (rewrite split_LF_cons
          by first [discriminate | reflexivity | simpl; assumption]).
  cbn [app]. do 9 f_equal.
  change (join LF [out; ""]) with (out ++ LF ++ "").
  apply split_LF_app.
Qed.

Lemma summary_lines_name_no_file (cb bb mb ff : string) :
  Forall (fun l => file_marker l = None)
    [ "## Branch Diff Summary"; "";
      "**Current Branch:** " ++ cb;
      "**Base Branch:** " ++ bb;
      "**Merge Base:** " ++ String.substring 0 8 mb;
      "**Filter:** " ++ ff;
      ""; "---"; "" ].
Proof. repeat constructor. Qed.

(** X11.  The summary that [get_branch_diff] puts before the diff does not
    reach the parse of [review_diff]: the text parses as the diff output
    followed by one line feed, the closing line of the summary. *)
Theorem summary_header_is_ignored (cb bb mb ff out : string) :
  no_LF cb = true -> no_LF bb = true -> no_LF mb = true -> no_LF ff = true ->
  parse_diff_to_files (branch_diff_summary cb bb mb ff out)
  = parse_diff_to_files (out ++ LF).
Proof.
  intros Hcb Hbb Hmb Hff. unfold parse_diff_to_files.
  rewrite summary_lines by assumption.
  rewrite parse_lines_preamble by apply summary_lines_name_no_file.
  f_equal. symmetry. apply (split_LF_app out "").
Qed.


(** X13.  What the two locators return is trimmed, and a command that runs
    out of time or cannot be launched leaves both without a result. *)
Theorem locator_results_trimmed (cwd : option string) :
  (forall root, get_repo_root subprocess_run cwd = Some root ->
                strip root = root)
  /\ (forall branch, get_current_branch subprocess_run cwd = Some branch ->
                     strip branch = branch)
  /\ ((forall out err code,
         subprocess_run ["git"; "rev-parse"; "--show-toplevel"] cwd
         <> Completed out err code) ->
      get_repo_root subprocess_run cwd = None)
  /\ ((forall out err code,
         subprocess_run ["git"; "branch"; "--show-current"] cwd
         <> Completed out err code) ->
      get_current_branch subprocess_run cwd = None).
Proof.
  unfold get_repo_root, get_current_branch, run_git_command.
  cbn [app].
  repeat split.
  - intros root.
    destruct (subprocess_run ["git"; "rev-parse"; "--show-toplevel"] cwd);
      cbn [exitCode stdout]; try discriminate.
    destruct (returncode =? 0)%Z; [| discriminate].
    intros [= <-]. apply strip_idempotent.
  - intros branch.
    destruct (subprocess_run ["git"; "branch"; "--show-current"] cwd);
      cbn [exitCode stdout]; try discriminate.
    destruct (returncode =? 0)%Z; [| discriminate].
    intros [= <-]. apply strip_idempotent.
  - intros H.
    destruct (subprocess_run ["git"; "rev-parse"; "--show-toplevel"] cwd)
      as [out err code| |m]; [now elim (H out err code) | reflexivity ..].
  - intros H.
    destruct (subprocess_run ["git"; "branch"; "--show-current"] cwd)
      as [out err code| |m]; [now elim (H out err code) | reflexivity ..].
Qed.

(** X14.  [load_persona] with a persona file given consults neither git
    nor the default location; and whenever no file can be read, for want
    of a file or of a readable one, it answers with the embedded
    persona. *)
Theorem load_persona_fallback (persona_file working_directory : option string) :
  (truthy persona_file = true ->
   forall other_run other_cwd other_exists,
     load_persona subprocess_run process_cwd path_join path_exists is_absolute
       read_file REVIEWER_PERSONA persona_file working_directory
     = load_persona other_run other_cwd path_join other_exists is_absolute
         read_file REVIEWER_PERSONA persona_file working_directory)
  /\ ((forall p text, read_file p <> Content text) ->
      load_persona subprocess_run process_cwd path_join path_exists is_absolute
        read_file REVIEWER_PERSONA persona_file working_directory
      = REVIEWER_PERSONA)
  /\ (truthy persona_file = false ->
      get_repo_root subprocess_run
        (Some (or_else working_directory process_cwd)) = None ->
      load_persona subprocess_run process_cwd path_join path_exists is_absolute
        read_file REVIEWER_PERSONA persona_file working_directory
      = REVIEWER_PERSONA).
Proof.
  split; [| split].
  - intros Hp other_run other_cwd other_exists. unfold load_persona.
    now rewrite Hp.
  - intros Hread. unfold load_persona.
    match goal with
    | |- (if truthy ?pf then _ else _) = _ => destruct (truthy pf)
    end; [| reflexivity].
    match goal with
    | |- match read_file ?p with _ => _ end = _ =>
        destruct (read_file p) as [text| |m] eqn:E
    end; [now elim (Hread _ _ E) | reflexivity | reflexivity].
  - intros Hp Hroot. unfold load_persona. rewrite Hp, Hroot. cbn [truthy].
    now rewrite Hp.
Qed.

(** X15.  [review_file] answers with a text that begins with "Error"
    exactly when the file, resolved against the working directory unless
    its path is absolute, cannot be read: the listing of a file whose own
    text begins with "Error" is no error. *)
Theorem review_file_error_iff (file_path : string)
    (working_directory persona_file : option string) :
  let cwd := or_else working_directory process_cwd in
  let resolved :=
    if is_absolute file_path then file_path else path_join cwd file_path in
  startswith "Error"
    (review_file subprocess_run process_cwd path_join path_exists is_absolute
       read_file REVIEWER_PERSONA file_path working_directory persona_file)
  = true
  <-> forall text, read_file resolved <> Content text.
Proof.
  intros cwd resolved. unfold review_file. fold cwd.
  replace (if negb (is_absolute file_path)
           then path_join cwd file_path else file_path)
    with resolved by (unfold resolved; now destruct (is_absolute file_path)).
  destruct (read_file resolved) as [text| |m].
  - split; [discriminate |]. intros H. now elim (H text).
  - split; [discriminate | reflexivity].
  - split; [discriminate | reflexivity].
Qed.

Lemma forall_chars_lstrip (P : ascii -> bool) (s : string) :
  forall_chars P s = true -> forall_chars P (lstrip s) = true.
Proof.
  induction s as [|c s IH]; intros H; [reflexivity |].
  cbn [lstrip]. destruct (isspace c); [| exact H].
  cbn [forall_chars] in H. apply andb_prop in H as [_ H]. now apply IH.
Qed.

Lemma forall_chars_rstrip (P : ascii -> bool) (s : string) :
  forall_chars P s = true -> forall_chars P (rstrip s) = true.
Proof.
  induction s as [|c s IH]; intros H; [reflexivity |].
  cbn [forall_chars] in H. apply andb_prop in H as [Hc H].
  cbn [rstrip]. destruct (is_empty (rstrip s) && isspace c); [reflexivity |].
  cbn [forall_chars]. now rewrite Hc, IH.
Qed.

Lemma no_LF_strip (s : string) : no_LF s = true -> no_LF (strip s) = true.
Proof.
  intros H. unfold strip, no_LF.
  now apply forall_chars_rstrip, forall_chars_lstrip.
Qed.

Lemma no_LF_of_Z (n : Z) : (0 <= n)%Z -> no_LF (of_Z n) = true.
Proof.
  intros Hn. apply (forall_chars_impl isdigit); [| now apply digits_of_Z].
  intros c Hc. destruct (Ascii.eqb c "010") eqn:E; [| reflexivity].
  apply Ascii.eqb_eq in E. subst c. discriminate.
Qed.

Lemma changed_files_no_LF (out : string) :
  Forall (fun f => no_LF f = true) (changed_files out).
Proof.
  unfold changed_files. apply List.Forall_forall. intros f Hf.
  apply in_map_iff in Hf as [piece [<- Hpiece]].
  apply filter_In in Hpiece as [Hpiece _].
  apply no_LF_strip.
  exact (proj1 (List.Forall_forall _ _) (split_LF_pieces _) piece Hpiece).
Qed.

(** X16.  The report of [get_changed_files], line by line: the header
    counts the names, one bullet line follows for each name of the name
    listing, blank lines left out and each name trimmed, and the
    statistics are quoted whatever the exit status of their command. *)
Theorem changed_files_report (base_branch file_filter : string)
    (working_directory : option string) :
  let cwd := or_else working_directory process_cwd in
  let base := run_git_command subprocess_run
                ["merge-base"; base_branch; "HEAD"] (Some cwd) in
  let names := run_git_command subprocess_run
                 ["diff"; "--stat"; "--name-only"; strip (stdout base); "HEAD";
                  "--"; file_filter] (Some cwd) in
  let stat := run_git_command subprocess_run
                ["diff"; "--stat"; strip (stdout base); "HEAD"; "--";
                 file_filter] (Some cwd) in
  let files := changed_files (stdout names) in
  exitCode base = 0%Z -> exitCode names = 0%Z ->
  is_empty (strip (stdout names)) = false ->
  files <> []
  /\ split LF (get_changed_files subprocess_run process_cwd base_branch
                 file_filter working_directory)
     = List.app
         [ "## Changed Files (" ++ of_Z (Z.of_nat (length files)) ++ " files)";
           ""; "### Files:" ]
         (List.app (map (fun f => "- `" ++ f ++ "`") files)
            (List.app [ ""; "### Statistics:"; "```" ]
               (List.app (split LF (stdout stat)) [ "```"; "" ]))).
Proof.
  intros cwd base names stat files Hb Hn He.
  assert (Hne : files <> []) by now apply changed_files_nonempty.
  split; [exact Hne |].
  unfold get_changed_files. fold cwd. fold base. rewrite Hb.
  cbn [Z.eqb negb]. fold names. rewrite Hn. cbn [Z.eqb negb]. rewrite He.
  fold files. fold stat.
  assert (Hcount : no_LF ("## Changed Files (" ++ of_Z (Z.of_nat (length files))
                          ++ " files)") = true).
  { unfold no_LF. rewrite !forall_chars_app.
    fold (no_LF (of_Z (Z.of_nat (length files)))).
    rewrite no_LF_of_Z by lia. reflexivity. }
  do 3 (rewrite split_LF_cons
          by first [discriminate | reflexivity | exact Hcount]).
  cbn [app]. do 3 f_equal.
  rewrite join_cons by discriminate. rewrite split_LF_app.
  rewrite split_LF_join.
  2: { intros E. apply map_eq_nil in E. now elim Hne. }
  2: { apply List.Forall_forall. intros b Hin.
       apply in_map_iff in Hin as [f [<- Hf]].
       pose proof (proj1 (List.Forall_forall _ _)
                     (changed_files_no_LF (stdout names)) f Hf) as Hnf.
       unfold no_LF in *. rewrite !forall_chars_app, Hnf. reflexivity. }
  f_equal.
  do 3 (rewrite split_LF_cons by first [discriminate | reflexivity]).
  cbn [app]. do 3 f_equal.
  rewrite join_cons by discriminate. now rewrite split_LF_app.
Qed.

(** X20.  With no persona file given, [get_persona] names the embedded
    default as the source also when the persona it shows was read from the
    default file of the repository. *)
Theorem get_persona_source_label (persona_file working_directory : option string)
    (root text : string) :
  let cwd := or_else working_directory process_cwd in
  let default_path := path_join root DEFAULT_PERSONA_PATH in
  truthy persona_file = false ->
  get_repo_root subprocess_run (Some cwd) = Some root ->
  is_empty root = false ->
  path_exists default_path = true ->
  is_empty default_path = false ->
  is_absolute default_path = true ->
  read_file default_path = Content text ->
  get_persona subprocess_run process_cwd path_join path_exists is_absolute
    read_file REVIEWER_PERSONA persona_file working_directory
  = join LF
      [ "## Active Code Reviewer Persona"; "";
        "**Source:** embedded default"; "";
        "---"; "";
        text; "" ].
Proof.
  intros cwd default_path Hp Hroot Hne Hex Hdne Habs Hread.
  pose proof (or_else_idempotent working_directory) as Hcwd. fold cwd in Hcwd.
  unfold get_persona, load_persona. fold cwd. rewrite Hp, Hcwd, Hroot.
  cbn [truthy default]. rewrite Hne. cbn [negb]. unfold id.
  fold default_path. rewrite Hex. cbn [truthy default]. unfold id.
  rewrite Hdne, Habs. cbn [negb andb]. now rewrite Hread.
Qed.

End Env.

Lemma review_diff_with_the_phrase_witness :
  review_diff (ToolSamples.scripted_git ToolSamples.phrase_diff) "/repo" (fun a b => a ++ "/" ++ b)
    (fun _ => false) (fun _ => true) (fun _ => FileNotFoundError)
    "embedded persona" "development" None "all" None
  = inr (branch_diff_summary "feature" "development" "0123456789abcdef"
           "*.py" ToolSamples.phrase_diff).
Proof.
  exact (proj1 (review_diff_with_the_phrase
                  (ToolSamples.scripted_git ToolSamples.phrase_diff) "/repo"
                  (fun a b => a ++ "/" ++ b) (fun _ => false) (fun _ => true)
                  (fun _ => FileNotFoundError) "embedded persona"
                  "development" None "all" None
                  eq_refl eq_refl eq_refl eq_refl)).
Defined.

(** X21.  [format_review_comment] leaves the line out of the location for
    line 0 as it does when none is given, and marks a severity it does not
    know as a suggestion. *)
Theorem review_comment_defaults
    (icon_critical icon_warning icon_suggestion icon_question icon_praise
       file_path comment severity : string) (line_number : option Z) :
  format_review_comment icon_critical icon_warning icon_suggestion
    icon_question icon_praise file_path (Some 0%Z) comment severity
  = format_review_comment icon_critical icon_warning icon_suggestion
      icon_question icon_praise file_path None comment severity
  /\ (~ In severity ["critical"; "warning"; "suggestion"; "question"; "praise"] ->
      format_review_comment icon_critical icon_warning icon_suggestion
        icon_question icon_praise file_path line_number comment severity
      = format_review_comment icon_critical icon_warning icon_suggestion
          icon_question icon_praise file_path line_number comment "suggestion").
Proof.
  split; [reflexivity |].
  intros Hnot. unfold format_review_comment.
  assert (Hget : Dict.get severity
                   (severity_icons icon_critical icon_warning icon_suggestion
                      icon_question icon_praise) = None).
  { unfold severity_icons. cbn [Dict.get].
    destruct (String.eqb_spec severity "critical") as [->|_];
      [elim Hnot; simpl; tauto |].
    destruct (String.eqb_spec severity "warning") as [->|_];
      [elim Hnot; simpl; tauto |].
    destruct (String.eqb_spec severity "suggestion") as [->|_];
      [elim Hnot; simpl; tauto |].
    destruct (String.eqb_spec severity "question") as [->|_];
      [elim Hnot; simpl; tauto |].
    destruct (String.eqb_spec severity "praise") as [->|_];
      [elim Hnot; simpl; tauto |].
    reflexivity. }
  rewrite Hget. reflexivity.
Qed.

(** The default file of the repository holds "file persona". *)
Lemma get_persona_source_label_witness :
  get_persona (ToolSamples.scripted_git "") "/repo" (fun a b => a ++ "/" ++ b)
    (fun _ => true) (fun _ => true) (fun _ => Content "file persona")
    "embedded persona" None None
  = join LF
      [ "## Active Code Reviewer Persona"; "";
        "**Source:** embedded default"; "";
        "---"; "";
        "file persona"; "" ].
Proof.
  exact (get_persona_source_label (ToolSamples.scripted_git "") "/repo"
           (fun a b => a ++ "/" ++ b) (fun _ => true) (fun _ => true)
           (fun _ => Content "file persona") "embedded persona" None None
           "/repo" "file persona"
           eq_refl eq_refl eq_refl eq_refl eq_refl eq_refl eq_refl).
Defined.

Lemma review_diff_without_branch_witness :
  review_diff (git (Detached "/repo")) "/repo" (fun a b => a ++ "/" ++ b)
    (fun _ => false) (fun _ => true) (fun _ => FileNotFoundError)
    "embedded persona" "development" None "all" None
  = inr not_a_repo_message.
Proof.
  apply (review_diff_without_branch "/repo" (fun a b => a ++ "/" ++ b)
           (fun _ => false) (fun _ => true) (fun _ => FileNotFoundError)
           "embedded persona" "development" None "all" None
           (Detached "/repo")).
  intros root branch. discriminate.
Defined.

(** The summary of [sample_diff]. *)
Lemma summary_header_is_ignored_witness :
  parse_diff_to_files
    (branch_diff_summary "feature" "development" "0123456789abcdef" "*.py"
       sample_diff)
  = parse_diff_to_files (sample_diff ++ LF).
Proof.
  exact (summary_header_is_ignored "feature" "development" "0123456789abcdef"
           "*.py" sample_diff eq_refl eq_refl eq_refl eq_refl).
Defined.


(** Two changed files. *)
Lemma changed_files_report_witness :
  split LF (get_changed_files (ToolSamples.scripted_git "") "/repo"
              "development" "*.py" None)
  = [ "## Changed Files (2 files)"; ""; "### Files:";
      "- `a.py`"; "- `pkg/b.py`";
      ""; "### Statistics:"; "```";
      " a.py     | 2 +-"; " pkg/b.py | 1 +"; ""; "```"; "" ].
Proof.
  exact (proj2 (changed_files_report (ToolSamples.scripted_git "") "/repo"
                  "development" "*.py" None eq_refl eq_refl eq_refl)).
Defined.

End ToolFacts.

(** ** More about the export *)

Module ExportMore.

Import ExportComments Listing Rows.

Section Remote.

Context {S : Type}.
Variable respond : S -> string -> Response * S.
Variable repr : JSON -> string.
Variable unhashable_slice : exn.

Lemma filter_all {A : Type} (f : A -> bool) (l : list A) :
  (forall x, f x = true) -> List.filter f l = l.
Proof.
  intros H. induction l as [|x l IH]; simpl; [reflexivity |].
  now rewrite H, IH.
Qed.

Lemma rows_of_all (account : option string) (web_url : string)
    (listing : list (JSON * JSON * list PaginatedRecord)) :
  truthy account = false ->
  rows_of repr (wanted account) web_url listing
  = concat (map (fun '(pr_id, pr_title, comments) =>
                   map (row_of repr web_url pr_id pr_title) comments)
                listing).
Proof.
  intros Ht. unfold rows_of. f_equal. apply map_ext.
  intros [[pr_id pr_title] comments]. f_equal. apply filter_all.
  intros c. unfold wanted. now rewrite Ht.
Qed.

(** The scan of a list of pull requests is the scan of its first part,
    followed, when that returns, by the scan of the rest. *)
Lemma scan_prs_app (fuel : nat) (session : Session)
    (workspace repo_slug : string) (account : option string)
    (prs rest : list PaginatedRecord) (w : world S)
    (all_comments : list CommentRecord) :
  scan_prs respond repr unhashable_slice fuel session workspace repo_slug
    account (List.app prs rest) w all_comments
  = match scan_prs respond repr unhashable_slice fuel session workspace
            repo_slug account prs w all_comments with
    | (Done rows, w') =>
        scan_prs respond repr unhashable_slice fuel session workspace
          repo_slug account rest w' rows
    | (Raised e, w') => (Raised e, w')
    | (OutOfFuel, w') => (OutOfFuel, w')
    end.
Proof.
  revert w all_comments. induction prs as [|pr prs IH]; intros w all_comments;
    [reflexivity |].
  cbn [List.app scan_prs].
  destruct (item "id" pr) as [e|pr_id]; [reflexivity |].
  destruct (item "title" pr) as [e|pr_title]; [reflexivity |].
  destruct (slice50 unhashable_slice pr_title) as [e|cut]; [reflexivity |].
  destruct (get_pr_comments respond repr fuel session w workspace repo_slug pr_id)
    as [[comments|e|] w1]; [| reflexivity | reflexivity].
  destruct (scan_comments repr account _ pr_id pr_title comments all_comments)
    as [e|rows]; [reflexivity | apply IH].
Qed.

End Remote.

(** X17.  Without an author filter, none given or the empty text, and when
    every comment listed is an object whose ["content"] and ["inline"], if
    it has them, are objects, the export returns one row for every comment
    of every pull request, in listing order. *)
Theorem export_without_filter {S : Type}
    (respond : S -> string -> Response * S) (repr : JSON -> string)
    (unhashable_slice : exn) (fuel : nat) (session : Session)
    (workspace repo_slug : string) (account : option string)
    (w w1 w2 : world S) (prs : list PaginatedRecord)
    (listing : list (JSON * JSON * list PaginatedRecord)) :
  truthy account = false ->
  get_all_prs respond fuel session w workspace repo_slug = (Done prs, w1) ->
  comments_fetched respond repr fuel session workspace repo_slug w1 prs listing w2 ->
  Forall (fun entry => Forall (fun c => flat c = true) (snd entry)) listing ->
  export_comments_to_csv respond repr unhashable_slice fuel session w
    workspace repo_slug account
  = (Done (rows_of repr (fun _ => true) (pr_web_url workspace repo_slug)
             listing), w2)
  /\ length (rows_of repr (fun _ => true) (pr_web_url workspace repo_slug)
               listing)
     = list_sum (map (fun entry => length (snd entry)) listing).
Proof.
  intros Ht Hprs Hfetched Hflat. split.
  - unfold export_comments_to_csv. rewrite Hprs.
    rewrite <- (app_nil_r prs).
    rewrite (ExportFacts.scan_prs_fetched respond repr unhashable_slice fuel
               session workspace repo_slug account w1 prs listing w2 Hfetched).
    + cbn [scan_prs List.app]. rewrite (rows_of_all repr account _ _ Ht).
      unfold rows_of, pr_web_url. do 3 f_equal. apply map_ext.
      intros [[pr_id pr_title] comments]. f_equal. symmetry.
      now apply filter_all.
    + eapply Forall_impl; [exact Hflat |]. intros entry He.
      eapply Forall_impl; [exact He |]. intros c Hc.
      unfold handled. now rewrite Ht.
  - clear. unfold rows_of.
    induction listing as [|[[pr_id pr_title] comments] listing IH];
      [reflexivity |].
    cbn [map concat list_sum snd]. rewrite length_app, length_map.
    rewrite (filter_all (fun _ => true)) by reflexivity. now rewrite IH.
Qed.

(** [two_prs] with the empty text as filter: all five comments. *)
Lemma export_without_filter_witness :
  fst (export_comments_to_csv play Samples.no_repr TypeError 2
         (create_session "me" "secret")
         (Samples.start Samples.two_prs) "ws" "repo" (Some ""))
  = Done (rows_of Samples.no_repr (fun _ => true) (pr_web_url "ws" "repo")
            [ (Int 1, Str "First",
               [Samples.comment_by 11 (Some "alice") "a";
                Samples.comment_by 12 (Some "bob") "b";
                Samples.comment_by 13 None "c"]);
              (Int 2, Str "Second",
               [Samples.comment_by 21 (Some "carol") "d";
                Samples.inline_comment_by 22 "alice" "e" "src/a.py" 12]) ]).
Proof.
  rewrite (proj1 (export_without_filter play Samples.no_repr TypeError 2
                    (create_session "me" "secret")
                    "ws" "repo" (Some "") (Samples.start Samples.two_prs)
                    _ _ _ _ eq_refl eq_refl ExportFacts.two_prs_fetched
                    ltac:(repeat constructor))).
  reflexivity.
Defined.

(** X18.  The export stops at the first pull request it cannot handle,
    after the earlier ones were handled.  A pull request that is no object
    raises the type error, one without ["id"] or ["title"] the key error, a
    title that is null, a truth value or a number the type error, and a
    title that is an object the exception of a slice used as a key, all
    before any request for its comments; a title that is a text or a list
    is cut without error.  A failure of the comment fetch is passed on,
    and a comment the export cannot handle raises the attribute error once
    the comments are fetched.  The rows gathered so far are not
    returned. *)
Theorem export_stops_at_failing_pr {S : Type}
    (respond : S -> string -> Response * S) (repr : JSON -> string)
    (unhashable_slice : exn) (fuel : nat) (session : Session)
    (workspace repo_slug : string) (account : option string)
    (w w1 w2 : world S) (prs : list PaginatedRecord) (pr : PaginatedRecord)
    (rest : list PaginatedRecord) (rows : list CommentRecord) :
  get_all_prs respond fuel session w workspace repo_slug
  = (Done (List.app prs (pr :: rest)), w1) ->
  scan_prs respond repr unhashable_slice fuel session workspace repo_slug
    account prs w1 [] = (Done rows, w2) ->
  let export :=
    export_comments_to_csv respond repr unhashable_slice fuel session w
      workspace repo_slug account in
  ((forall fields, pr <> Obj fields) -> export = (Raised TypeError, w2))
  /\ (forall fields,
        pr = Obj fields ->
        Dict.get "id" fields = None \/ Dict.get "title" fields = None ->
        export = (Raised KeyError, w2))
  /\ (forall pr_id pr_title,
        field ["id"] pr = Some pr_id -> field ["title"] pr = Some pr_title ->
        match pr_title with
        | Null | Boolean _ | Int _ | Float _ => export = (Raised TypeError, w2)
        | Obj _ => export = (Raised unhashable_slice, w2)
        | Str _ | Arr _ =>
            match get_pr_comments respond repr fuel session w2 workspace
                    repo_slug pr_id with
            | (Raised e, w3) => export = (Raised e, w3)
            | (OutOfFuel, w3) => export = (OutOfFuel, w3)
            | (Done comments, w3) =>
                ~ Forall (fun c => handled account c = true) comments ->
                export = (Raised AttributeError, w3)
            end
        end).
Proof.
  intros Hprs Hscan export. unfold export, export_comments_to_csv.
  rewrite Hprs, scan_prs_app, Hscan. cbn [scan_prs].
  split; [| split].
  - intros Hpr. destruct pr as [| | | | | |fields]; try reflexivity.
    now elim (Hpr fields).
  - intros fields -> Hmissing. cbn [item]. unfold Dict.item.
    destruct (Dict.get "id" fields) as [pr_id|]; [| reflexivity].
    destruct Hmissing as [Hid | Ht]; [discriminate |]. now rewrite Ht.
  - intros pr_id pr_title Hid Ht.
    rewrite (ExportFacts.field_item _ _ _ Hid), (ExportFacts.field_item _ _ _ Ht).
    destruct pr_title as [|b|n|x|t|items|fields]; try reflexivity;
      cbn [slice50];
      destruct (get_pr_comments respond repr fuel session w2 workspace
                  repo_slug pr_id) as [[comments|e|] w3];
      try reflexivity;
      intros Hbad;
      now rewrite (ExportFacts.scan_comments_raises repr account _ pr_id _
                     comments rows Hbad).
Qed.

(** [list_title]: the title, a list, is cut; the one comment is fetched
    and, with a null ["inline"], raises. *)
Lemma export_stops_at_failing_pr_witness :
  export_comments_to_csv play Samples.no_repr TypeError 2
    (create_session "me" "secret")
    (Samples.start list_title) "ws" "repo" None
  = (Raised AttributeError, mkWorld [] [] 2).
Proof.
  apply (proj2 (proj2 (export_stops_at_failing_pr play Samples.no_repr
                         TypeError 2 (create_session "me" "secret")
                         "ws" "repo" None (Samples.start list_title) _ _ []
                         (Obj [("id", Int 1);
                               ("title", Arr [Str "First"; Str "draft"])])
                         [] [] eq_refl eq_refl))
               (Int 1) (Arr [Str "First"; Str "draft"]) eq_refl eq_refl).
  intros H. inversion H. discriminate.
Defined.



End ExportMore.
